(** * NILM engine (nilm_engine.py): a shallow embedding and its properties

    The engine keeps two kinds of state: four SQLite tables (raw samples,
    detected events, appliance signatures, daily statistics) and a handful of
    module globals (rolling windows, the stable level, the last event time).
    Both are threaded explicitly: every function below takes the store and
    the memory it reads and returns the ones it leaves behind.

    Numbers.  Python floats (SQLite REAL) are modelled as exact rationals [Q];
    [round(x, n)] is rounding to the nearest multiple of [10^-n], ties to
    even.  Python's [min] and [max] keep their first argument unless the
    second is strictly smaller (larger), as [Qmin] and [Qmax] do.

    Time.  Timestamps, which the code keeps as "%Y-%m-%d %H:%M:%S" strings,
    are whole seconds on a local time line ([Z]), so they always parse and
    compare as the strings do; a calendar date is the day number
    [ts / 86400].  The wall clock is an input ([Clock]).

    Tables.  A table is the list of its rows in rowid order.  A SELECT
    without ORDER BY returns them in that order; ORDER BY is a stable
    insertion sort.  INTEGER PRIMARY KEY AUTOINCREMENT hands out the
    successor of the largest id ever used, which the store keeps per table.
    A call that raises leaves the store as it was (nothing is committed).

    The host (app.py) enters with the callers of the engine: the NILM block
    of the MQTT handler, the reanalysis route, and [record_energy]. *)

From Stdlib Require Import ZArith QArith Qround Qabs Qminmax Qpower Lqa Lia.
From Stdlib Require Import String Bool List Sorted.
Import ListNotations.

Local Open Scope Z_scope.
Local Open Scope Q_scope.

(** ** Python numerics *)

Definition Qltb (x y : Q) : bool := negb (Qle_bool y x).

(** [round(x)] with no digits: nearest integer, ties to even. *)
Definition round_half_even (x : Q) : Z :=
  let f := Qfloor x in
  match Qcompare (x - inject_Z f) (1 # 2) with
  | Lt => f
  | Gt => (f + 1)%Z
  | Eq => if Z.even f then f else (f + 1)%Z
  end.

Definition pow10 (n : nat) : Q := inject_Z (10 ^ Z.of_nat n).

(** [round(x, n)]. *)
Definition py_round (x : Q) (n : nat) : Q :=
  inject_Z (round_half_even (x * pow10 n)) / pow10 n.

(** [float("inf")] as the missing bound: [x < inf] always holds. *)
Definition lt_bound (x : Q) (bound : option Q) : bool :=
  match bound with
  | None => true
  | Some b => Qltb x b
  end.

(** [v or 0] on an optional reading. *)
Definition or_zero (v : option Q) : Q :=
  match v with
  | Some x => x
  | None => 0
  end.

(** ** Configuration (the module constants, which the host may overwrite) *)

Record Config := mkConfig {
  EDGE_THRESHOLD : Q;
  SMOOTHING_WINDOW : nat;
  DEBOUNCE_SECONDS : Q;
  SIGNATURE_TOLERANCE : Q;
  INVERTER_IDLE_LOAD : Q;
  MAX_PAIRING_HOURS : Z
}.

Definition default_config : Config :=
  mkConfig 20 3 10 (30 # 100) 70 12.

(** ** Data model: one record per table row *)

Inductive EventType := EvOn | EvOff.
Inductive Leg := LegL1 | LegL2 | LegBoth.

Definition EventType_eqb (a b : EventType) : bool :=
  match a, b with
  | EvOn, EvOn | EvOff, EvOff => true
  | _, _ => false
  end.

Record Sample := mkSample {
  s_timestamp : Z;
  s_load_total : Q;
  s_load_l1 : Q;
  s_load_l2 : Q;
  s_smoothed_total : Q
}.

Record Event := mkEvent {
  e_id : Z;
  e_timestamp : Z;
  e_event_type : EventType;
  e_power_delta : Q;
  e_leg : Leg;
  e_duration : option Z;
  e_signature_id : Z;
  e_confidence : Q
}.

Record Signature := mkSignature {
  sg_id : Z;
  power_avg : Q;
  power_min : Q;
  power_max : Q;
  leg_pattern : Leg;
  event_count : Z;
  user_label : string;
  icon : string;
  color : string;
  is_active : bool;
  active_count : Z;
  last_on_time : option Z;
  avg_duration : Q;
  daily_cycles : Q
}.

Record DailyStat := mkDailyStat {
  d_date : Z;
  d_signature_id : Z;
  d_cycles : Z;
  d_total_duration : Z;
  d_energy_kwh : Q
}.

(** The database.  Tables are lists in rowid order.  [seq_events] and
    [seq_signatures] are the AUTOINCREMENT counters (sqlite_sequence): the
    largest id ever handed out, which a DELETE of every row does not reset. *)
Record Store := mkStore {
  load_samples : list Sample;
  load_events : list Event;
  appliance_signatures : list Signature;
  appliance_daily_stats : list DailyStat;
  seq_events : Z;
  seq_signatures : Z
}.

(** [collections.deque(maxlen=n)]. *)
Record Deque := mkDeque {
  items : list Q;
  maxlen : nat
}.

Definition deque_new (n : nat) : Deque := mkDeque [] n.

Definition deque_append (d : Deque) (x : Q) : Deque :=
  let l := items d ++ [x] in
  mkDeque (skipn (length l - maxlen d) l) (maxlen d).

(** The module globals. *)
Record Mem := mkMem {
  recent_loads : Deque;
  recent_l1 : Deque;
  recent_l2 : Deque;
  stable_level : option Q;
  last_event_time : Q
}.

Definition initial_mem (cfg : Config) : Mem :=
  mkMem (deque_new (SMOOTHING_WINDOW cfg)) (deque_new (SMOOTHING_WINDOW cfg))
        (deque_new (SMOOTHING_WINDOW cfg)) None 0.

(** One reading of the wall clock: [time.time()] and [datetime.now()]. *)
Record Clock := mkClock {
  time_time : Q;
  datetime_now : Z
}.

Definition date_of (ts : Z) : Z := (ts / 86400)%Z.

(** ** Row-level helpers for the SQL statements *)

Definition set_signatures (db : Store) (sigs : list Signature) : Store :=
  mkStore (load_samples db) (load_events db) sigs (appliance_daily_stats db)
          (seq_events db) (seq_signatures db).

Definition set_events (db : Store) (evs : list Event) : Store :=
  mkStore (load_samples db) evs (appliance_signatures db)
          (appliance_daily_stats db) (seq_events db) (seq_signatures db).

Definition set_daily_stats (db : Store) (ds : list DailyStat) : Store :=
  mkStore (load_samples db) (load_events db) (appliance_signatures db) ds
          (seq_events db) (seq_signatures db).

(** SELECT ... WHERE id = ? (fetchone). *)
Definition get_signature (db : Store) (id : Z) : option Signature :=
  find (fun s => (sg_id s =? id)%Z) (appliance_signatures db).

(** UPDATE appliance_signatures SET ... WHERE id = ?. *)
Definition update_sig_rows (id : Z) (f : Signature -> Signature)
    (sigs : list Signature) : list Signature :=
  map (fun s => if (sg_id s =? id)%Z then f s else s) sigs.

Definition update_sig (db : Store) (id : Z) (f : Signature -> Signature) : Store :=
  set_signatures db (update_sig_rows id f (appliance_signatures db)).

Definition with_duration (e : Event) (d : option Z) : Event :=
  mkEvent (e_id e) (e_timestamp e) (e_event_type e) (e_power_delta e)
          (e_leg e) d (e_signature_id e) (e_confidence e).

(** UPDATE load_events SET duration = ? WHERE id = ?. *)
Definition set_event_duration (id : Z) (d : option Z) (evs : list Event) : list Event :=
  map (fun e => if (e_id e =? id)%Z then with_duration e d else e) evs.

(** ** _smooth and the label suggestions *)

Definition _smooth (values : Deque) : Q :=
  match items values with
  | [] => 0
  | l => fold_left Qplus l 0 / inject_Z (Z.of_nat (length l))
  end.

Definition _suggest_label (power : Q) : string :=
  let p := Qabs power in
  if Qltb p 50 then "Small Device"%string
  else if Qltb p 200 then "Medium Device"%string
  else if Qltb p 800 then "Appliance"%string
  else if Qltb p 2000 then "Heater/Cooler"%string
  else "Major Appliance"%string.

Definition _suggest_icon (power : Q) : string :=
  let p := Qabs power in
  if Qltb p 50 then "🔌"%string
  else if Qltb p 200 then "❄️"%string
  else if Qltb p 800 then "📺"%string
  else if Qltb p 2000 then "🔥"%string
  else "⚡"%string.

Definition _suggest_color (power : Q) : string :=
  let p := Qabs power in
  if Qltb p 50 then "#60a5fa"%string
  else if Qltb p 200 then "#22c55e"%string
  else if Qltb p 800 then "#f59e0b"%string
  else if Qltb p 2000 then "#ef4444"%string
  else "#a855f7"%string.

(** ** Field updates used by the UPDATE statements *)

Definition set_power_stats (avg mn mx : Q) (cnt : Z) (s : Signature) : Signature :=
  mkSignature (sg_id s) avg mn mx (leg_pattern s) cnt (user_label s) (icon s)
              (color s) (is_active s) (active_count s) (last_on_time s)
              (avg_duration s) (daily_cycles s).

Definition set_power_count (avg : Q) (cnt : Z) (s : Signature) : Signature :=
  set_power_stats avg (power_min s) (power_max s) cnt s.

Definition set_active (act : bool) (cnt : Z) (s : Signature) : Signature :=
  mkSignature (sg_id s) (power_avg s) (power_min s) (power_max s) (leg_pattern s)
              (event_count s) (user_label s) (icon s) (color s) act cnt
              (last_on_time s) (avg_duration s) (daily_cycles s).

Definition set_active_count (cnt : Z) (s : Signature) : Signature :=
  set_active (is_active s) cnt s.

Definition set_active_on (cnt : Z) (ts : Z) (s : Signature) : Signature :=
  mkSignature (sg_id s) (power_avg s) (power_min s) (power_max s) (leg_pattern s)
              (event_count s) (user_label s) (icon s) (color s) true cnt
              (Some ts) (avg_duration s) (daily_cycles s).

Definition set_avg_duration (d : Q) (s : Signature) : Signature :=
  mkSignature (sg_id s) (power_avg s) (power_min s) (power_max s) (leg_pattern s)
              (event_count s) (user_label s) (icon s) (color s) (is_active s)
              (active_count s) (last_on_time s) d (daily_cycles s).

Definition set_daily_cycles (c : Q) (s : Signature) : Signature :=
  mkSignature (sg_id s) (power_avg s) (power_min s) (power_max s) (leg_pattern s)
              (event_count s) (user_label s) (icon s) (color s) (is_active s)
              (active_count s) (last_on_time s) (avg_duration s) c.

Definition set_display (l i c : string) (s : Signature) : Signature :=
  mkSignature (sg_id s) (power_avg s) (power_min s) (power_max s) (leg_pattern s)
              (event_count s) l i c (is_active s) (active_count s)
              (last_on_time s) (avg_duration s) (daily_cycles s).

(** ** startup *)

Definition startup (db : Store) : Z * Store :=
  let sigs := map (set_active false 0) (appliance_signatures db) in
  let evs :=
    map (fun e =>
           match e_event_type e, e_duration e with
           | EvOn, None => with_duration e (Some (-1)%Z)
           | _, _ => e
           end) (load_events db) in
  (Z.of_nat (length sigs),
   mkStore (load_samples db) evs sigs (appliance_daily_stats db)
           (seq_events db) (seq_signatures db)).

(** ** store_load_sample *)

Definition mem_append (m : Mem) (load_total l1 l2 : Q) : Mem :=
  mkMem (deque_append (recent_loads m) load_total)
        (deque_append (recent_l1 m) l1)
        (deque_append (recent_l2 m) l2)
        (stable_level m) (last_event_time m).

(** INSERT OR REPLACE on the timestamp key. *)
Definition put_sample (row : Sample) (rows : list Sample) : list Sample :=
  filter (fun r => negb (s_timestamp r =? s_timestamp row)%Z) rows ++ [row].

Definition store_load_sample (clk : Clock) (db : Store) (m : Mem)
    (load_total : Q) (load_l1 load_l2 : option Q) : Q * Store * Mem :=
  let m' := mem_append m load_total (or_zero load_l1) (or_zero load_l2) in
  let smoothed := _smooth (recent_loads m') in
  let row := mkSample (datetime_now clk) load_total (or_zero load_l1)
                      (or_zero load_l2) (py_round smoothed 1) in
  (smoothed,
   mkStore (put_sample row (load_samples db)) (load_events db)
           (appliance_signatures db) (appliance_daily_stats db)
           (seq_events db) (seq_signatures db),
   m').

(** ** find_matching_signature, create_signature, update_signature *)

Definition fms_step (cfg : Config) (power_delta : Q)
    (best : option Z * option Q) (row : Z * Q) : option Z * option Q :=
  let '(sig_id, avg_power) := row in
  let diff := Qabs (power_delta - avg_power) in
  let tolerance := avg_power * SIGNATURE_TOLERANCE cfg in
  if Qle_bool diff tolerance && lt_bound diff (snd best)
  then (Some sig_id, Some diff)
  else best.

Definition signature_rows (db : Store) : list (Z * Q) :=
  map (fun s => (sg_id s, power_avg s)) (appliance_signatures db).

Definition find_matching_signature (cfg : Config) (db : Store)
    (power_delta : Q) (leg : Leg) : option Z :=
  fst (fold_left (fms_step cfg power_delta) (signature_rows db) (None, None)).

Definition create_signature (db : Store) (power_delta : Q) (leg : Leg) : Z * Store :=
  let sig_id := (seq_signatures db + 1)%Z in
  let row :=
    mkSignature sig_id power_delta power_delta power_delta leg 1
                (_suggest_label power_delta) (_suggest_icon power_delta)
                (_suggest_color power_delta) false 0 None 0 0 in
  (sig_id,
   mkStore (load_samples db) (load_events db) (appliance_signatures db ++ [row])
           (appliance_daily_stats db) (seq_events db) sig_id).

Definition update_signature (db : Store) (signature_id : Z) (power_delta : Q) : Store :=
  match get_signature db signature_id with
  | None => db
  | Some row =>
      let count := event_count row in
      let new_count := (count + 1)%Z in
      let new_avg :=
        py_round ((power_avg row * inject_Z count + power_delta)
                  / inject_Z new_count) 1 in
      let new_min := Qmin (power_min row) power_delta in
      let new_max := Qmax (power_max row) power_delta in
      update_sig db signature_id (set_power_stats new_avg new_min new_max new_count)
  end.

(** ** _update_avg_duration and pair_on_off_event *)

Definition _update_avg_duration (db : Store) (signature_id : Z) (new_duration : Z) : Store :=
  match get_signature db signature_id with
  | None => db
  | Some row =>
      let cycles := Z.max 1 (event_count row / 2) in
      let new_avg :=
        py_round ((avg_duration row * inject_Z (cycles - 1) + inject_Z new_duration)
                  / inject_Z cycles) 1 in
      update_sig db signature_id (set_avg_duration new_avg)
  end.

(** ORDER BY timestamp ASC, rows of equal timestamp staying in rowid order. *)
Fixpoint insert_by_ts (e : Event) (l : list Event) : list Event :=
  match l with
  | [] => [e]
  | x :: r =>
      if (e_timestamp e <=? e_timestamp x)%Z then e :: l
      else x :: insert_by_ts e r
  end.

Fixpoint order_by_ts (l : list Event) : list Event :=
  match l with
  | [] => []
  | e :: r => insert_by_ts e (order_by_ts r)
  end.

Definition unresolved_on (e : Event) : bool :=
  EventType_eqb (e_event_type e) EvOn &&
  match e_duration e with None => true | Some _ => false end.

(** load_events JOIN appliance_signatures ON e.signature_id = s.id, for the
    given events: an event whose signature is missing yields no row. *)
Definition join_signature (db : Store) (evs : list Event) : list (Event * Signature) :=
  flat_map (fun e =>
              match get_signature db (e_signature_id e) with
              | Some s => [(e, s)]
              | None => []
              end) evs.

(** The candidate rows [(id, timestamp, power_delta, power_avg)] of the
    pairing query. *)
Definition pairing_candidates (db : Store) (cutoff : Z) : list (Event * Signature) :=
  join_signature db
    (order_by_ts
       (filter (fun e => unresolved_on e && (cutoff <=? e_timestamp e)%Z)
               (load_events db))).

Definition pair_diff (off_power : Q) (c : Event * Signature) : Q :=
  Qmin (Qabs (off_power - e_power_delta (fst c)))
       (Qabs (off_power - power_avg (snd c))).

Definition pair_step (off_power : Q)
    (best : option (Z * Z) * option Q) (c : Event * Signature)
    : option (Z * Z) * option Q :=
  let diff := pair_diff off_power c in
  if lt_bound diff (snd best)
  then (Some (e_id (fst c), e_timestamp (fst c)), Some diff)
  else best.

Definition effective_off_power (db : Store) (signature_id : Z) (off_power : Q) : Q :=
  if Qle_bool off_power 0 then
    match get_signature db signature_id with
    | Some s => power_avg s
    | None => 0
    end
  else off_power.

Definition pairing_limit (off_power : Q) : Q := Qmax (off_power * (4 # 10)) 40.

(** The accepted row of the pairing scan, if any. *)
Definition pairing_choice (cfg : Config) (db : Store) (signature_id : Z)
    (off_timestamp : Z) (off_power : Q) : option (Z * Z) :=
  let off_power := effective_off_power db signature_id off_power in
  let cutoff := (off_timestamp - MAX_PAIRING_HOURS cfg * 3600)%Z in
  let '(row, best_diff) :=
    fold_left (pair_step off_power) (pairing_candidates db cutoff) (None, None) in
  match row, best_diff with
  | Some r, Some bd => if Qltb (pairing_limit off_power) bd then None else Some r
  | _, _ => None
  end.

Definition pair_on_off_event (cfg : Config) (db : Store) (signature_id : Z)
    (off_timestamp : Z) (off_power : Q) : option Z * Store :=
  match pairing_choice cfg db signature_id off_timestamp off_power with
  | None => (None, db)
  | Some (on_id, on_timestamp) =>
      let duration := (off_timestamp - on_timestamp)%Z in
      let db1 := set_events db (set_event_duration on_id (Some duration) (load_events db)) in
      (Some duration, _update_avg_duration db1 signature_id duration)
  end.

(** ** _update_signature_active_state *)

(** The fallback scan over the active signatures: the first one whose average
    is within tolerance of the event's power loses one instance. *)
Fixpoint decrement_similar (cfg : Config) (power_delta : Q)
    (rows : list Signature) (db : Store) : Store :=
  match rows with
  | [] => db
  | other :: rest =>
      let diff := Qabs (power_delta - power_avg other) in
      let tolerance :=
        Qmax (power_avg other * SIGNATURE_TOLERANCE cfg) (EDGE_THRESHOLD cfg) in
      if Qle_bool diff tolerance then
        let other_count := if (active_count other =? 0)%Z then 1%Z else active_count other in
        let new_count := (other_count - 1)%Z in
        if (new_count <=? 0)%Z
        then update_sig db (sg_id other) (set_active false 0)
        else update_sig db (sg_id other) (set_active_count new_count)
      else decrement_similar cfg power_delta rest db
  end.

Definition _update_signature_active_state (cfg : Config) (db : Store)
    (signature_id : Z) (event_type : EventType) (timestamp : Z) (power_delta : Q)
    : Store :=
  match event_type with
  | EvOn =>
      let current_count :=
        match get_signature db signature_id with
        | Some s => active_count s
        | None => 0%Z
        end in
      update_sig db signature_id (set_active_on (current_count + 1) timestamp)
  | EvOff =>
      let row :=
        find (fun s => (sg_id s =? signature_id)%Z && is_active s)
             (appliance_signatures db) in
      match row with
      | Some s =>
          if (0 <? active_count s)%Z then
            let new_count := (active_count s - 1)%Z in
            if (new_count <=? 0)%Z
            then update_sig db signature_id (set_active false 0)
            else update_sig db signature_id (set_active_count new_count)
          else if Qltb 0 power_delta
          then decrement_similar cfg power_delta
                 (filter is_active (appliance_signatures db)) db
          else db
      | None =>
          if Qltb 0 power_delta
          then decrement_similar cfg power_delta
                 (filter is_active (appliance_signatures db)) db
          else db
      end
  end.

(** ** _update_daily_cycles and _update_daily_stats *)

Definition stats_of (db : Store) (signature_id : Z) : list DailyStat :=
  filter (fun r => (d_signature_id r =? signature_id)%Z) (appliance_daily_stats db).

(** SELECT AVG(cycles): NULL over no rows. *)
Definition avg_cycles (rows : list DailyStat) : option Q :=
  match rows with
  | [] => None
  | _ =>
      Some (inject_Z (fold_left Z.add (map d_cycles rows) 0%Z)
            / inject_Z (Z.of_nat (length rows)))
  end.

Definition _update_daily_cycles (db : Store) (signature_id : Z) : Store :=
  match avg_cycles (stats_of db signature_id) with
  | Some a =>
      if Qeq_bool a 0 then db
      else update_sig db signature_id (set_daily_cycles (py_round a 1))
  | None => db
  end.

Definition energy_kwh (power_delta : Q) (duration : Z) : Q :=
  py_round (power_delta * inject_Z duration / 3600 / 1000) 4.

Definition stat_key (today signature_id : Z) (r : DailyStat) : bool :=
  (d_date r =? today)%Z && (d_signature_id r =? signature_id)%Z.

Definition _update_daily_stats (clk : Clock) (db : Store) (signature_id : Z)
    (power_delta : Q) (duration : Z) : Store :=
  let today := date_of (datetime_now clk) in
  let energy := energy_kwh power_delta duration in
  let rows := appliance_daily_stats db in
  let rows' :=
    if existsb (stat_key today signature_id) rows then
      map (fun r =>
             if stat_key today signature_id r then
               mkDailyStat (d_date r) (d_signature_id r) (d_cycles r + 1)
                           (d_total_duration r + duration)
                           (d_energy_kwh r + energy)
             else r) rows
    else rows ++ [mkDailyStat today signature_id 1 duration energy] in
  _update_daily_cycles (set_daily_stats db rows') signature_id.

Definition _get_signature_label (db : Store) (signature_id : Z) : string :=
  match get_signature db signature_id with
  | Some s => user_label s
  | None => "Unknown"%string
  end.

(** ** detect_edge *)

Record EventDict := mkEventDict {
  ed_event_type : EventType;
  ed_power_delta : Q;
  ed_leg : Leg;
  ed_duration : option Z;
  ed_signature_id : Z;
  ed_confidence : Q;
  ed_label : string;
  ed_timestamp : Z
}.

Definition set_stable_level (m : Mem) (v : option Q) : Mem :=
  mkMem (recent_loads m) (recent_l1 m) (recent_l2 m) v (last_event_time m).

(** [_recent_loads[-1] if _recent_loads else smoothed_total]. *)
Definition raw_current (m : Mem) (smoothed_total : Q) : Q :=
  last (items (recent_loads m)) smoothed_total.

Definition classify_leg (load_l1 load_l2 : option Q) : Leg :=
  let l1_now := or_zero load_l1 in
  let l2_now := or_zero load_l2 in
  if Qltb (Qabs (l1_now - l2_now)) 20 then LegBoth
  else if Qltb l2_now l1_now then LegL1
  else LegL2.

Definition confidence_of (power_delta : Q) : Q :=
  py_round (Qmax (5 # 10) (Qmin 1 ((5 # 10) + power_delta / 400))) 2.

(** "Find or create a matching signature": [if signature_id:] takes the
    matched id unless it is missing or zero. *)
Definition resolve_signature (cfg : Config) (db : Store) (power_delta : Q)
    (leg : Leg) : Z * Store :=
  match find_matching_signature cfg db power_delta leg with
  | Some id =>
      if (id =? 0)%Z then create_signature db power_delta leg
      else (id, update_signature db id power_delta)
  | None => create_signature db power_delta leg
  end.

(** "Store the event", "Update signature active state" and "Update daily
    stats if off event with duration". *)
Definition store_event (cfg : Config) (clk : Clock) (db : Store)
    (timestamp : Z) (event_type : EventType) (power_delta : Q) (leg : Leg)
    (duration : option Z) (signature_id : Z) (confidence : Q) : Store :=
  let ev_id := (seq_events db + 1)%Z in
  let db3 :=
    mkStore (load_samples db)
            (load_events db ++
               [mkEvent ev_id timestamp event_type power_delta leg duration
                        signature_id confidence])
            (appliance_signatures db) (appliance_daily_stats db)
            ev_id (seq_signatures db) in
  let db4 :=
    _update_signature_active_state cfg db3 signature_id event_type timestamp power_delta in
  match event_type, duration with
  | EvOff, Some d =>
      if (d =? 0)%Z then db4
      else _update_daily_stats clk db4 signature_id power_delta d
  | _, _ => db4
  end.

(** Everything after the debounce test: the edge is accepted. *)
Definition record_edge (cfg : Config) (clk : Clock) (db : Store)
    (delta raw : Q) (load_l1 load_l2 : option Q) (override_timestamp : option Z)
    : EventDict * Store :=
  let event_type := if Qltb 0 delta then EvOn else EvOff in
  let power_delta := py_round (Qabs delta) 1 in
  let timestamp :=
    match override_timestamp with
    | Some ts => ts
    | None => datetime_now clk
    end in
  let leg := classify_leg load_l1 load_l2 in
  let confidence := confidence_of power_delta in
  let '(signature_id, db1) := resolve_signature cfg db power_delta leg in
  let '(duration, db2) :=
    match event_type with
    | EvOff => pair_on_off_event cfg db1 signature_id timestamp power_delta
    | EvOn => (None, db1)
    end in
  let db5 :=
    store_event cfg clk db2 timestamp event_type power_delta leg duration
                signature_id confidence in
  (mkEventDict event_type power_delta leg duration signature_id confidence
               (_get_signature_label db5 signature_id) timestamp,
   db5).

Definition detect_edge (cfg : Config) (clk : Clock) (db : Store) (m : Mem)
    (smoothed_total : Q) (load_l1 load_l2 : option Q)
    (override_timestamp : option Z) : option EventDict * Store * Mem :=
  match stable_level m with
  | None => (None, db, set_stable_level m (Some smoothed_total))
  | Some level =>
      let raw := raw_current m smoothed_total in
      let delta := raw - level in
      if Qltb (Qabs delta) (EDGE_THRESHOLD cfg) then
        (None, db,
         set_stable_level m (Some (level * (95 # 100) + smoothed_total * (5 # 100))))
      else
        let now :=
          match override_timestamp with
          | Some ts => inject_Z ts
          | None => time_time clk
          end in
        if Qltb (now - last_event_time m) (DEBOUNCE_SECONDS cfg) then (None, db, m)
        else
          let '(ev, db') :=
            record_edge cfg clk db delta raw load_l1 load_l2 override_timestamp in
          (Some ev, db',
           mkMem (recent_loads m) (recent_l1 m) (recent_l2 m) (Some raw) now)
  end.

(** ** get_active_appliances *)

Record ActiveEntry := mkActiveEntry {
  a_id : Z;
  a_event_id : Z;
  a_power : Q;
  a_label : string;
  a_icon : string;
  a_color : string;
  a_duration : Z
}.

Definition stale : option Z := Some (-1)%Z.

(** UPDATE load_events SET duration = -1 WHERE event_type = 'on'
    AND duration IS NULL AND timestamp < ?. *)
Definition expire_before (cutoff : Z) (evs : list Event) : list Event :=
  map (fun e =>
         if unresolved_on e && (e_timestamp e <? cutoff)%Z
         then with_duration e stale
         else e) evs.

Definition active_entry (now : Z) (c : Event * Signature) : ActiveEntry :=
  let '(e, s) := c in
  mkActiveEntry (e_signature_id e) (e_id e) (power_avg s) (user_label s)
                (icon s) (color s) (now - e_timestamp e)%Z.

(** The pruning loop: [active.pop(0)] while the claimed total is too high. *)
Fixpoint prune_oldest (limit : Q) (active : list ActiveEntry) (active_total : Q)
    (evs : list Event) : list ActiveEntry * list Event :=
  match active with
  | [] => ([], evs)
  | removed :: rest =>
      if Qltb limit active_total then
        prune_oldest limit rest (active_total - a_power removed)
                     (set_event_duration (a_event_id removed) stale evs)
      else (active, evs)
  end.

Definition get_active_appliances (cfg : Config) (clk : Clock) (db : Store)
    (current_load : option Q) : list ActiveEntry * Store :=
  let now := datetime_now clk in
  let stale_cutoff := (now - 4 * 3600)%Z in
  let db1 := set_events db (expire_before stale_cutoff (load_events db)) in
  let rows :=
    join_signature db1 (order_by_ts (filter unresolved_on (load_events db1))) in
  let active := map (active_entry now) rows in
  match current_load, active with
  | Some load, _ :: _ =>
      let appliance_load := Qmax 0 (load - INVERTER_IDLE_LOAD cfg) in
      let active_total := fold_left Qplus (map a_power active) 0 in
      let limit := appliance_load * (15 # 10) + 50 in
      let '(active', evs') := prune_oldest limit active active_total (load_events db1) in
      (active', set_events db1 evs')
  | _, _ => (active, db1)
  end.

(** ** get_all_signatures, update_signature_label, merge_signatures *)

(** ORDER BY event_count DESC. *)
Fixpoint insert_by_count (s : Signature) (l : list Signature) : list Signature :=
  match l with
  | [] => [s]
  | x :: r =>
      if (event_count x <=? event_count s)%Z then s :: l
      else x :: insert_by_count s r
  end.

Fixpoint order_by_count_desc (l : list Signature) : list Signature :=
  match l with
  | [] => []
  | s :: r => insert_by_count s (order_by_count_desc r)
  end.

Definition get_all_signatures (db : Store) : list Signature :=
  order_by_count_desc (appliance_signatures db).

Definition update_signature_label (db : Store) (signature_id : Z)
    (label icon' color' : option string) : Store :=
  update_sig db signature_id
    (fun s =>
       set_display
         (match label with Some l => l | None => user_label s end)
         (match icon' with Some i => i | None => icon s end)
         (match color' with Some c => c | None => color s end) s).

(** What a call leaves the caller with: a value, or a raised
    [sqlite3.IntegrityError]. *)
Inductive Outcome (A : Type) : Type :=
| Returned (a : A)
| IntegrityError.
Arguments Returned {A} a.
Arguments IntegrityError {A}.

(** PRIMARY KEY (date, signature_id): re-keying a row of [merge_id] to
    [keep_id] collides with a row [keep_id] already has for that date. *)
Definition stats_collide (rows : list DailyStat) (keep_id merge_id : Z) : bool :=
  negb (keep_id =? merge_id)%Z &&
  existsb (fun r =>
             (d_signature_id r =? merge_id)%Z &&
             existsb (fun k => (d_signature_id k =? keep_id)%Z &&
                               (d_date k =? d_date r)%Z) rows) rows.

Definition move_events (keep_id merge_id : Z) (evs : list Event) : list Event :=
  map (fun e =>
         if (e_signature_id e =? merge_id)%Z then
           mkEvent (e_id e) (e_timestamp e) (e_event_type e) (e_power_delta e)
                   (e_leg e) (e_duration e) keep_id (e_confidence e)
         else e) evs.

Definition move_stats (keep_id merge_id : Z) (rows : list DailyStat) : list DailyStat :=
  map (fun r =>
         if (d_signature_id r =? merge_id)%Z then
           mkDailyStat (d_date r) keep_id (d_cycles r) (d_total_duration r)
                       (d_energy_kwh r)
         else r) rows.

Definition merged_avg (keep merge : Signature) : Q :=
  let total_count := (event_count keep + event_count merge)%Z in
  if (0 <? total_count)%Z then
    py_round ((power_avg keep * inject_Z (event_count keep)
               + power_avg merge * inject_Z (event_count merge))
              / inject_Z total_count) 1
  else power_avg keep.

(** The store that comes back with [IntegrityError] is the one before the
    call: nothing was committed. *)
Definition merge_signatures (db : Store) (keep_id merge_id : Z)
    : Outcome bool * Store :=
  match get_signature db keep_id, get_signature db merge_id with
  | Some keep, Some merge =>
      let total_count := (event_count keep + event_count merge)%Z in
      let new_avg := merged_avg keep merge in
      if stats_collide (appliance_daily_stats db) keep_id merge_id
      then (IntegrityError, db)
      else
        let sigs1 :=
          update_sig_rows keep_id (set_power_count new_avg total_count)
                          (appliance_signatures db) in
        let sigs2 := filter (fun s => negb (sg_id s =? merge_id)%Z) sigs1 in
        (Returned true,
         mkStore (load_samples db)
                 (move_events keep_id merge_id (load_events db))
                 sigs2
                 (move_stats keep_id merge_id (appliance_daily_stats db))
                 (seq_events db) (seq_signatures db))
  | _, _ => (Returned false, db)
  end.

(** ** _save_user_labels and _restore_user_labels *)

Record Customization := mkCustomization {
  c_label : string;
  c_icon : string;
  c_color : string
}.

(** The Python dict [saved]: keys in first-insertion order, a repeated key
    overwriting the value in place. *)
Definition SavedLabels := list (Z * Customization).

Fixpoint dict_set (k : Z) (v : Customization) (d : SavedLabels) : SavedLabels :=
  match d with
  | [] => [(k, v)]
  | (k', v') :: r =>
      if (k' =? k)%Z then (k, v) :: r else (k', v') :: dict_set k v r
  end.

Definition _save_user_labels (db : Store) : SavedLabels :=
  fold_left
    (fun saved s =>
       dict_set (round_half_even (power_avg s))
                (mkCustomization (user_label s) (icon s) (color s)) saved)
    (appliance_signatures db) [].

Definition auto_labels : list string :=
  ["Small Device"; "Medium Device"; "Appliance"; "Heater/Cooler"; "Major Appliance"]%string.

Definition is_auto_label (l : string) : bool :=
  existsb (String.eqb l) auto_labels.

Definition restore_tolerance (cfg : Config) (key : Z) : Q :=
  Qmax (inject_Z key * SIGNATURE_TOLERANCE cfg) (EDGE_THRESHOLD cfg).

Definition restore_diff (key saved_power : Z) : Q :=
  inject_Z (Z.abs (key - saved_power)).

Definition restore_step (cfg : Config) (key : Z)
    (best : option Customization * option Q) (entry : Z * Customization)
    : option Customization * option Q :=
  let '(saved_power, customization) := entry in
  let diff := restore_diff key saved_power in
  if Qle_bool diff (restore_tolerance cfg key) && lt_bound diff (snd best) then
    if is_auto_label (c_label customization) then best
    else (Some customization, Some diff)
  else best.

Definition best_saved (cfg : Config) (saved_labels : SavedLabels) (power_avg : Q)
    : option Customization :=
  fst (fold_left (restore_step cfg (round_half_even power_avg)) saved_labels (None, None)).

Definition _restore_user_labels (cfg : Config) (db : Store)
    (saved_labels : SavedLabels) : Store :=
  fold_left
    (fun db' s =>
       match best_saved cfg saved_labels (power_avg s) with
       | Some c => update_sig db' (sg_id s) (set_display (c_label c) (c_icon c) (c_color c))
       | None => db'
       end)
    (appliance_signatures db) db.

(** ** reanalyze *)

Record Summary := mkSummary {
  sm_samples : nat;
  sm_events : nat;
  sm_signatures : nat
}.

(** SELECT ... FROM load_samples ORDER BY timestamp ASC. *)
Fixpoint insert_sample (x : Sample) (l : list Sample) : list Sample :=
  match l with
  | [] => [x]
  | y :: r =>
      if (s_timestamp x <=? s_timestamp y)%Z then x :: l
      else y :: insert_sample x r
  end.

Fixpoint samples_in_order (l : list Sample) : list Sample :=
  match l with
  | [] => []
  | x :: r => insert_sample x (samples_in_order r)
  end.

(** DELETE FROM load_events / appliance_signatures / appliance_daily_stats. *)
Definition clear_detections (db : Store) : Store :=
  mkStore (load_samples db) [] [] [] (seq_events db) (seq_signatures db).

(** The replay loop.  [clock i] is the wall clock while sample [i] is being
    replayed. *)
Fixpoint replay (cfg : Config) (clock : nat -> Clock) (i : nat)
    (samples : list Sample) (db : Store) (m : Mem) (events_found : nat)
    : nat * Store * Mem :=
  match samples with
  | [] => (events_found, db, m)
  | x :: rest =>
      let m1 := mem_append m (s_load_total x) (s_load_l1 x) (s_load_l2 x) in
      let smoothed := _smooth (recent_loads m1) in
      let '(event, db1, m2) :=
        detect_edge cfg (clock i) db m1 smoothed (Some (s_load_l1 x))
                    (Some (s_load_l2 x)) (Some (s_timestamp x)) in
      replay cfg clock (S i) rest db1 m2
             (match event with Some _ => S events_found | None => events_found end)
  end.

Definition reanalyze (cfg : Config) (clock : nat -> Clock) (db : Store) (m : Mem)
    : Summary * Store * Mem :=
  let saved_labels := _save_user_labels db in
  let db1 := clear_detections db in
  match samples_in_order (load_samples db1) with
  | [] => (mkSummary 0 0 0, db1, m)
  | samples =>
      let '(events_found, db2, m2) :=
        replay cfg clock 0 samples db1 (initial_mem cfg) 0 in
      let db3 := set_signatures db2 (map (set_active false 0) (appliance_signatures db2)) in
      let sig_count := length (appliance_signatures db3) in
      (mkSummary (length samples) events_found sig_count,
       _restore_user_labels cfg db3 saved_labels, m2)
  end.

(** ** The live sampling path (the host's MQTT handler) *)

Record Reading := mkReading {
  rd_clock : Clock;
  rd_total : Q;
  rd_l1 : option Q;
  rd_l2 : option Q
}.

(** One delivered reading: [store_load_sample] then [detect_edge]. *)
Definition tick (cfg : Config) (st : Store * Mem) (r : Reading)
    : option EventDict * (Store * Mem) :=
  let '(smoothed, db1, m1) :=
    store_load_sample (rd_clock r) (fst st) (snd st) (rd_total r) (rd_l1 r) (rd_l2 r) in
  let '(ev, db2, m2) :=
    detect_edge cfg (rd_clock r) db1 m1 smoothed (rd_l1 r) (rd_l2 r) None in
  (ev, (db2, m2)).

Fixpoint run_ticks (cfg : Config) (st : Store * Mem) (rs : list Reading)
    : list (option EventDict) * (Store * Mem) :=
  match rs with
  | [] => ([], st)
  | r :: rest =>
      let '(ev, st1) := tick cfg st r in
      let '(evs, st2) := run_ticks cfg st1 rest in
      (ev :: evs, st2)
  end.

(** The delta the detector measures for a reading delivered in memory [m]. *)
Definition reading_delta (m : Mem) (r : Reading) (level : Q) : Q :=
  let m1 := mem_append m (rd_total r) (or_zero (rd_l1 r)) (or_zero (rd_l2 r)) in
  raw_current m1 (_smooth (recent_loads m1)) - level.

(** The memory a stable reading leaves behind. *)
Definition drift (m : Mem) (r : Reading) (level : Q) : Mem :=
  let m1 := mem_append m (rd_total r) (or_zero (rd_l1 r)) (or_zero (rd_l2 r)) in
  set_stable_level m1
    (Some (level * (95 # 100) + _smooth (recent_loads m1) * (5 # 100))).

(** Every reading of [rs], delivered in turn from memory [m], stays below the
    edge threshold against the baseline of its moment. *)
Fixpoint deltas_below (cfg : Config) (m : Mem) (rs : list Reading) : Prop :=
  match rs with
  | [] => True
  | r :: rest =>
      match stable_level m with
      | None => False
      | Some level =>
          Qabs (reading_delta m r level) < EDGE_THRESHOLD cfg /\
          deltas_below cfg (drift m r level) rest
      end
  end.

(** [0.95 ^ n]. *)
Fixpoint drift_factor (n : nat) : Q :=
  match n with
  | O => 1
  | S k => (95 # 100) * drift_factor k
  end.

(** ** get_recent_events and get_daily_stats *)

Record RecentEvent := mkRecentEvent {
  re_id : Z;
  re_timestamp : Z;
  re_event_type : EventType;
  re_power_delta : Q;
  re_leg : Leg;
  re_duration : option Z;
  re_signature_id : Z;
  re_confidence : Q;
  re_label : string;
  re_icon : string;
  re_color : string
}.

(** ORDER BY timestamp DESC, rows of equal timestamp staying in rowid order. *)
Fixpoint insert_by_ts_desc (e : Event) (l : list Event) : list Event :=
  match l with
  | [] => [e]
  | x :: r =>
      if (e_timestamp x <=? e_timestamp e)%Z then e :: l
      else x :: insert_by_ts_desc e r
  end.

Fixpoint order_by_ts_desc (l : list Event) : list Event :=
  match l with
  | [] => []
  | e :: r => insert_by_ts_desc e (order_by_ts_desc r)
  end.

(** [v or default] on a text column of a LEFT JOIN: NULL and the empty
    string are both falsy. *)
Definition or_text (v : option string) (default : string) : string :=
  match v with
  | Some EmptyString => default
  | Some s => s
  | None => default
  end.

Definition recent_event (db : Store) (e : Event) : RecentEvent :=
  let s := get_signature db (e_signature_id e) in
  mkRecentEvent (e_id e) (e_timestamp e) (e_event_type e) (e_power_delta e)
                (e_leg e) (e_duration e) (e_signature_id e) (e_confidence e)
                (or_text (option_map user_label s) "Unknown")
                (or_text (option_map icon s) "🔌")
                (or_text (option_map color s) "#6b7280").

Definition get_recent_events (clk : Clock) (db : Store) (hours : Z)
    : list RecentEvent :=
  let since := (datetime_now clk - hours * 3600)%Z in
  let rows :=
    firstn 100
      (order_by_ts_desc
         (filter (fun e => (since <=? e_timestamp e)%Z) (load_events db))) in
  map (recent_event db) rows.





(** ** cleanup_old_data *)

(** The two cutoffs are taken from two readings of the clock. *)
Definition cleanup_old_data (clk_samples clk_events : Clock) (db : Store) : Store :=
  let samples_cutoff := (datetime_now clk_samples - 7 * 86400)%Z in
  let events_cutoff := (datetime_now clk_events - 30 * 86400)%Z in
  mkStore
    (filter (fun r => negb (s_timestamp r <? samples_cutoff)%Z) (load_samples db))
    (filter (fun e => negb (e_timestamp e <? events_cutoff)%Z) (load_events db))
    (appliance_signatures db) (appliance_daily_stats db)
    (seq_events db) (seq_signatures db).

(** ** reanalyze_from_influx *)

(** One entry of a series' "values": the time as it parses to a local
    timestamp ([None] when it does not) and the power ([None] for null). *)
Record InfluxValue := mkInfluxValue {
  iv_time : option Z;
  iv_power : option Q
}.

(** A result is the list of its "series", a series the list of its
    "values". *)
Definition InfluxSeries := list InfluxValue.
Definition InfluxResult := list InfluxSeries.

Definition parsed_sample (v : InfluxValue) : list (Z * Q) :=
  match iv_power v with
  | None => []
  | Some power =>
      match iv_time v with
      | None => []
      | Some ts => [(ts, power)]
      end
  end.

Definition all_samples (results : list InfluxResult) : list (Z * Q) :=
  flat_map (fun r => flat_map (fun s => flat_map parsed_sample s) r) results.

(** The dict the two reanalysis functions return. *)
Record Report := mkReport {
  rp_samples : nat;
  rp_events : nat;
  rp_signatures : nat;
  rp_error : option string;
  rp_source : option string;
  rp_date_range : option (Z * Z)
}.

Definition mem_append_total (m : Mem) (load_total : Q) : Mem :=
  mkMem (deque_append (recent_loads m) load_total) (recent_l1 m) (recent_l2 m)
        (stable_level m) (last_event_time m).

(** The replay loop over [(ts, load_total)]: no leg readings. *)
Fixpoint replay_influx (cfg : Config) (clock : nat -> Clock) (i : nat)
    (samples : list (Z * Q)) (db : Store) (m : Mem) (events_found : nat)
    : nat * Store * Mem :=
  match samples with
  | [] => (events_found, db, m)
  | (ts, load_total) :: rest =>
      let m1 := mem_append_total m load_total in
      let smoothed := _smooth (recent_loads m1) in
      let '(event, db1, m2) :=
        detect_edge cfg (clock i) db m1 smoothed None None (Some ts) in
      replay_influx cfg clock (S i) rest db1 m2
        (match event with Some _ => S events_found | None => events_found end)
  end.

(** [sa_query_fn] returns [None] or the list of results. *)
Definition reanalyze_from_influx (cfg : Config) (clock : nat -> Clock)
    (results : option (list InfluxResult)) (db : Store) (m : Mem)
    : Report * Store * Mem :=
  match results with
  | None | Some [] =>
      (mkReport 0 0 0 (Some "No data from Solar Assistant"%string) None None, db, m)
  | Some rs =>
      match all_samples rs with
      | [] => (mkReport 0 0 0 (Some "No valid samples"%string) None None, db, m)
      | first :: others =>
          let samples := first :: others in
          let saved_labels := _save_user_labels db in
          let db1 := clear_detections db in
          let '(events_found, db2, m2) :=
            replay_influx cfg clock 0 samples db1 (initial_mem cfg) 0 in
          let db3 :=
            set_signatures db2 (map (set_active false 0) (appliance_signatures db2)) in
          let sig_count := length (appliance_signatures db3) in
          (mkReport (length samples) events_found sig_count None
                    (Some "Solar Assistant InfluxDB"%string)
                    (Some (fst first, fst (last others first))),
           _restore_user_labels cfg db3 saved_labels, m2)
      end
  end.

(** ** The host's callers (app.py) *)

Definition report_of (s : Summary) : Report :=
  mkReport (sm_samples s) (sm_events s) (sm_signatures s) None None None.

(** [result.get("error")] is truthy. *)
Definition has_error (r : Report) : bool :=
  match rp_error r with
  | None | Some EmptyString => false
  | Some _ => true
  end.

(** POST /api/nilm/reanalyze: the history of Solar Assistant first, the
    local samples when that reports an error. *)
Definition api_nilm_reanalyze (cfg : Config) (clock : nat -> Clock)
    (results : option (list InfluxResult)) (db : Store) (m : Mem)
    : Report * Store * Mem :=
  let '(result, db1, m1) := reanalyze_from_influx cfg clock results db m in
  if has_error result then
    let '(summary, db2, m2) := reanalyze cfg clock db1 m1 in
    (report_of summary, db2, m2)
  else (result, db1, m1).

(** The globals of the MQTT handler's NILM block. *)
Record Host := mkHost {
  last_nilm_sample : Q;
  last_nilm_cleanup : option Z
}.

Definition initial_host : Host := mkHost 0 None.

(** [timedelta.seconds] of the difference of two times: the days are left
    out. *)
Definition timedelta_seconds (later earlier : Z) : Z := ((later - earlier) mod 86400)%Z.

(** The NILM block of [on_message] for a float reading of load_power: at most
    one sample per five seconds, and with a sample the hourly cleanup. *)
Definition on_load_power (cfg : Config) (st : Store * Mem) (h : Host) (r : Reading)
    : option EventDict * (Store * Mem) * Host :=
  let now := datetime_now (rd_clock r) in
  let now_ts := time_time (rd_clock r) in
  if Qle_bool 5 (now_ts - last_nilm_sample h) then
    let '(event, (db1, m1)) := tick cfg st r in
    let due :=
      match last_nilm_cleanup h with
      | None => true
      | Some last => (3600 <=? timedelta_seconds now last)%Z
      end in
    if due
    then (event, (cleanup_old_data (rd_clock r) (rd_clock r) db1, m1),
          mkHost now_ts (Some now))
    else (event, (db1, m1), mkHost now_ts (last_nilm_cleanup h))
  else (None, st, h).

Fixpoint run_messages (cfg : Config) (st : Store * Mem) (h : Host)
    (rs : list Reading) : list (option EventDict) * (Store * Mem) * Host :=
  match rs with
  | [] => ([], st, h)
  | r :: rest =>
      let '(ev, st1, h1) := on_load_power cfg st h r in
      let '(evs, st2, h2) := run_messages cfg st1 h1 rest in
      (ev :: evs, st2, h2)
  end.

(** ** record_energy (app.py): the day's first and last meter readings *)

(** The four cumulative meters of one snapshot: PV, load, grid in, grid out. *)
Record Meters := mkMeters {
  mt_pv : Q;
  mt_load : Q;
  mt_grid_in : Q;
  mt_grid_out : Q
}.

(** A row of daily_energy: the date and the columns [*_first] and [*_last]. *)
Record EnergyRow := mkEnergyRow {
  en_date : Z;
  en_first : Meters;
  en_last : Meters
}.

Definition record_energy (rows : list EnergyRow) (date : Z) (totals : Meters)
    : list EnergyRow :=
  match find (fun r => (en_date r =? date)%Z) rows with
  | None => rows ++ [mkEnergyRow date totals totals]
  | Some _ =>
      map (fun r =>
             if (en_date r =? date)%Z
             then mkEnergyRow (en_date r) (en_first r) totals
             else r) rows
  end.

(** * Vocabulary of the statements *)

(** ** Scans that keep the first best row

    [find_matching_signature], [pair_on_off_event] and
    [_restore_user_labels] all run the same loop: keep the row seen so far
    with the smallest key among the admissible ones, replacing it only on a
    strictly smaller key. *)

Section ScanDef.
Context {A : Type}.
Variable ok : A -> bool.
Variable key : A -> Q.

Definition scan_step (best : option A) (a : A) : option A :=
  if ok a && lt_bound (key a) (option_map key best) then Some a else best.

Definition scan (l : list A) : option A := fold_left scan_step l None.

(** What a scan returns: nothing when no row is admissible, otherwise the
    first admissible row of least key. *)
Definition first_best (l : list A) (r : option A) : Prop :=
  match r with
  | None => forall a, In a l -> ok a = false
  | Some a =>
      exists l1 l2,
        l = l1 ++ a :: l2 /\ ok a = true /\
        (forall a', In a' l1 -> ok a' = true -> key a < key a') /\
        (forall a', In a' l2 -> ok a' = true -> key a <= key a')
  end.
End ScanDef.

(** Key and admissibility of a row [(id, power_avg)] in
    [find_matching_signature]. *)
Definition match_diff (power_delta : Q) (row : Z * Q) : Q :=
  Qabs (power_delta - snd row).

Definition within_tolerance (cfg : Config) (power_delta : Q) (row : Z * Q) : bool :=
  Qle_bool (match_diff power_delta row) (snd row * SIGNATURE_TOLERANCE cfg).

(** The [(id, timestamp)] the pairing scan remembers of a candidate. *)
Definition chosen_row (c : Event * Signature) : Z * Z :=
  (e_id (fst c), e_timestamp (fst c)).

(** Power deltas resolved one after the other, as [detect_edge] does. *)
Fixpoint resolve_all (cfg : Config) (db : Store) (deltas : list Q)
    : list Z * Store :=
  match deltas with
  | [] => ([], db)
  | pd :: rest =>
      let '(id, db1) := resolve_signature cfg db pd LegBoth in
      let '(ids, db2) := resolve_all cfg db1 rest in
      (id :: ids, db2)
  end.

(** Timestamp order, on events and on joined rows. *)
Definition ts_le (a b : Event) : Prop := (e_timestamp a <= e_timestamp b)%Z.




(** The signature invariant: [power_min <= power_avg <= power_max],
    [active_count >= 0], and [active_count > 0] only when active. *)
Definition signature_ok (s : Signature) : Prop :=
  power_min s <= power_avg s /\ power_avg s <= power_max s /\
  (0 <= active_count s)%Z /\
  ((0 < active_count s)%Z -> is_active s = true).

(** The columns of a signature that only [create_signature],
    [update_signature], [merge_signatures] and the label updates write. *)
Definition sig_core (s : Signature)
    : Z * Q * Q * Q * Z * string * string * string :=
  (sg_id s, power_avg s, power_min s, power_max s, event_count s,
   user_label s, icon s, color s).

(** [db'] has the signatures of [db] up to the other columns, the same
    signature counter and the same samples. *)
Definition same_core (db db' : Store) : Prop :=
  map sig_core (appliance_signatures db') = map sig_core (appliance_signatures db) /\
  seq_signatures db' = seq_signatures db /\
  load_samples db' = load_samples db.

(** Signature ids are positive, at most the counter, and distinct. *)
Definition ids_ok (db : Store) : Prop :=
  (0 <= seq_signatures db)%Z /\
  Forall (fun id => 0 < id <= seq_signatures db)%Z
         (map sg_id (appliance_signatures db)) /\
  NoDup (map sg_id (appliance_signatures db)).

(** A signature as matching sees it, its id shifted by [k]. *)
Definition view (k : Z) (s : Signature) : Z * Q * Q * Q * Z :=
  ((k + sg_id s)%Z, power_avg s, power_min s, power_max s, event_count s).

(** [db2] has the signatures of [db1] as matching sees them, with ids (and
    the counter) shifted by [ds]. *)
Definition same_up_to_ids (ds : Z) (db1 db2 : Store) : Prop :=
  map (view 0) (appliance_signatures db2) = map (view ds) (appliance_signatures db1) /\
  seq_signatures db2 = (ds + seq_signatures db1)%Z.

(** Id and average of a view; a row [(id, power_avg)] with its id shifted. *)
Definition vid (v : Z * Q * Q * Q * Z) : Z := fst (fst (fst (fst v))).
Definition vavg (v : Z * Q * Q * Q * Z) : Q := snd (fst (fst (fst v))).

Definition shift_row (ds : Z) (row : Z * Q) : Z * Q := ((ds + fst row)%Z, snd row).

(** [update_signature], read on the views. *)
Definition update_views (id : Z) (pd : Q) (vs : list (Z * Q * Q * Q * Z))
    : list (Z * Q * Q * Q * Z) :=
  match find (fun v => (vid v =? id)%Z) vs with
  | None => vs
  | Some (_, avg, mn, mx, cnt) =>
      map (fun w =>
             if (vid w =? id)%Z then
               (vid w,
                py_round ((avg * inject_Z cnt + pd) / inject_Z (cnt + 1)) 1,
                Qmin mn pd, Qmax mx pd, (cnt + 1)%Z)
             else w) vs
  end.

(** [if event:] on what [detect_edge] returned. *)
Definition emitted (ev : option EventDict) : bool :=
  match ev with Some _ => true | None => false end.

(** [reanalyze], with the replay's result named. *)
Definition rebuilt (cfg : Config) (clock : nat -> Clock) (db : Store)
    : nat * Store * Mem :=
  let r := replay cfg clock 0 (samples_in_order (load_samples db))
                  (clear_detections db) (initial_mem cfg) 0 in
  (fst (fst r),
   set_signatures (snd (fst r))
     (map (set_active false 0) (appliance_signatures (snd (fst r)))),
   snd r).

(** The summary [reanalyze] returns. *)
Definition reanalyze_summary (cfg : Config) (clock : nat -> Clock) (db : Store)
    : Summary :=
  match samples_in_order (load_samples db) with
  | [] => mkSummary 0 0 0
  | samples =>
      mkSummary (length samples) (fst (fst (rebuilt cfg clock db)))
                (length (appliance_signatures (snd (fst (rebuilt cfg clock db)))))
  end.

(** What the snapshot stores of a signature, and under which key. *)
Definition customization_of (s : Signature) : Customization :=
  mkCustomization (user_label s) (icon s) (color s).

Definition saved_key (s : Signature) : Z := round_half_even (power_avg s).

(** [saved.get(k)]. *)
Fixpoint dict_get (k : Z) (d : SavedLabels) : option Customization :=
  match d with
  | [] => None
  | (k', v) :: r => if (k' =? k)%Z then Some v else dict_get k r
  end.

(** One round of the loop of [_save_user_labels]. *)
Definition save_step (saved : SavedLabels) (s : Signature) : SavedLabels :=
  dict_set (saved_key s) (customization_of s) saved.

(** The last signature of a rounded power is the one the snapshot keeps. *)
Definition last_of_key (k : Z) (l : list Signature) : option Signature :=
  find (fun s => (saved_key s =? k)%Z) (rev l).

(** Distance of a snapshot entry to a signature of rounded power [key]. *)
Definition entry_diff (key : Z) (entry : Z * Customization) : Q :=
  restore_diff key (fst entry).

(** A snapshot entry that may be restored onto a signature of rounded
    power [key]: within tolerance, and not an auto-generated placeholder. *)
Definition restorable (cfg : Config) (key : Z) (entry : Z * Customization) : bool :=
  Qle_bool (entry_diff key entry) (restore_tolerance cfg key) &&
  negb (is_auto_label (c_label (snd entry))).

(** A signature after [_restore_user_labels]. *)
Definition restore_one (cfg : Config) (saved : SavedLabels) (s : Signature)
    : Signature :=
  match best_saved cfg saved (power_avg s) with
  | Some c => set_display (c_label c) (c_icon c) (c_color c) s
  | None => s
  end.

(** Every signature carries one of the auto-generated placeholders. *)
Definition labels_auto (db : Store) : Prop :=
  Forall (fun l => is_auto_label l = true)
         (map user_label (appliance_signatures db)).

(** The invariant as the engine maintains it.  The signature invariant is
    carried along with three facts that make it inductive: event counts are
    not negative, the recorded minimum and maximum are one-decimal values
    (they are power deltas, which [detect_edge] rounds), and signature ids
    are distinct. *)
Definition one_decimal (x : Q) : Prop := py_round x 1 == x.

Definition power_ok (avg mn mx : Q) (cnt : Z) : Prop :=
  mn <= avg /\ avg <= mx /\ (0 <= cnt)%Z /\ one_decimal mn /\ one_decimal mx.

Definition active_ok (act : bool) (cnt : Z) : Prop :=
  (0 <= cnt)%Z /\ ((0 < cnt)%Z -> act = true).

Definition sig_inv (s : Signature) : Prop :=
  power_ok (power_avg s) (power_min s) (power_max s) (event_count s) /\
  active_ok (is_active s) (active_count s).

Definition store_inv (db : Store) : Prop :=
  ids_ok db /\ Forall sig_inv (appliance_signatures db).

(** The [now] that [detect_edge] compares against the last accepted edge. *)
Definition edge_time (clk : Clock) (override_timestamp : option Z) : Q :=
  match override_timestamp with
  | Some ts => inject_Z ts
  | None => time_time clk
  end.

(** ** Well-formed stores *)

(** Event ids are positive, at most the counter, and distinct. *)
Definition event_ids_ok (db : Store) : Prop :=
  (0 <= seq_events db)%Z /\
  Forall (fun id => 0 < id <= seq_events db)%Z (map e_id (load_events db)) /\
  NoDup (map e_id (load_events db)).

(** Every event points at a stored signature. *)
Definition events_linked (db : Store) : Prop :=
  forall e, In e (load_events db) -> get_signature db (e_signature_id e) <> None.

(** PRIMARY KEY (date, signature_id) of appliance_daily_stats. *)
Definition stat_pk (r : DailyStat) : Z * Z := (d_date r, d_signature_id r).

Definition stats_keyed (db : Store) : Prop :=
  NoDup (map stat_pk (appliance_daily_stats db)).

(** The keys of the schema hold and no event is orphaned. *)
Definition store_wf (db : Store) : Prop :=
  ids_ok db /\ event_ids_ok db /\ events_linked db /\ stats_keyed db.

(** What an "off" edge at [off_timestamp] may do to a stored event: nothing,
    or close an unresolved "on" event with the time that lies between. *)
Definition closed_by (off_timestamp : Z) (e e' : Event) : Prop :=
  e' = e \/
  (unresolved_on e = true /\
   e' = with_duration e (Some (off_timestamp - e_timestamp e)%Z)).

(** The timestamp [detect_edge] gives an event. *)
Definition event_stamp (clk : Clock) (override_timestamp : option Z) : Z :=
  match override_timestamp with
  | Some ts => ts
  | None => datetime_now clk
  end.

(** The duration of an event, when recorded, is not negative. *)
Definition duration_ok (e : Event) : Prop :=
  match e_duration e with
  | Some d => (0 <= d)%Z
  | None => True
  end.

(** The event table as a log: timestamps in rowid order never decrease and
    none is later than [now], no duration is negative, ids are distinct and
    at most the counter. *)
Definition event_log (db : Store) (now : Z) : Prop :=
  StronglySorted Z.le (map e_timestamp (load_events db)) /\
  Forall (fun t => t <= now)%Z (map e_timestamp (load_events db)) /\
  Forall duration_ok (load_events db) /\
  Forall (fun id => id <= seq_events db)%Z (map e_id (load_events db)) /\
  NoDup (map e_id (load_events db)).

Definition sample_ts_le (a b : Sample) : Prop := (s_timestamp a <= s_timestamp b)%Z.

(** The row [detect_edge] appends for the event it returns. *)
Definition event_row (id : Z) (ev : EventDict) : Event :=
  mkEvent id (ed_timestamp ev) (ed_event_type ev) (ed_power_delta ev) (ed_leg ev)
          (ed_duration ev) (ed_signature_id ev) (ed_confidence ev).

(** Event ids distinct and at most the counter. *)
Definition event_ids_bounded (db : Store) : Prop :=
  Forall (fun id => id <= seq_events db)%Z (map e_id (load_events db)) /\
  NoDup (map e_id (load_events db)).

(** What the remote query yielded that can be replayed. *)
Definition usable_samples (results : option (list InfluxResult)) : list (Z * Q) :=
  match results with
  | Some rs => all_samples rs
  | None => []
  end.






(** ** Forgetting the recorded leg *)

Definition event_on_both (e : Event) : Event :=
  mkEvent (e_id e) (e_timestamp e) (e_event_type e) (e_power_delta e) LegBoth
          (e_duration e) (e_signature_id e) (e_confidence e).

Definition signature_on_both (s : Signature) : Signature :=
  mkSignature (sg_id s) (power_avg s) (power_min s) (power_max s) LegBoth
              (event_count s) (user_label s) (icon s) (color s) (is_active s)
              (active_count s) (last_on_time s) (avg_duration s) (daily_cycles s).

Definition row_on_both (c : Event * Signature) : Event * Signature :=
  (event_on_both (fst c), signature_on_both (snd c)).

Definition dict_on_both (ev : EventDict) : EventDict :=
  mkEventDict (ed_event_type ev) (ed_power_delta ev) LegBoth (ed_duration ev)
              (ed_signature_id ev) (ed_confidence ev) (ed_label ev) (ed_timestamp ev).

(** The store with every event and signature recorded on both legs. *)
Definition without_legs (db : Store) : Store :=
  mkStore (load_samples db) (map event_on_both (load_events db))
          (map signature_on_both (appliance_signatures db))
          (appliance_daily_stats db) (seq_events db) (seq_signatures db).

(** Two memories that agree on what the detector reads. *)
Definition mem_agree (m m' : Mem) : Prop :=
  recent_loads m' = recent_loads m /\ stable_level m' = stable_level m /\
  last_event_time m' = last_event_time m.

(** The stored samples as the remote history would deliver them. *)
Definition as_history (samples : list Sample) : list InfluxResult :=
  [[map (fun x => mkInfluxValue (Some (s_timestamp x)) (Some (s_load_total x))) samples]].

(** Snapshots recorded one after the other, and the first and the last of
    them that bear a given date. *)
Definition record_all (snapshots : list (Z * Meters)) (rows : list EnergyRow)
    : list EnergyRow :=
  fold_left (fun rows x => record_energy rows (fst x) (snd x)) snapshots rows.

Definition first_of (date : Z) (snapshots : list (Z * Meters)) : option Meters :=
  option_map snd (find (fun x => (fst x =? date)%Z) snapshots).

Definition last_of (date : Z) (snapshots : list (Z * Meters)) : option Meters :=
  first_of date (rev snapshots).

Definition energy_of (date : Z) (rows : list EnergyRow) : option EnergyRow :=
  find (fun r => (en_date r =? date)%Z) rows.

(** * States used in the examples *)

Definition empty_store : Store := mkStore [] [] [] [] 0 0.

Definition tracking_mem (level : Q) (window : list Q) : Mem :=
  mkMem (mkDeque window 3) (mkDeque [] 3) (mkDeque [] 3) (Some level) 0.

(** One signature of 150 W with one unresolved "on" event at second 1000. *)
Definition fridge : Signature :=
  mkSignature 1 150 150 150 LegBoth 1 "Medium Device" "❄️" "#22c55e"
              true 1 (Some 1000%Z) 0 0.

Definition fridge_on : Event :=
  mkEvent 1 1000 EvOn 150 LegBoth None 1 (88 # 100).

Definition store_fridge_on : Store :=
  mkStore [] [fridge_on] [fridge] [] 1 1.

(** Three retained samples of day 1 (seconds 100000 to 100610): 100 W, a step
    up to 250 W, and the step back to 100 W ten minutes later. *)
Definition store_history : Store :=
  mkStore [mkSample 100000 100 50 50 100;
           mkSample 100010 250 125 125 175;
           mkSample 100610 100 50 50 150]
          [] [] [] 0 0.

(** A wall clock that stands at second 950400, the start of day 11. *)
Definition clock_day11 : nat -> Clock := fun _ => mkClock 950400 950400.



(** Two clusters of one appliance: 100 W seen once, 140 W seen twice. *)
Definition cluster_100 : Signature :=
  mkSignature 1 100 100 100 LegBoth 1 "Medium Device" "❄️" "#22c55e"
              false 0 None 0 0.

Definition cluster_140 : Signature :=
  mkSignature 2 140 140 140 LegBoth 2 "Medium Device" "❄️" "#22c55e"
              false 0 None 600 1.

Definition store_two_clusters : Store :=
  mkStore []
          [mkEvent 1 1000 EvOn 100 LegBoth (Some (-1)%Z) 1 (75 # 100);
           mkEvent 2 2000 EvOn 140 LegBoth (Some 600%Z) 2 (85 # 100);
           mkEvent 3 2600 EvOff 140 LegBoth (Some 600%Z) 2 (85 # 100)]
          [cluster_100; cluster_140]
          [mkDailyStat 5 2 1 600 (233 # 10000)] 3 2.

(** The same, with a cycle booked for the first cluster on the same day 5. *)
Definition store_shared_day : Store :=
  set_daily_stats store_two_clusters
    [mkDailyStat 5 1 1 300 (83 # 10000); mkDailyStat 5 2 1 600 (233 # 10000)].

(** A signature the user renamed "Fridge", in a store with no samples. *)
Definition store_named : Store :=
  mkStore [] []
          [mkSignature 1 150 150 150 LegBoth 4 "Fridge" "❄️" "#22c55e"
                       false 0 None 600 2]
          [] 4 1.

(** Two renamed signatures, 100 W "Fridge" and 110 W "Lamp", and two samples
    with a step of 108 W between them. *)
Definition store_two_named : Store :=
  mkStore [mkSample 100000 200 100 100 200;
           mkSample 100010 308 154 154 254]
          []
          [mkSignature 1 100 100 100 LegBoth 2 "Fridge" "❄️" "#22c55e"
                       false 0 None 0 0;
           mkSignature 2 110 110 110 LegBoth 2 "Lamp" "💡" "#ffffff"
                       false 0 None 0 0]
          [] 4 2.

(** * Properties *)

(** ** Comparisons *)

Lemma Qltb_lt (x y : Q) : Qltb x y = true <-> x < y.
Proof.
  unfold Qltb. rewrite negb_true_iff.
  split; intro H.
  - apply Qnot_le_lt. intro L. apply Qle_bool_iff in L. congruence.
  - destruct (Qle_bool y x) eqn:E; [|reflexivity].
    apply Qle_bool_iff in E. exfalso. apply (Qlt_not_le _ _ H E).
Qed.

Lemma Qltb_ge (x y : Q) : Qltb x y = false <-> y <= x.
Proof.
  unfold Qltb. rewrite negb_false_iff. apply Qle_bool_iff.
Qed.

Lemma Qle_bool_false (x y : Q) : Qle_bool x y = false <-> y < x.
Proof.
  rewrite <- Qltb_lt. unfold Qltb.
  destruct (Qle_bool x y); simpl; split; congruence.
Qed.

(** ** C1: a stable load emits nothing and lets the baseline drift *)

Section StableLoad.
Variable cfg : Config.

Lemma detect_edge_below_threshold clk db m s l1 l2 ots level :
  stable_level m = Some level ->
  Qabs (raw_current m s - level) < EDGE_THRESHOLD cfg ->
  detect_edge cfg clk db m s l1 l2 ots =
    (None, db, set_stable_level m (Some (level * (95 # 100) + s * (5 # 100)))).
Proof.
  intros Hl Hd. unfold detect_edge. rewrite Hl.
  apply Qltb_lt in Hd. rewrite Hd. reflexivity.
Qed.

Lemma tick_below_threshold db m r level :
  stable_level m = Some level ->
  Qabs (reading_delta m r level) < EDGE_THRESHOLD cfg ->
  exists db',
    tick cfg (db, m) r = (None, (db', drift m r level)) /\
    load_events db' = load_events db /\
    appliance_signatures db' = appliance_signatures db /\
    appliance_daily_stats db' = appliance_daily_stats db.
Proof.
  intros Hl Hd. unfold tick, store_load_sample. cbn [fst snd].
  erewrite detect_edge_below_threshold; [| exact Hl | exact Hd].
  eexists. split; [reflexivity|]. cbn. auto.
Qed.

Lemma run_ticks_below_threshold rs : forall db m,
  deltas_below cfg m rs ->
  exists db' m',
    run_ticks cfg (db, m) rs = (repeat None (length rs), (db', m')) /\
    load_events db' = load_events db /\
    appliance_signatures db' = appliance_signatures db /\
    appliance_daily_stats db' = appliance_daily_stats db.
Proof.
  induction rs as [|r rest IH]; intros db m H.
  - exists db, m. cbn. auto.
  - cbn [deltas_below] in H.
    destruct (stable_level m) as [level|] eqn:Hl; [|contradiction].
    destruct H as [Hd Hrest].
    destruct (tick_below_threshold db m r level Hl Hd) as (db1 & Ht & He & Hs & Hst).
    destruct (IH db1 _ Hrest) as (db2 & m2 & Hr & He2 & Hs2 & Hst2).
    exists db2, m2. cbn [run_ticks length repeat]. rewrite Ht, Hr.
    repeat split; congruence.
Qed.
End StableLoad.

(** *** A sustained reading *)

Lemma Forall_skipn_eq (r : Q) (n : nat) (l : list Q) :
  Forall (eq r) l -> Forall (eq r) (skipn n l).
Proof.
  intro H. rewrite <- (firstn_skipn n l) in H.
  apply Forall_app in H. tauto.
Qed.

Lemma deque_append_same (r : Q) (d : Deque) :
  Forall (eq r) (items d) -> Forall (eq r) (items (deque_append d r)).
Proof.
  intro H. unfold deque_append. cbn [items].
  apply Forall_skipn_eq. apply Forall_app. split; [exact H | repeat constructor].
Qed.

Lemma deque_append_nonempty (d : Deque) (x : Q) :
  (1 <= maxlen d)%nat -> items (deque_append d x) <> [].
Proof.
  intros H E. apply (f_equal (@length Q)) in E.
  unfold deque_append in E. cbn [items] in E.
  rewrite length_skipn, length_app in E. cbn in E. lia.
Qed.

Lemma sum_same (r : Q) (l : list Q) : forall a,
  Forall (eq r) l ->
  fold_left Qplus l a == a + inject_Z (Z.of_nat (length l)) * r.
Proof.
  induction l as [|x l IH]; intros a H.
  - cbn. ring.
  - inversion H; subst. cbn [fold_left length]. rewrite (IH (a + x) H3).
    rewrite Nat2Z.inj_succ. unfold Z.succ. rewrite inject_Z_plus. ring.
Qed.

Lemma smooth_same (r : Q) (d : Deque) :
  items d <> [] -> Forall (eq r) (items d) -> _smooth d == r.
Proof.
  intros Hne H. unfold _smooth.
  destruct (items d) as [|x l] eqn:E; [congruence|].
  rewrite (sum_same r (x :: l) 0 H).
  assert (Hpos : 0 < inject_Z (Z.of_nat (length (x :: l)))).
  { change 0 with (inject_Z 0). rewrite <- Zlt_Qlt. cbn [length]. lia. }
  field. intro Hz. rewrite Hz in Hpos. apply (Qlt_irrefl 0 Hpos).
Qed.

Lemma last_same (r : Q) (l : list Q) (d : Q) :
  l <> [] -> Forall (eq r) l -> last l d = r.
Proof.
  induction l as [|x l IH]; intros Hne H; [congruence|].
  inversion H; subst. destruct l as [|y l]; [reflexivity|].
  change (last (y :: l) d = x). apply IH; [discriminate | assumption].
Qed.

Lemma drift_factor_pos (n : nat) : 0 < drift_factor n.
Proof.
  induction n as [|n IH]; cbn [drift_factor]; [reflexivity|].
  apply Qmult_lt_0_compat; [reflexivity | exact IH].
Qed.

Lemma drift_factor_le_1 (n : nat) : drift_factor n <= 1.
Proof.
  induction n as [|n IH]; cbn [drift_factor]; [apply Qle_refl|].
  pose proof (drift_factor_pos n). lra.
Qed.

(** Bernoulli's bound, multiplied out: [0.95^n * (1 + n/20) <= 1]. *)
Lemma drift_factor_bound (n : nat) :
  drift_factor n * (1 + inject_Z (Z.of_nat n) / 20) <= 1.
Proof.
  induction n as [|n IH].
  - cbn [drift_factor Z.of_nat]. change (inject_Z 0) with 0. unfold Qdiv. lra.
  - cbn [drift_factor]. rewrite Nat2Z.inj_succ. unfold Z.succ.
    rewrite inject_Z_plus.
    pose proof (drift_factor_pos n) as Hp.
    assert (Hn : 0 <= inject_Z (Z.of_nat n)).
    { change 0 with (inject_Z 0). rewrite <- Zle_Qle. lia. }
    set (f := drift_factor n) in *. set (k := inject_Z (Z.of_nat n)) in *.
    change (inject_Z 1) with 1.
    assert (Hstep : (95 # 100) * f * (1 + (k + 1) / 20)
                    <= f * (1 + k / 20)).
    { assert (E : f * (1 + k / 20) - (95 # 100) * f * (1 + (k + 1) / 20)
                  == f * ((1 # 400) + k * (1 # 400))) by field.
      assert (0 <= f * ((1 # 400) + k * (1 # 400))).
      { apply Qmult_le_0_compat; lra. }
      lra. }
    unfold Qdiv in *. lra.
Qed.

Lemma drift_factor_vanishes (d eps : Q) :
  0 < eps ->
  exists N : nat, forall n, (N <= n)%nat -> Qabs (drift_factor n * d) < eps.
Proof.
  intro Heps.
  set (K := Qceiling (20 * Qabs d / eps)).
  exists (S (Z.to_nat K)). intros n Hn.
  rewrite Qabs_Qmult, (Qabs_pos (drift_factor n)) by (apply Qlt_le_weak, drift_factor_pos).
  pose proof (drift_factor_pos n) as Hp.
  pose proof (drift_factor_bound n) as Hb.
  pose proof (Qabs_nonneg d) as Hd.
  assert (HK : 20 * Qabs d <= inject_Z K * eps).
  { pose proof (Qle_ceiling (20 * Qabs d / eps)) as Hc. fold K in Hc.
    assert (E : 20 * Qabs d == (20 * Qabs d / eps) * eps).
    { field. intro Hz. rewrite Hz in Heps. apply (Qlt_irrefl 0 Heps). }
    rewrite E. apply Qmult_le_compat_r; [exact Hc | lra]. }
  assert (Hn' : inject_Z K + 1 <= inject_Z (Z.of_nat n)).
  { change 1 with (inject_Z 1). rewrite <- inject_Z_plus, <- Zle_Qle. lia. }
  set (f := drift_factor n) in *. set (k := inject_Z (Z.of_nat n)) in *.
  set (D := Qabs d) in *.
  assert (H1 : 20 * D < k * eps).
  { assert ((inject_Z K + 1) * eps <= k * eps)
      by (apply Qmult_le_compat_r; lra).
    lra. }
  assert (H2 : f * D * 20 <= f * (k * eps)).
  { assert (f * (20 * D) <= f * (k * eps)).
    { rewrite !(Qmult_comm f). apply Qmult_le_compat_r; lra. }
    lra. }
  assert (H3 : f * (k * eps) < eps * 20).
  { assert (E : f * (k * eps) == (f * (1 + k / 20) - f) * (20 * eps)) by field.
    assert (L : (f * (1 + k / 20) - f) * (20 * eps) <= (1 - f) * (20 * eps)).
    { apply Qmult_le_compat_r; lra. }
    assert (0 < f * (20 * eps)) by (apply Qmult_lt_0_compat; lra).
    lra. }
  unfold Qdiv in *. lra.
Qed.

Section Sustained.
Variable cfg : Config.
Variable r : Q.

Lemma run_ticks_sustained (rs : list Reading) : forall db m b0,
  stable_level m = Some b0 ->
  (1 <= maxlen (recent_loads m))%nat ->
  Forall (eq r) (items (recent_loads m)) ->
  Forall (fun x => rd_total x = r) rs ->
  Qabs (r - b0) < EDGE_THRESHOLD cfg ->
  exists db' m' b,
    run_ticks cfg (db, m) rs = (repeat None (length rs), (db', m')) /\
    stable_level m' = Some b /\
    b - r == drift_factor (length rs) * (b0 - r).
Proof.
  induction rs as [|x rest IH]; intros db m b0 Hl Hmax Hall Hrs Hd.
  - exists db, m, b0. cbn. repeat split; auto. ring.
  - inversion Hrs as [|? ? Hx Hrest]; subst.
    set (m1 := mem_append m (rd_total x) (or_zero (rd_l1 x)) (or_zero (rd_l2 x))).
    assert (Hall1 : Forall (eq (rd_total x)) (items (recent_loads m1)))
      by (apply deque_append_same; exact Hall).
    assert (Hne1 : items (recent_loads m1) <> [])
      by (apply deque_append_nonempty; exact Hmax).
    assert (Hraw : reading_delta m x b0 = rd_total x - b0).
    { unfold reading_delta, raw_current. fold m1.
      rewrite (last_same (rd_total x)); auto. }
    assert (Hsm : _smooth (recent_loads m1) == rd_total x)
      by (apply smooth_same; assumption).
    assert (Hq : Qabs (reading_delta m x b0) < EDGE_THRESHOLD cfg)
      by (rewrite Hraw; exact Hd).
    destruct (tick_below_threshold cfg db m x b0 Hl Hq) as (db1 & Ht & _).
    set (b1 := b0 * (95 # 100) + _smooth (recent_loads m1) * (5 # 100)).
    assert (Hb1 : b1 - rd_total x == (95 # 100) * (b0 - rd_total x)).
    { unfold b1. rewrite Hsm. ring. }
    assert (Hd1 : Qabs (rd_total x - b1) < EDGE_THRESHOLD cfg).
    { apply Qabs_Qlt_condition in Hd. apply Qabs_Qlt_condition.
      destruct Hd. split; lra. }
    destruct (IH db1 (drift m x b0) b1) as (db2 & m2 & b & Hr & Hl2 & Hb);
      try assumption; try reflexivity.
    exists db2, m2, b. cbn [run_ticks length repeat drift_factor].
    rewrite Ht, Hr. repeat split; auto.
    rewrite Hb, Hb1. ring.
Qed.
End Sustained.

(** C1.  In the Tracking state a reading whose raw delta is strictly below
    the edge threshold produces no event and moves the baseline to exactly
    [baseline*0.95 + smoothed*0.05].  Hence a whole sequence of readings whose
    deltas stay below the threshold emits no event and leaves the detections
    untouched; and under a sustained reading [r] the distance of the baseline
    to [r] shrinks by the factor 0.95 per reading, so it falls below every
    positive bound. *)
Theorem detect_edge_stable_load (cfg : Config) :
  (forall clk db m s l1 l2 ots level,
      stable_level m = Some level ->
      Qabs (raw_current m s - level) < EDGE_THRESHOLD cfg ->
      detect_edge cfg clk db m s l1 l2 ots =
        (None, db, set_stable_level m (Some (level * (95 # 100) + s * (5 # 100)))))
  /\
  (forall rs db m,
      deltas_below cfg m rs ->
      exists db' m',
        run_ticks cfg (db, m) rs = (repeat None (length rs), (db', m')) /\
        load_events db' = load_events db /\
        appliance_signatures db' = appliance_signatures db /\
        appliance_daily_stats db' = appliance_daily_stats db)
  /\
  (forall r rs db m b0,
      stable_level m = Some b0 ->
      (1 <= maxlen (recent_loads m))%nat ->
      Forall (eq r) (items (recent_loads m)) ->
      Forall (fun x => rd_total x = r) rs ->
      Qabs (r - b0) < EDGE_THRESHOLD cfg ->
      exists db' m' b,
        run_ticks cfg (db, m) rs = (repeat None (length rs), (db', m')) /\
        stable_level m' = Some b /\
        b - r == drift_factor (length rs) * (b0 - r))
  /\
  (forall r b0 eps,
      0 < eps ->
      exists N : nat, forall n, (N <= n)%nat ->
        Qabs (drift_factor n * (b0 - r)) < eps).
Proof.
  split; [|split; [|split]].
  - intros. now apply detect_edge_below_threshold.
  - intros. now apply run_ticks_below_threshold.
  - intros. now apply run_ticks_sustained.
  - intros. now apply drift_factor_vanishes.
Qed.

(** A baseline of 100 W and a reading of 110 W: no event, baseline 100.5. *)
Lemma detect_edge_stable_load_witness :
  detect_edge default_config (mkClock 0 0) empty_store
              (tracking_mem 100 [110]) 110 None None None =
    (None, empty_store,
     set_stable_level (tracking_mem 100 [110])
                      (Some (100 * (95 # 100) + 110 * (5 # 100)))).
Proof.
  apply (proj1 (detect_edge_stable_load default_config)).
  - reflexivity.
  - reflexivity.
Defined.

(** ** Scans *)

Section Scan.
Context {A : Type}.
Variable ok : A -> bool.
Variable key : A -> Q.

Lemma scan_first_best (l : list A) : first_best ok key l (scan ok key l).
Proof.
  unfold scan. induction l as [|x l IH] using rev_ind.
  - cbn. intros a [].
  - rewrite fold_left_app. cbn [fold_left].
    destruct (fold_left (scan_step ok key) l None) as [a|] eqn:E; unfold scan_step;
      cbn [option_map lt_bound first_best] in *.
    + destruct IH as (l1 & l2 & Hl & Hok & Hb & Ha).
      destruct (ok x) eqn:Hx; cbn [andb].
      * destruct (Qltb (key x) (key a)) eqn:Hlt.
        -- apply Qltb_lt in Hlt.
           exists l, []. repeat split; auto.
           ++ intros a' Hin Hok'. subst l.
              apply in_app_or in Hin. destruct Hin as [Hin|[<-|Hin]].
              ** eapply Qlt_trans; [exact Hlt | now apply Hb].
              ** exact Hlt.
              ** eapply Qlt_le_trans; [exact Hlt | now apply Ha].
           ++ intros a' [].
        -- apply Qltb_ge in Hlt.
           exists l1, (l2 ++ [x]). subst l. rewrite <- app_assoc. cbn.
           repeat split; auto.
           intros a' Hin Hok'. apply in_app_or in Hin.
           destruct Hin as [Hin|[<-|[]]]; [now apply Ha | exact Hlt].
      * exists l1, (l2 ++ [x]). subst l. rewrite <- app_assoc. cbn.
        repeat split; auto.
        intros a' Hin Hok'. apply in_app_or in Hin.
        destruct Hin as [Hin|[<-|[]]]; [now apply Ha | congruence].
    + destruct (ok x) eqn:Hx; cbn [andb first_best].
      * exists l, []. repeat split; auto.
        -- intros a' Hin Hok'. rewrite IH in Hok' by assumption. discriminate.
        -- intros a' [].
      * intros a Hin. apply in_app_or in Hin.
        destruct Hin as [Hin|[<-|[]]]; auto.
Qed.

(** The least-key reading of [first_best]. *)
Lemma first_best_least (l : list A) (a : A) :
  first_best ok key l (Some a) ->
  In a l /\ ok a = true /\ forall a', In a' l -> ok a' = true -> key a <= key a'.
Proof.
  intros (l1 & l2 & -> & Hok & Hb & Ha). repeat split; auto.
  - apply in_or_app. right. now left.
  - intros a' Hin Hok'. apply in_app_or in Hin.
    destruct Hin as [Hin|[<-|Hin]].
    + apply Qlt_le_weak. now apply Hb.
    + apply Qle_refl.
    + now apply Ha.
Qed.
End Scan.

(** ** Rounding *)

Lemma pow10_pos (n : nat) : 0 < pow10 n.
Proof.
  unfold pow10. change 0 with (inject_Z 0). rewrite <- Zlt_Qlt.
  apply Z.pow_pos_nonneg; lia.
Qed.

Lemma round_half_even_close (x : Q) :
  Qabs (inject_Z (round_half_even x) - x) <= 1 # 2.
Proof.
  unfold round_half_even.
  pose proof (Qfloor_le x) as Hlo. pose proof (Qlt_floor x) as Hhi.
  rewrite inject_Z_plus in Hhi. change (inject_Z 1) with 1 in Hhi.
  set (f := Qfloor x) in *.
  destruct (Qcompare (x - inject_Z f) (1 # 2)) eqn:C.
  - apply Qeq_alt in C.
    destruct (Z.even f); [|rewrite inject_Z_plus; change (inject_Z 1) with 1];
      apply Qabs_Qle_condition; split; lra.
  - apply Qlt_alt in C. apply Qabs_Qle_condition; split; lra.
  - apply Qgt_alt in C. rewrite inject_Z_plus. change (inject_Z 1) with 1.
    apply Qabs_Qle_condition; split; lra.
Qed.

(** [round(x, n)] is within half a unit of the [n]-th decimal of [x]. *)
Lemma py_round_close (x : Q) (n : nat) :
  Qabs (py_round x n - x) <= (1 # 2) / pow10 n.
Proof.
  unfold py_round. pose proof (pow10_pos n) as Hp.
  pose proof (round_half_even_close (x * pow10 n)) as H.
  set (z := inject_Z (round_half_even (x * pow10 n))) in *.
  set (p := pow10 n) in *.
  assert (Hnz : ~ p == 0) by (intro E; rewrite E in Hp; apply (Qlt_irrefl 0 Hp)).
  assert (E : z / p - x == (z - x * p) / p) by (field; exact Hnz).
  rewrite E. unfold Qdiv. rewrite Qabs_Qmult.
  rewrite (Qabs_pos (/ p)) by (apply Qlt_le_weak, Qinv_lt_0_compat; exact Hp).
  apply Qmult_le_compat_r; [exact H|].
  apply Qlt_le_weak, Qinv_lt_0_compat; exact Hp.
Qed.

(** ** C2: signature matching and the running average *)

Section Matching.
Variable cfg : Config.
Variable power_delta : Q.

Let ok := within_tolerance cfg power_delta.
Let diff := match_diff power_delta.

Lemma fms_step_scan (best : option (Z * Q)) (row : Z * Q) :
  fms_step cfg power_delta (option_map fst best, option_map diff best) row =
  (option_map fst (scan_step ok diff best row),
   option_map diff (scan_step ok diff best row)).
Proof.
  unfold fms_step, scan_step, ok, diff, within_tolerance, match_diff.
  destruct row as [id avg]. cbn [fst snd].
  destruct (Qle_bool _ _ && lt_bound _ _); reflexivity.
Qed.

Lemma fms_fold_scan (rows : list (Z * Q)) : forall best,
  fold_left (fms_step cfg power_delta) rows
            (option_map fst best, option_map diff best) =
  (option_map fst (fold_left (scan_step ok diff) rows best),
   option_map diff (fold_left (scan_step ok diff) rows best)).
Proof.
  induction rows as [|row rows IH]; intro best; [reflexivity|].
  cbn [fold_left]. rewrite fms_step_scan. apply IH.
Qed.

Lemma find_matching_signature_scan (db : Store) (leg : Leg) :
  find_matching_signature cfg db power_delta leg =
  option_map fst (scan ok diff (signature_rows db)).
Proof.
  unfold find_matching_signature, scan.
  exact (f_equal fst (fms_fold_scan (signature_rows db) None)).
Qed.

Lemma find_matching_signature_nearest (db : Store) (leg : Leg) :
  match find_matching_signature cfg db power_delta leg with
  | Some id =>
      exists avg,
        In (id, avg) (signature_rows db) /\
        Qabs (power_delta - avg) <= avg * SIGNATURE_TOLERANCE cfg /\
        forall id' avg',
          In (id', avg') (signature_rows db) ->
          Qabs (power_delta - avg') <= avg' * SIGNATURE_TOLERANCE cfg ->
          Qabs (power_delta - avg) <= Qabs (power_delta - avg')
  | None =>
      forall id' avg',
        In (id', avg') (signature_rows db) ->
        ~ Qabs (power_delta - avg') <= avg' * SIGNATURE_TOLERANCE cfg
  end.
Proof.
  rewrite find_matching_signature_scan.
  pose proof (scan_first_best ok diff (signature_rows db)) as H.
  destruct (scan ok diff (signature_rows db)) as [[id avg]|];
    cbn [option_map fst].
  - apply first_best_least in H. destruct H as (Hin & Hok & Hmin).
    exists avg. repeat split; auto.
    + apply Qle_bool_iff in Hok. exact Hok.
    + intros id' avg' Hin' Hq. apply (Hmin (id', avg') Hin').
      apply Qle_bool_iff. exact Hq.
  - intros id' avg' Hin' Hq. cbn in H. specialize (H _ Hin').
    apply Qle_bool_iff in Hq. unfold ok, diff, within_tolerance, match_diff in H.
    cbn [snd] in H. congruence.
Qed.
End Matching.

Lemma find_update_sig_rows (id : Z) (f : Signature -> Signature)
    (sigs : list Signature) :
  (forall s, sg_id (f s) = sg_id s) ->
  find (fun s => (sg_id s =? id)%Z) (update_sig_rows id f sigs) =
  option_map f (find (fun s => (sg_id s =? id)%Z) sigs).
Proof.
  intro Hid. induction sigs as [|s sigs IH]; [reflexivity|].
  cbn [update_sig_rows map find].
  destruct (sg_id s =? id)%Z eqn:E.
  - rewrite Hid, E. reflexivity.
  - rewrite E. exact IH.
Qed.

Lemma update_signature_row (db : Store) (id : Z) (pd : Q) (row : Signature) :
  get_signature db id = Some row ->
  get_signature (update_signature db id pd) id =
    Some (set_power_stats
            (py_round ((power_avg row * inject_Z (event_count row) + pd)
                       / inject_Z (event_count row + 1)) 1)
            (Qmin (power_min row) pd) (Qmax (power_max row) pd)
            (event_count row + 1) row).
Proof.
  intro H. unfold update_signature. rewrite H.
  unfold get_signature, update_sig in *. cbn [appliance_signatures set_signatures].
  rewrite find_update_sig_rows by reflexivity. rewrite H. reflexivity.
Qed.

(** C2, as stated, fails: after 148, 152 and 151 W the one signature's
    average is 150.3, which is not the mean 451/3 of the three. *)
Lemma running_average_not_exact_mean :
  fst (resolve_all default_config empty_store [148; 152; 151]) = [1; 1; 1]%Z /\
  exists s,
    appliance_signatures
      (snd (resolve_all default_config empty_store [148; 152; 151])) = [s] /\
    power_avg s == 1503 # 10 /\
    ~ power_avg s == (148 + 152 + 151) / 3.
Proof.
  split; [reflexivity|].
  eexists. split; [reflexivity|]. split; [reflexivity|].
  intro H. vm_compute in H. discriminate.
Qed.

(** C2 (amended).  [find_matching_signature] returns a signature of least
    [|power_delta - power_avg|] among those within [power_avg * tolerance],
    and none when no signature is within tolerance.  [update_signature] sets
    the average to [(old_avg*count + power_delta)/(count+1)] rounded to one
    decimal (so within 0.05 of that value), extends min and max and
    increments the count.  Fed 148, 152 and 151 W, an empty table ends with
    one signature that took all three, with average 150.3, range 148..152
    and count 3. *)
Theorem signature_matching_rounded (cfg : Config) :
  (forall db power_delta leg,
      match find_matching_signature cfg db power_delta leg with
      | Some id =>
          exists avg,
            In (id, avg) (signature_rows db) /\
            Qabs (power_delta - avg) <= avg * SIGNATURE_TOLERANCE cfg /\
            forall id' avg',
              In (id', avg') (signature_rows db) ->
              Qabs (power_delta - avg') <= avg' * SIGNATURE_TOLERANCE cfg ->
              Qabs (power_delta - avg) <= Qabs (power_delta - avg')
      | None =>
          forall id' avg',
            In (id', avg') (signature_rows db) ->
            ~ Qabs (power_delta - avg') <= avg' * SIGNATURE_TOLERANCE cfg
      end)
  /\
  (forall db id power_delta row,
      get_signature db id = Some row ->
      let exact :=
        (power_avg row * inject_Z (event_count row) + power_delta)
        / inject_Z (event_count row + 1) in
      get_signature (update_signature db id power_delta) id =
        Some (set_power_stats (py_round exact 1)
                (Qmin (power_min row) power_delta)
                (Qmax (power_max row) power_delta)
                (event_count row + 1) row) /\
      Qabs (py_round exact 1 - exact) <= 1 # 20)
  /\
  (fst (resolve_all default_config empty_store [148; 152; 151]) = [1; 1; 1]%Z /\
   exists s,
     appliance_signatures
       (snd (resolve_all default_config empty_store [148; 152; 151])) = [s] /\
     power_avg s == 1503 # 10 /\
     power_min s == 148 /\ power_max s == 152 /\ event_count s = 3%Z).
Proof.
  split; [|split].
  - intros. apply find_matching_signature_nearest.
  - intros db id pd row H exact. split.
    + now apply update_signature_row.
    + apply (py_round_close exact 1).
  - split; [reflexivity|].
    eexists. repeat split; reflexivity.
Qed.

Lemma signature_matching_rounded_witness :
  Qabs (match_diff 152 (1%Z, 148)) <= 148 * SIGNATURE_TOLERANCE default_config /\
  find_matching_signature default_config
    (snd (resolve_all default_config empty_store [148])) 152 LegBoth = Some 1%Z.
Proof.
  split; [vm_compute; discriminate|].
  pose proof (proj1 (signature_matching_rounded default_config)
                (snd (resolve_all default_config empty_store [148])) 152 LegBoth) as H.
  destruct (find_matching_signature default_config
              (snd (resolve_all default_config empty_store [148])) 152 LegBoth)
    as [id|] eqn:E.
  - destruct H as (avg & Hin & _). vm_compute in Hin.
    destruct Hin as [Hin|[]]. congruence.
  - exfalso. apply (H 1%Z 148); [now left | vm_compute; discriminate].
Defined.

(** ** C3: pairing an "off" event with an earlier "on" event *)

Lemma In_insert_by_ts (e x : Event) (l : list Event) :
  In x (insert_by_ts e l) <-> x = e \/ In x l.
Proof.
  induction l as [|y l IH]; cbn [insert_by_ts].
  - cbn. intuition.
  - destruct (e_timestamp e <=? e_timestamp y)%Z; cbn [In]; [intuition|].
    rewrite IH. intuition.
Qed.

Lemma In_order_by_ts (x : Event) (l : list Event) :
  In x (order_by_ts l) <-> In x l.
Proof.
  induction l as [|y l IH]; cbn [order_by_ts]; [reflexivity|].
  rewrite In_insert_by_ts, IH. cbn. intuition.
Qed.



Lemma In_join_signature (db : Store) (l : list Event) (e : Event) (s : Signature) :
  In (e, s) (join_signature db l) <->
  In e l /\ get_signature db (e_signature_id e) = Some s.
Proof.
  unfold join_signature. rewrite in_flat_map. split.
  - intros (x & Hx & Hin).
    destruct (get_signature db (e_signature_id x)) eqn:E; [|contradiction].
    destruct Hin as [Hin|[]]. inversion Hin; subst. auto.
  - intros [Hin Hs]. exists e. split; [exact Hin|]. rewrite Hs. now left.
Qed.



Section Pairing.
Variable off_power : Q.

End Pairing.

Lemma unresolved_on_iff (e : Event) :
  unresolved_on e = true <-> e_event_type e = EvOn /\ e_duration e = None.
Proof.
  unfold unresolved_on.
  destruct (e_event_type e), (e_duration e); cbn; intuition congruence.
Qed.

Section PairingSpec.
Variable cfg : Config.
Variable db : Store.
Variable signature_id off_timestamp : Z.
Variable off_power : Q.
Hypothesis off_power_pos : 0 < off_power.
Hypothesis signatures_present :
  forall e, In e (load_events db) -> get_signature db (e_signature_id e) <> None.
Hypothesis not_later :
  forall e, In e (load_events db) -> (e_timestamp e <= off_timestamp)%Z.

Let cutoff : Z := (off_timestamp - MAX_PAIRING_HOURS cfg * 3600)%Z.




End PairingSpec.

(** *** The off event carries the duration the pairing returned *)

Lemma decrement_similar_events cfg pd rows : forall db,
  load_events (decrement_similar cfg pd rows db) = load_events db.
Proof.
  induction rows as [|o rows IH]; intro db; cbn [decrement_similar]; [reflexivity|].
  destruct (Qle_bool _ _); [|apply IH].
  destruct (_ <=? 0)%Z; reflexivity.
Qed.

Lemma active_state_events cfg db sid ty ts pd :
  load_events (_update_signature_active_state cfg db sid ty ts pd) = load_events db.
Proof.
  unfold _update_signature_active_state. destruct ty; [reflexivity|].
  destruct (find _ _) as [s|].
  - destruct (0 <? active_count s)%Z.
    + destruct (_ <=? 0)%Z; reflexivity.
    + destruct (Qltb 0 pd); [apply decrement_similar_events | reflexivity].
  - destruct (Qltb 0 pd); [apply decrement_similar_events | reflexivity].
Qed.

Lemma daily_cycles_events db sid :
  load_events (_update_daily_cycles db sid) = load_events db.
Proof.
  unfold _update_daily_cycles. destruct (avg_cycles _) as [a|]; [|reflexivity].
  destruct (Qeq_bool a 0); reflexivity.
Qed.

Lemma daily_stats_events clk db sid pd d :
  load_events (_update_daily_stats clk db sid pd d) = load_events db.
Proof.
  unfold _update_daily_stats. now rewrite daily_cycles_events.
Qed.




(** ** C4: the daily statistics are keyed by the wall clock *)

Lemma daily_cycles_stats db sid :
  appliance_daily_stats (_update_daily_cycles db sid) = appliance_daily_stats db.
Proof.
  unfold _update_daily_cycles. destruct (avg_cycles _) as [a|]; [|reflexivity].
  destruct (Qeq_bool a 0); reflexivity.
Qed.

Lemma daily_stats_row_of_today clk db sid pd d :
  exists r,
    In r (appliance_daily_stats (_update_daily_stats clk db sid pd d)) /\
    d_date r = date_of (datetime_now clk) /\ d_signature_id r = sid.
Proof.
  unfold _update_daily_stats. rewrite daily_cycles_stats.
  cbn [appliance_daily_stats set_daily_stats].
  destruct (existsb _ _) eqn:E.
  - apply existsb_exists in E. destruct E as (r & Hin & Hk).
    exists (mkDailyStat (d_date r) (d_signature_id r) (d_cycles r + 1)
                        (d_total_duration r + d)
                        (d_energy_kwh r + energy_kwh pd d)).
    unfold stat_key in Hk. apply andb_true_iff in Hk. destruct Hk as [H1 H2].
    apply Z.eqb_eq in H1, H2. split; [|split; assumption].
    apply in_map_iff. exists r. split; [|exact Hin].
    unfold stat_key. rewrite H1, H2, !Z.eqb_refl. cbn [andb]. now rewrite <- H1, <- H2.
  - eexists. split; [apply in_or_app; right; now left|]. split; reflexivity.
Qed.

(** C4 (the code departs from it).  [_update_daily_stats] never sees the off
    event's timestamp: the row it touches is the one of the wall clock's
    date.  Replaying the three samples of day 1 while the clock stands in
    day 11 pairs the cycle (600 s, both events dated day 1) and books it
    under day 11. *)
Theorem replayed_cycle_dated_by_wall_clock :
  (forall clk db sid pd d,
      exists r,
        In r (appliance_daily_stats (_update_daily_stats clk db sid pd d)) /\
        d_date r = date_of (datetime_now clk) /\ d_signature_id r = sid)
  /\
  let db' :=
    snd (fst (reanalyze default_config clock_day11 store_history
                        (initial_mem default_config))) in
  map (fun e => (e_event_type e, date_of (e_timestamp e), e_duration e))
      (load_events db')
    = [(EvOn, 1%Z, Some 600%Z); (EvOff, 1%Z, Some 600%Z)] /\
  map (fun r => (d_date r, d_signature_id r, d_cycles r, d_total_duration r))
      (appliance_daily_stats db')
    = [(11%Z, 1%Z, 1%Z, 600%Z)].
Proof.
  split; [intros; apply daily_stats_row_of_today|].
  split; vm_compute; reflexivity.
Qed.

(** ** C5: pruning against the live load *)


Lemma with_duration_twice (e : Event) (d d' : option Z) :
  with_duration (with_duration e d) d' = with_duration e d'.
Proof. reflexivity. Qed.


Section Pruning.
Variable cfg : Config.
Variable clk : Clock.
Variable db : Store.
Variables e1 e2 : Event.
Variables s1 s2 : Signature.
Hypothesis two_unresolved : filter unresolved_on (load_events db) = [e1; e2].
Hypothesis oldest_first : (e_timestamp e1 <= e_timestamp e2)%Z.
Hypothesis recent1 : (datetime_now clk - 4 * 3600 < e_timestamp e1)%Z.
Hypothesis recent2 : (datetime_now clk - 4 * 3600 < e_timestamp e2)%Z.
Hypothesis signature1 : get_signature db (e_signature_id e1) = Some s1.
Hypothesis signature2 : get_signature db (e_signature_id e2) = Some s2.
Hypothesis claimed_total : 50 < power_avg s1 + power_avg s2.
Hypothesis claimed_newest : 50 < power_avg s2.


End Pruning.



(** ** C7: merging two signatures *)

Lemma In_insert_by_count (s x : Signature) (l : list Signature) :
  In x (insert_by_count s l) <-> x = s \/ In x l.
Proof.
  induction l as [|y l IH]; cbn [insert_by_count].
  - cbn. intuition.
  - destruct (event_count y <=? event_count s)%Z; cbn [In]; [intuition|].
    rewrite IH. intuition.
Qed.

Lemma In_get_all_signatures (db : Store) (x : Signature) :
  In x (get_all_signatures db) <-> In x (appliance_signatures db).
Proof.
  unfold get_all_signatures.
  induction (appliance_signatures db) as [|y l IH]; cbn [order_by_count_desc];
    [reflexivity|].
  rewrite In_insert_by_count, IH. cbn. intuition.
Qed.

Lemma find_after_delete (keep_id merge_id : Z) (l : list Signature) :
  keep_id <> merge_id ->
  find (fun s => (sg_id s =? keep_id)%Z)
       (filter (fun s => negb (sg_id s =? merge_id)%Z) l) =
  find (fun s => (sg_id s =? keep_id)%Z) l.
Proof.
  intro Hne. induction l as [|s l IH]; [reflexivity|].
  cbn [filter find].
  destruct (sg_id s =? merge_id)%Z eqn:Em; cbn [negb].
  - apply Z.eqb_eq in Em.
    assert (E : (sg_id s =? keep_id)%Z = false) by (apply Z.eqb_neq; lia).
    rewrite E. exact IH.
  - cbn [find]. destruct (sg_id s =? keep_id)%Z; [reflexivity | exact IH].
Qed.

Lemma find_deleted (merge_id : Z) (l : list Signature) :
  find (fun s => (sg_id s =? merge_id)%Z)
       (filter (fun s => negb (sg_id s =? merge_id)%Z) l) = None.
Proof.
  induction l as [|s l IH]; [reflexivity|].
  cbn [filter]. destruct (sg_id s =? merge_id)%Z eqn:E; cbn [negb]; [exact IH|].
  cbn [find]. now rewrite E.
Qed.

Lemma move_events_none_left (keep_id merge_id : Z) (l : list Event) :
  keep_id <> merge_id ->
  Forall (fun e => e_signature_id e <> merge_id) (move_events keep_id merge_id l).
Proof.
  intro Hne. apply Forall_forall. intros e Hin.
  apply in_map_iff in Hin. destruct Hin as (x & <- & _).
  destruct (e_signature_id x =? merge_id)%Z eqn:E; cbn [e_signature_id].
  - exact Hne.
  - now apply Z.eqb_neq.
Qed.

Lemma move_stats_none_left (keep_id merge_id : Z) (l : list DailyStat) :
  keep_id <> merge_id ->
  Forall (fun r => d_signature_id r <> merge_id) (move_stats keep_id merge_id l).
Proof.
  intro Hne. apply Forall_forall. intros r Hin.
  apply in_map_iff in Hin. destruct Hin as (x & <- & _).
  destruct (d_signature_id x =? merge_id)%Z eqn:E; cbn [d_signature_id].
  - exact Hne.
  - now apply Z.eqb_neq.
Qed.

(** C7, as stated, fails twice over.  When both signatures have a row for
    day 5 the re-keying violates the primary key and the call raises; and
    merging 140 W (two events) into 100 W (one event) stores 126.7, not the
    weighted mean 380/3. *)
Lemma merge_raises_or_rounds :
  fst (merge_signatures store_shared_day 1 2) = IntegrityError /\
  exists s,
    get_signature (snd (merge_signatures store_two_clusters 1 2)) 1 = Some s /\
    ~ power_avg s == (100 * 1 + 140 * 2) / 3.
Proof.
  split; [reflexivity|].
  eexists. split; [reflexivity|].
  intro H. vm_compute in H. discriminate.
Qed.

Section Merge.
Variable db : Store.
Variables keep_id merge_id : Z.
Variables keep merge : Signature.
Hypothesis keep_exists : get_signature db keep_id = Some keep.
Hypothesis merge_exists : get_signature db merge_id = Some merge.
Hypothesis distinct : keep_id <> merge_id.
Hypothesis no_shared_date :
  stats_collide (appliance_daily_stats db) keep_id merge_id = false.

Lemma merge_signatures_result :
  merge_signatures db keep_id merge_id =
    (Returned true,
     mkStore (load_samples db)
             (move_events keep_id merge_id (load_events db))
             (filter (fun s => negb (sg_id s =? merge_id)%Z)
                (update_sig_rows keep_id
                   (set_power_count (merged_avg keep merge)
                                    (event_count keep + event_count merge))
                   (appliance_signatures db)))
             (move_stats keep_id merge_id (appliance_daily_stats db))
             (seq_events db) (seq_signatures db)).
Proof.
  unfold merge_signatures.
  now rewrite keep_exists, merge_exists, no_shared_date.
Qed.

Lemma merge_signatures_spec :
  let r := merge_signatures db keep_id merge_id in
  fst r = Returned true /\
  load_events (snd r) = move_events keep_id merge_id (load_events db) /\
  Forall (fun e => e_signature_id e <> merge_id) (load_events (snd r)) /\
  appliance_daily_stats (snd r) =
    move_stats keep_id merge_id (appliance_daily_stats db) /\
  Forall (fun row => d_signature_id row <> merge_id) (appliance_daily_stats (snd r)) /\
  get_signature (snd r) keep_id =
    Some (set_power_count (merged_avg keep merge)
                          (event_count keep + event_count merge) keep) /\
  get_signature (snd r) merge_id = None /\
  ~ In merge_id (map sg_id (get_all_signatures (snd r))).
Proof.
  cbv zeta. rewrite merge_signatures_result. cbn [fst snd load_events appliance_daily_stats].
  split; [reflexivity|]. split; [reflexivity|].
  split; [now apply move_events_none_left|]. split; [reflexivity|].
  split; [now apply move_stats_none_left|].
  unfold get_signature in *. cbn [appliance_signatures].
  split; [|split].
  - rewrite find_after_delete by exact distinct.
    rewrite find_update_sig_rows by reflexivity. now rewrite keep_exists.
  - apply find_deleted.
  - intro Hin. apply in_map_iff in Hin. destruct Hin as (s & Hid & Hin).
    apply In_get_all_signatures in Hin. cbn [appliance_signatures] in Hin.
    apply filter_In in Hin. destruct Hin as [_ Hn].
    apply negb_true_iff, Z.eqb_neq in Hn. contradiction.
Qed.
End Merge.

(** C7 (amended).  For two distinct existing signatures that have no
    daily-stats row for a common date, [merge_signatures] returns true, moves
    every event and every daily-stats row of the merged signature to the kept
    one, sets the kept average to the event-count-weighted mean of the two
    averages rounded to one decimal (the counts summing to more than zero)
    and its event count to the sum, and deletes the merged signature: no
    later listing contains its id. *)
Theorem merge_signatures_moves_and_deletes db keep_id merge_id keep merge :
  get_signature db keep_id = Some keep ->
  get_signature db merge_id = Some merge ->
  keep_id <> merge_id ->
  stats_collide (appliance_daily_stats db) keep_id merge_id = false ->
  (0 < event_count keep + event_count merge)%Z ->
  let r := merge_signatures db keep_id merge_id in
  let mean :=
    (power_avg keep * inject_Z (event_count keep)
     + power_avg merge * inject_Z (event_count merge))
    / inject_Z (event_count keep + event_count merge) in
  fst r = Returned true /\
  load_events (snd r) = move_events keep_id merge_id (load_events db) /\
  Forall (fun e => e_signature_id e <> merge_id) (load_events (snd r)) /\
  appliance_daily_stats (snd r) =
    move_stats keep_id merge_id (appliance_daily_stats db) /\
  Forall (fun row => d_signature_id row <> merge_id) (appliance_daily_stats (snd r)) /\
  get_signature (snd r) keep_id =
    Some (set_power_count (py_round mean 1)
                          (event_count keep + event_count merge) keep) /\
  Qabs (py_round mean 1 - mean) <= 1 # 20 /\
  get_signature (snd r) merge_id = None /\
  ~ In merge_id (map sg_id (get_all_signatures (snd r))).
Proof.
  intros Hk Hm Hne Hc Hpos r mean.
  destruct (merge_signatures_spec db keep_id merge_id keep merge Hk Hm Hne Hc)
    as (H1 & H2 & H3 & H4 & H5 & H6 & H7 & H8).
  fold r in H1, H2, H3, H4, H5, H6, H7, H8.
  repeat (split; [assumption|]).
  split; [|split; [apply (py_round_close mean 1)|split; assumption]].
  rewrite H6. unfold merged_avg. apply Z.ltb_lt in Hpos. now rewrite Hpos.
Qed.

Lemma merge_signatures_moves_and_deletes_witness :
  fst (merge_signatures store_two_clusters 1 2) = Returned true /\
  map e_signature_id (load_events (snd (merge_signatures store_two_clusters 1 2)))
    = [1; 1; 1]%Z.
Proof.
  destruct (merge_signatures_moves_and_deletes store_two_clusters 1 2
              cluster_100 cluster_140) as (H1 & H2 & _); try reflexivity.
  - discriminate.
  - split; [exact H1|]. rewrite H2. reflexivity.
Defined.

(** ** What an accepted edge leaves of the signature table

    After the signature has been resolved, the rest of [detect_edge] (pairing,
    the event row, the active state, the daily statistics) rewrites only the
    duration, activity and cycle columns: ids, power statistics, event counts
    and display columns stay as [resolve_signature] left them. *)

Lemma same_core_refl db : same_core db db.
Proof. repeat split. Qed.

Lemma same_core_trans db1 db2 db3 :
  same_core db1 db2 -> same_core db2 db3 -> same_core db1 db3.
Proof.
  intros (A1 & B1 & C1) (A2 & B2 & C2). repeat split; congruence.
Qed.

Lemma update_sig_rows_core (id : Z) (f : Signature -> Signature)
    (l : list Signature) :
  (forall s, sig_core (f s) = sig_core s) ->
  map sig_core (update_sig_rows id f l) = map sig_core l.
Proof.
  intro Hf. unfold update_sig_rows. rewrite map_map. apply map_ext.
  intro s. destruct (sg_id s =? id)%Z; [apply Hf | reflexivity].
Qed.

Lemma update_sig_core (db : Store) (id : Z) (f : Signature -> Signature) :
  (forall s, sig_core (f s) = sig_core s) ->
  same_core db (update_sig db id f).
Proof.
  intro Hf. repeat split. cbn [update_sig set_signatures appliance_signatures].
  now apply update_sig_rows_core.
Qed.

Lemma decrement_similar_core cfg pd rows : forall db,
  same_core db (decrement_similar cfg pd rows db).
Proof.
  induction rows as [|o rows IH]; intro db; cbn [decrement_similar];
    [apply same_core_refl|].
  destruct (Qle_bool _ _); [|apply IH].
  destruct (_ <=? 0)%Z; now apply update_sig_core.
Qed.

Lemma active_state_core cfg db sid ty ts pd :
  same_core db (_update_signature_active_state cfg db sid ty ts pd).
Proof.
  unfold _update_signature_active_state. destruct ty.
  - now apply update_sig_core.
  - destruct (find _ _) as [s|].
    + destruct (0 <? active_count s)%Z.
      * destruct (_ <=? 0)%Z; now apply update_sig_core.
      * destruct (Qltb 0 pd); [apply decrement_similar_core | apply same_core_refl].
    + destruct (Qltb 0 pd); [apply decrement_similar_core | apply same_core_refl].
Qed.

Lemma avg_duration_core db sid d : same_core db (_update_avg_duration db sid d).
Proof.
  unfold _update_avg_duration.
  destruct (get_signature db sid); [now apply update_sig_core | apply same_core_refl].
Qed.

Lemma pair_on_off_event_core cfg db sid ts pd :
  same_core db (snd (pair_on_off_event cfg db sid ts pd)).
Proof.
  unfold pair_on_off_event.
  destruct (pairing_choice cfg db sid ts pd) as [[on_id on_ts]|]; cbn [snd];
    [|apply same_core_refl].
  eapply same_core_trans; [|apply avg_duration_core]. repeat split.
Qed.

Lemma daily_cycles_core db sid : same_core db (_update_daily_cycles db sid).
Proof.
  unfold _update_daily_cycles. destruct (avg_cycles _) as [a|]; [|apply same_core_refl].
  destruct (Qeq_bool a 0); [apply same_core_refl | now apply update_sig_core].
Qed.

Lemma daily_stats_core clk db sid pd d :
  same_core db (_update_daily_stats clk db sid pd d).
Proof.
  unfold _update_daily_stats.
  eapply same_core_trans; [|apply daily_cycles_core]. repeat split.
Qed.

Lemma store_event_core cfg clk db ts ty pd leg d sid conf :
  same_core db (store_event cfg clk db ts ty pd leg d sid conf).
Proof.
  unfold store_event.
  match goal with
  | |- context [_update_signature_active_state cfg ?db3 sid ty ts pd] =>
      assert (Hact : same_core db (_update_signature_active_state cfg db3 sid ty ts pd))
        by (eapply same_core_trans; [|apply active_state_core]; repeat split)
  end.
  destruct ty; [exact Hact|].
  destruct d as [d0|]; [|exact Hact].
  destruct (d0 =? 0)%Z; [exact Hact|].
  eapply same_core_trans; [exact Hact | apply daily_stats_core].
Qed.

(** [record_edge] keeps the core of the table [resolve_signature] produced. *)
Lemma record_edge_core cfg clk db delta raw l1 l2 ots :
  same_core
    (snd (resolve_signature cfg db (py_round (Qabs delta) 1) (classify_leg l1 l2)))
    (snd (record_edge cfg clk db delta raw l1 l2 ots)).
Proof.
  unfold record_edge.
  destruct (resolve_signature cfg db _ _) as [sid db1]. cbn [snd].
  destruct (Qltb 0 delta).
  - cbn [snd]. apply store_event_core.
  - pose proof (pair_on_off_event_core cfg db1 sid
                  (match ots with Some t => t | None => datetime_now clk end)
                  (py_round (Qabs delta) 1)) as Hpair.
    destruct (pair_on_off_event cfg db1 sid _ _) as [d db2]. cbn [snd] in *.
    eapply same_core_trans; [exact Hpair | apply store_event_core].
Qed.

(** ** Signature ids: positive, bounded by the counter, distinct *)

Lemma map_sg_id_core (l : list Signature) :
  map sg_id l = map (fun c => fst (fst (fst (fst (fst (fst (fst c))))))) (map sig_core l).
Proof. rewrite map_map. reflexivity. Qed.

Lemma same_core_ids db db' :
  same_core db db' ->
  map sg_id (appliance_signatures db') = map sg_id (appliance_signatures db).
Proof.
  intros (H & _). now rewrite !map_sg_id_core, H.
Qed.

Lemma ids_ok_same_core db db' : same_core db db' -> ids_ok db -> ids_ok db'.
Proof.
  intros Hc (H0 & Hb & Hn). pose proof (same_core_ids _ _ Hc) as Hi.
  destruct Hc as (_ & Hs & _). unfold ids_ok. rewrite Hi, Hs. auto.
Qed.

Lemma update_signature_core_ids db id pd :
  map sg_id (appliance_signatures (update_signature db id pd))
  = map sg_id (appliance_signatures db) /\
  seq_signatures (update_signature db id pd) = seq_signatures db /\
  load_samples (update_signature db id pd) = load_samples db.
Proof.
  unfold update_signature. destruct (get_signature db id); [|auto].
  cbn [update_sig set_signatures appliance_signatures seq_signatures load_samples].
  repeat split. unfold update_sig_rows. rewrite map_map. apply map_ext.
  intro x. destruct (sg_id x =? id)%Z; reflexivity.
Qed.

Lemma create_signature_ids_ok db pd leg :
  ids_ok db -> ids_ok (snd (create_signature db pd leg)).
Proof.
  intros (H0 & Hb & Hn). unfold ids_ok, create_signature.
  cbn [snd appliance_signatures seq_signatures sg_id].
  rewrite map_app. cbn [map sg_id]. split; [lia|]. split.
  - apply Forall_app. split.
    + eapply Forall_impl; [|exact Hb]. cbn. intros; lia.
    + repeat constructor; lia.
  - apply NoDup_app; [exact Hn | repeat constructor; intros [] | ].
    intros x Hx [<-|[]]. rewrite Forall_forall in Hb. specialize (Hb _ Hx). lia.
Qed.

Lemma resolve_signature_ids_ok cfg db pd leg :
  ids_ok db -> ids_ok (snd (resolve_signature cfg db pd leg)).
Proof.
  intro H. unfold resolve_signature.
  destruct (find_matching_signature cfg db pd leg) as [id|];
    [|now apply create_signature_ids_ok].
  destruct (id =? 0)%Z; [now apply create_signature_ids_ok|].
  cbn [snd]. destruct (update_signature_core_ids db id pd) as (Hi & Hs & _).
  unfold ids_ok. rewrite Hi, Hs. exact H.
Qed.

Lemma detect_edge_ids_ok cfg clk db m s l1 l2 ots :
  ids_ok db -> ids_ok (snd (fst (detect_edge cfg clk db m s l1 l2 ots))).
Proof.
  intro H. unfold detect_edge.
  destruct (stable_level m); [|exact H].
  destruct (Qltb _ (EDGE_THRESHOLD cfg)); [exact H|].
  destruct (Qltb _ (DEBOUNCE_SECONDS cfg)); [exact H|].
  pose proof (record_edge_core cfg clk db (raw_current m s - q) (raw_current m s)
                l1 l2 ots) as Hc.
  destruct (record_edge cfg clk db _ _ l1 l2 ots) as [ev db']. cbn [fst snd] in *.
  eapply ids_ok_same_core; [exact Hc|]. now apply resolve_signature_ids_ok.
Qed.

(** ** C9: replay is determined by the samples

    A second reanalysis starts from emptied tables but from higher
    AUTOINCREMENT counters, so it hands out other ids.  The two runs are
    compared up to that shift [ds] of the signature ids. *)

Lemma view_of_core (k : Z) (l : list Signature) :
  map (view k) l =
  map (fun c => match c with
                | (id, avg, mn, mx, cnt, _, _, _) => ((k + id)%Z, avg, mn, mx, cnt)
                end) (map sig_core l).
Proof. rewrite map_map. reflexivity. Qed.

Lemma same_core_view (k : Z) db db' :
  same_core db db' ->
  map (view k) (appliance_signatures db') = map (view k) (appliance_signatures db).
Proof.
  intros (H & _). now rewrite !view_of_core, H.
Qed.

Lemma same_up_to_ids_same_core ds db1 db2 db1' db2' :
  same_core db1 db1' -> same_core db2 db2' ->
  same_up_to_ids ds db1 db2 -> same_up_to_ids ds db1' db2'.
Proof.
  intros H1 H2 (Hv & Hs). unfold same_up_to_ids.
  rewrite (same_core_view 0 _ _ H2), (same_core_view ds _ _ H1).
  destruct H1 as (_ & -> & _), H2 as (_ & -> & _). auto.
Qed.

Lemma signature_rows_view (k : Z) (db : Store) :
  map (fun v => (vid v, vavg v)) (map (view k) (appliance_signatures db))
  = map (shift_row k) (signature_rows db).
Proof.
  unfold signature_rows. rewrite !map_map. reflexivity.
Qed.

Lemma shift_row_0 (l : list (Z * Q)) : map (shift_row 0) l = l.
Proof.
  rewrite <- (map_id l) at 2. apply map_ext. now intros [id avg].
Qed.

Lemma signature_rows_shift ds db1 db2 :
  same_up_to_ids ds db1 db2 ->
  signature_rows db2 = map (shift_row ds) (signature_rows db1).
Proof.
  intros (Hv & _).
  rewrite <- (shift_row_0 (signature_rows db2)), <- !signature_rows_view.
  now rewrite Hv.
Qed.

Lemma fms_step_shift cfg pd ds (best_id : option Z) (best_diff : option Q)
    (row : Z * Q) :
  fms_step cfg pd (option_map (Z.add ds) best_id, best_diff) (shift_row ds row) =
  (option_map (Z.add ds) (fst (fms_step cfg pd (best_id, best_diff) row)),
   snd (fms_step cfg pd (best_id, best_diff) row)).
Proof.
  destruct row as [id avg]. unfold fms_step, shift_row. cbn [fst snd].
  destruct (Qle_bool _ _ && lt_bound _ _); reflexivity.
Qed.

Lemma fms_fold_shift cfg pd ds (rows : list (Z * Q)) : forall best_id best_diff,
  fold_left (fms_step cfg pd) (map (shift_row ds) rows)
            (option_map (Z.add ds) best_id, best_diff) =
  (option_map (Z.add ds) (fst (fold_left (fms_step cfg pd) rows (best_id, best_diff))),
   snd (fold_left (fms_step cfg pd) rows (best_id, best_diff))).
Proof.
  induction rows as [|row rows IH]; intros bid bd; [reflexivity|].
  cbn [map fold_left]. rewrite fms_step_shift.
  destruct (fms_step cfg pd (bid, bd) row) as [i d]. cbn [fst snd]. apply IH.
Qed.

Lemma find_matching_signature_shift cfg ds db1 db2 pd leg :
  same_up_to_ids ds db1 db2 ->
  find_matching_signature cfg db2 pd leg =
  option_map (Z.add ds) (find_matching_signature cfg db1 pd leg).
Proof.
  intro H. unfold find_matching_signature.
  rewrite (signature_rows_shift ds db1 db2 H).
  exact (f_equal fst (fms_fold_shift cfg pd ds (signature_rows db1) None None)).
Qed.

Lemma find_view (k id : Z) (l : list Signature) :
  find (fun v => (vid v =? k + id)%Z) (map (view k) l) =
  option_map (view k) (find (fun s => (sg_id s =? id)%Z) l).
Proof.
  induction l as [|s l IH]; [reflexivity|].
  cbn [map find]. unfold vid at 1, view at 1. cbn [fst].
  replace (k + sg_id s =? k + id)%Z with (sg_id s =? id)%Z
    by (destruct (Z.eqb_spec (sg_id s) id), (Z.eqb_spec (k + sg_id s) (k + id)); lia).
  destruct (sg_id s =? id)%Z; [reflexivity | exact IH].
Qed.

Lemma update_signature_view (k : Z) db id pd :
  map (view k) (appliance_signatures (update_signature db id pd)) =
  update_views (k + id) pd (map (view k) (appliance_signatures db)).
Proof.
  unfold update_signature, update_views, get_signature. rewrite find_view.
  destruct (find _ (appliance_signatures db)) as [row|]; [|reflexivity].
  cbn [option_map view update_sig set_signatures appliance_signatures].
  unfold update_sig_rows. rewrite !map_map. apply map_ext. intro s.
  unfold vid at 1, view at 2. cbn [fst].
  replace (k + sg_id s =? k + id)%Z with (sg_id s =? id)%Z
    by (destruct (Z.eqb_spec (sg_id s) id), (Z.eqb_spec (k + sg_id s) (k + id)); lia).
  destruct (sg_id s =? id)%Z; reflexivity.
Qed.

Lemma In_signature_rows_positive db id avg :
  ids_ok db -> In (id, avg) (signature_rows db) -> (id =? 0)%Z = false.
Proof.
  intros (_ & Hb & _) Hin. unfold signature_rows in Hin.
  apply in_map_iff in Hin. destruct Hin as (s & Hs & Hin). inversion Hs; subst.
  rewrite Forall_forall in Hb. specialize (Hb (sg_id s) (in_map sg_id _ _ Hin)).
  apply Z.eqb_neq. lia.
Qed.

Lemma found_positive cfg db pd leg id :
  ids_ok db -> find_matching_signature cfg db pd leg = Some id -> (id =? 0)%Z = false.
Proof.
  intros Hok H. pose proof (find_matching_signature_nearest cfg pd db leg) as Hn.
  rewrite H in Hn. destruct Hn as (avg & Hin & _).
  now apply (In_signature_rows_positive db id avg).
Qed.

Lemma create_signature_shift ds db1 db2 pd leg :
  same_up_to_ids ds db1 db2 ->
  same_up_to_ids ds (snd (create_signature db1 pd leg)) (snd (create_signature db2 pd leg)).
Proof.
  intros (Hv & Hs). unfold same_up_to_ids, create_signature.
  cbn [snd appliance_signatures seq_signatures]. rewrite !map_app, Hv, Hs.
  cbn [map view sg_id power_avg power_min power_max event_count].
  split; [|lia]. unfold view. cbn [sg_id power_avg power_min power_max event_count].
  replace (0 + (ds + seq_signatures db1 + 1))%Z
    with (ds + (seq_signatures db1 + 1))%Z by lia.
  reflexivity.
Qed.

Lemma resolve_signature_shift cfg ds db1 db2 pd leg :
  same_up_to_ids ds db1 db2 -> ids_ok db1 -> ids_ok db2 ->
  same_up_to_ids ds (snd (resolve_signature cfg db1 pd leg))
                    (snd (resolve_signature cfg db2 pd leg)).
Proof.
  intros H Hok1 Hok2. unfold resolve_signature.
  pose proof (found_positive cfg db1 pd leg) as Hp1.
  pose proof (found_positive cfg db2 pd leg) as Hp2.
  rewrite (find_matching_signature_shift cfg ds db1 db2 pd leg H) in *.
  destruct (find_matching_signature cfg db1 pd leg) as [id|]; cbn [option_map] in *;
    [|now apply create_signature_shift].
  rewrite (Hp1 id Hok1 eq_refl), (Hp2 (ds + id)%Z Hok2 eq_refl). cbn [snd].
  destruct H as (Hv & Hs). split.
  - rewrite (update_signature_view 0 db2 (ds + id) pd),
      (update_signature_view ds db1 id pd), Hv. reflexivity.
  - destruct (update_signature_core_ids db1 id pd) as (_ & -> & _).
    destruct (update_signature_core_ids db2 (ds + id) pd) as (_ & -> & _).
    exact Hs.
Qed.

Lemma resolve_signature_samples cfg db pd leg :
  load_samples (snd (resolve_signature cfg db pd leg)) = load_samples db.
Proof.
  unfold resolve_signature.
  destruct (find_matching_signature cfg db pd leg) as [id|]; [|reflexivity].
  destruct (id =? 0)%Z; [reflexivity|]. cbn [snd].
  apply update_signature_core_ids.
Qed.

Lemma detect_edge_samples cfg clk db m s l1 l2 ots :
  load_samples (snd (fst (detect_edge cfg clk db m s l1 l2 ots))) = load_samples db.
Proof.
  unfold detect_edge.
  destruct (stable_level m) as [level|]; [|reflexivity].
  destruct (Qltb _ (EDGE_THRESHOLD cfg)); [reflexivity|].
  destruct (Qltb _ (DEBOUNCE_SECONDS cfg)); [reflexivity|].
  pose proof (record_edge_core cfg clk db (raw_current m s - level)
                (raw_current m s) l1 l2 ots) as (_ & _ & Hc).
  destruct (record_edge cfg clk db _ _ l1 l2 ots) as [ev db']. cbn [fst snd] in *.
  rewrite Hc. apply resolve_signature_samples.
Qed.

Lemma detect_edge_shift cfg ds clk1 clk2 db1 db2 m s l1 l2 ts :
  same_up_to_ids ds db1 db2 -> ids_ok db1 -> ids_ok db2 ->
  let r1 := detect_edge cfg clk1 db1 m s l1 l2 (Some ts) in
  let r2 := detect_edge cfg clk2 db2 m s l1 l2 (Some ts) in
  same_up_to_ids ds (snd (fst r1)) (snd (fst r2)) /\
  snd r1 = snd r2 /\
  emitted (fst (fst r1)) = emitted (fst (fst r2)).
Proof.
  intros H Hok1 Hok2. cbv zeta. unfold detect_edge.
  destruct (stable_level m) as [level|];
    [|split; [exact H | split; reflexivity]].
  destruct (Qltb _ (EDGE_THRESHOLD cfg));
    [split; [exact H | split; reflexivity]|].
  destruct (Qltb _ (DEBOUNCE_SECONDS cfg));
    [split; [exact H | split; reflexivity]|].
  pose proof (record_edge_core cfg clk1 db1 (raw_current m s - level)
                (raw_current m s) l1 l2 (Some ts)) as Hc1.
  pose proof (record_edge_core cfg clk2 db2 (raw_current m s - level)
                (raw_current m s) l1 l2 (Some ts)) as Hc2.
  destruct (record_edge cfg clk1 db1 _ _ l1 l2 (Some ts)) as [ev1 db1'].
  destruct (record_edge cfg clk2 db2 _ _ l1 l2 (Some ts)) as [ev2 db2'].
  cbn [fst snd emitted] in *. split; [|now split].
  eapply same_up_to_ids_same_core; [exact Hc1 | exact Hc2 |].
  now apply resolve_signature_shift.
Qed.

Lemma replay_shift cfg ds clock1 clock2 (samples : list Sample) :
  forall i1 i2 db1 db2 m n,
    same_up_to_ids ds db1 db2 -> ids_ok db1 -> ids_ok db2 ->
    let r1 := replay cfg clock1 i1 samples db1 m n in
    let r2 := replay cfg clock2 i2 samples db2 m n in
    fst (fst r1) = fst (fst r2) /\
    same_up_to_ids ds (snd (fst r1)) (snd (fst r2)) /\
    snd r1 = snd r2.
Proof.
  induction samples as [|x rest IH]; intros i1 i2 db1 db2 m n H Hok1 Hok2.
  - split; [reflexivity | split; [exact H | reflexivity]].
  - cbn [replay].
    set (m1 := mem_append m (s_load_total x) (s_load_l1 x) (s_load_l2 x)).
    pose proof (detect_edge_shift cfg ds (clock1 i1) (clock2 i2) db1 db2 m1
                  (_smooth (recent_loads m1)) (Some (s_load_l1 x))
                  (Some (s_load_l2 x)) (s_timestamp x) H Hok1 Hok2) as (HR & Hm & He).
    pose proof (detect_edge_ids_ok cfg (clock1 i1) db1 m1 (_smooth (recent_loads m1))
                  (Some (s_load_l1 x)) (Some (s_load_l2 x)) (Some (s_timestamp x))
                  Hok1) as Hok1'.
    pose proof (detect_edge_ids_ok cfg (clock2 i2) db2 m1 (_smooth (recent_loads m1))
                  (Some (s_load_l1 x)) (Some (s_load_l2 x)) (Some (s_timestamp x))
                  Hok2) as Hok2'.
    destruct (detect_edge cfg (clock1 i1) db1 m1 _ _ _ _) as [[ev1 db1'] m1'].
    destruct (detect_edge cfg (clock2 i2) db2 m1 _ _ _ _) as [[ev2 db2'] m2'].
    cbn [fst snd] in *. subst m2'.
    replace (match ev2 with Some _ => S n | None => n end)
      with (match ev1 with Some _ => S n | None => n end)
      by (destruct ev1, ev2; cbn in He; congruence).
    now apply IH.
Qed.

Lemma replay_ids_ok cfg clock (samples : list Sample) : forall i db m n,
  ids_ok db -> ids_ok (snd (fst (replay cfg clock i samples db m n))).
Proof.
  induction samples as [|x rest IH]; intros i db m n Hok; [exact Hok|].
  cbn [replay].
  set (m1 := mem_append m (s_load_total x) (s_load_l1 x) (s_load_l2 x)).
  pose proof (detect_edge_ids_ok cfg (clock i) db m1 (_smooth (recent_loads m1))
                (Some (s_load_l1 x)) (Some (s_load_l2 x)) (Some (s_timestamp x))
                Hok) as Hok'.
  destruct (detect_edge cfg (clock i) db m1 _ _ _ _) as [[ev db'] m']. now apply IH.
Qed.

Lemma replay_samples cfg clock (samples : list Sample) : forall i db m n,
  load_samples (snd (fst (replay cfg clock i samples db m n))) = load_samples db.
Proof.
  induction samples as [|x rest IH]; intros i db m n; [reflexivity|].
  cbn [replay].
  set (m1 := mem_append m (s_load_total x) (s_load_l1 x) (s_load_l2 x)).
  pose proof (detect_edge_samples cfg (clock i) db m1 (_smooth (recent_loads m1))
                (Some (s_load_l1 x)) (Some (s_load_l2 x)) (Some (s_timestamp x))) as Hs.
  destruct (detect_edge cfg (clock i) db m1 _ _ _ _) as [[ev db'] m'].
  cbn [fst snd] in Hs. rewrite IH. exact Hs.
Qed.

Lemma reanalyze_unfold cfg clock db m :
  reanalyze cfg clock db m =
  match samples_in_order (load_samples db) with
  | [] => (mkSummary 0 0 0, clear_detections db, m)
  | samples =>
      let r := rebuilt cfg clock db in
      (mkSummary (length samples) (fst (fst r))
                 (length (appliance_signatures (snd (fst r)))),
       _restore_user_labels cfg (snd (fst r)) (_save_user_labels db),
       snd r)
  end.
Proof.
  unfold reanalyze, rebuilt. cbn [load_samples clear_detections].
  destruct (samples_in_order (load_samples db)) as [|x rest]; [reflexivity|].
  destruct (replay cfg clock 0 (x :: rest) _ (initial_mem cfg) 0) as [[n d] mm].
  reflexivity.
Qed.

Lemma restore_frame cfg saved (l : list Signature) : forall db,
  let db' :=
    fold_left
      (fun db' s =>
         match best_saved cfg saved (power_avg s) with
         | Some c => update_sig db' (sg_id s)
                       (set_display (c_label c) (c_icon c) (c_color c))
         | None => db'
         end) l db in
  load_samples db' = load_samples db /\
  seq_signatures db' = seq_signatures db /\
  map sg_id (appliance_signatures db') = map sg_id (appliance_signatures db).
Proof.
  induction l as [|s l IH]; intro db; cbn [fold_left]; [now repeat split|].
  destruct (best_saved cfg saved (power_avg s)) as [c|]; [|apply IH].
  destruct (IH (update_sig db (sg_id s)
                  (set_display (c_label c) (c_icon c) (c_color c))))
    as (H1 & H2 & H3).
  cbv zeta. rewrite H1, H2, H3. repeat split.
  cbn [update_sig set_signatures appliance_signatures].
  unfold update_sig_rows. rewrite map_map. apply map_ext.
  intro x. destruct (sg_id x =? sg_id s)%Z; reflexivity.
Qed.

Lemma reanalyze_frame cfg clock db m :
  (0 <= seq_signatures db)%Z ->
  load_samples (snd (fst (reanalyze cfg clock db m))) = load_samples db /\
  (0 <= seq_signatures (snd (fst (reanalyze cfg clock db m))))%Z.
Proof.
  intro H0. rewrite reanalyze_unfold.
  destruct (samples_in_order (load_samples db)) as [|x rest] eqn:E;
    [now split|].
  cbv zeta. cbn [fst snd].
  destruct (restore_frame cfg (_save_user_labels db)
              (appliance_signatures (snd (fst (rebuilt cfg clock db))))
              (snd (fst (rebuilt cfg clock db)))) as (H1 & H2 & _).
  unfold _restore_user_labels. cbv zeta in H1, H2. rewrite H1, H2.
  unfold rebuilt. cbn [fst snd load_samples seq_signatures set_signatures].
  rewrite replay_samples. split; [reflexivity|].
  apply (replay_ids_ok cfg clock _ 0%nat (clear_detections db) (initial_mem cfg) 0%nat).
  repeat split; cbn; [exact H0 | constructor | constructor].
Qed.

Lemma ids_ok_cleared db : (0 <= seq_signatures db)%Z -> ids_ok (clear_detections db).
Proof.
  intro H. repeat split; cbn; [exact H | constructor | constructor].
Qed.

(** Two replays of the same samples find as many events and signatures,
    from whatever stores and clocks they start. *)
Lemma rebuilt_counts cfg clock1 clock2 db1 db2 :
  load_samples db2 = load_samples db1 ->
  (0 <= seq_signatures db1)%Z -> (0 <= seq_signatures db2)%Z ->
  fst (fst (rebuilt cfg clock2 db2)) = fst (fst (rebuilt cfg clock1 db1)) /\
  length (appliance_signatures (snd (fst (rebuilt cfg clock2 db2)))) =
  length (appliance_signatures (snd (fst (rebuilt cfg clock1 db1)))).
Proof.
  intros Hs H1 H2. unfold rebuilt. rewrite Hs. cbn [fst snd].
  destruct (replay_shift cfg (seq_signatures db2 - seq_signatures db1)
              clock1 clock2 (samples_in_order (load_samples db1)) 0%nat 0%nat
              (clear_detections db1) (clear_detections db2)
              (initial_mem cfg) 0%nat) as (Hn & (Hv & _) & _).
  - split; cbn; [reflexivity | lia].
  - now apply ids_ok_cleared.
  - now apply ids_ok_cleared.
  - split; [now rewrite Hn|].
    cbn [appliance_signatures set_signatures]. rewrite !length_map.
    apply (f_equal (@length _)) in Hv. now rewrite !length_map in Hv.
Qed.

Lemma reanalyze_reports cfg clock db m :
  fst (fst (reanalyze cfg clock db m)) = reanalyze_summary cfg clock db.
Proof.
  rewrite reanalyze_unfold. unfold reanalyze_summary.
  destruct (samples_in_order (load_samples db)); reflexivity.
Qed.

(** C9.  Two successive reanalyses over an unchanged sample table report
    the same counts of samples, events and signatures, whatever the wall
    clock does in between and although the second run hands out new ids. *)
Theorem reanalyze_twice_same_counts cfg clock1 clock2 db m :
  (0 <= seq_signatures db)%Z ->
  let r1 := reanalyze cfg clock1 db m in
  let r2 := reanalyze cfg clock2 (snd (fst r1)) (snd r1) in
  load_samples (snd (fst r1)) = load_samples db /\
  sm_samples (fst (fst r2)) = sm_samples (fst (fst r1)) /\
  sm_events (fst (fst r2)) = sm_events (fst (fst r1)) /\
  sm_signatures (fst (fst r2)) = sm_signatures (fst (fst r1)).
Proof.
  intros H0 r1 r2.
  destruct (reanalyze_frame cfg clock1 db m H0) as (Hs & Hq).
  fold r1 in Hs, Hq. split; [exact Hs|].
  destruct (rebuilt_counts cfg clock1 clock2 db (snd (fst r1)) Hs H0 Hq) as (Hn & Hl).
  assert (E1 : fst (fst r1) = reanalyze_summary cfg clock1 db)
    by apply reanalyze_reports.
  assert (E2 : fst (fst r2) = reanalyze_summary cfg clock2 (snd (fst r1)))
    by apply reanalyze_reports.
  rewrite E1, E2. unfold reanalyze_summary. rewrite Hs.
  destruct (samples_in_order (load_samples db)) as [|x rest].
  - repeat split.
  - cbn [sm_samples sm_events sm_signatures].
    split; [reflexivity|]. split; [exact Hn | exact Hl].
Qed.

Lemma reanalyze_twice_same_counts_witness :
  let r1 := reanalyze default_config clock_day11 store_history
                      (initial_mem default_config) in
  let r2 := reanalyze default_config (fun _ => mkClock 0 0) (snd (fst r1)) (snd r1) in
  load_samples (snd (fst r1)) = load_samples store_history /\
  sm_samples (fst (fst r2)) = sm_samples (fst (fst r1)) /\
  sm_events (fst (fst r2)) = sm_events (fst (fst r1)) /\
  sm_signatures (fst (fst r2)) = sm_signatures (fst (fst r1)).
Proof.
  apply (reanalyze_twice_same_counts default_config clock_day11
           (fun _ => mkClock 0 0) store_history (initial_mem default_config)).
  vm_compute. discriminate.
Defined.

(** ** C10: reanalysis with no stored samples *)

Lemma reanalyze_no_samples cfg clock db m :
  load_samples db = [] ->
  reanalyze cfg clock db m = (mkSummary 0 0 0, clear_detections db, m).
Proof.
  intro H. rewrite reanalyze_unfold, H. reflexivity.
Qed.

(** C10.  With an empty sample table [reanalyze] returns the zero summary,
    having emptied the three derived tables; no label comes back (there is
    no signature left to carry one) and the detector's memory is the one it
    was called with.  The call is not a no-op: the renamed "Fridge" signature
    of [store_named] is gone afterwards. *)
Theorem reanalyze_without_samples_wipes cfg :
  (forall clock db m,
      load_samples db = [] ->
      let r := reanalyze cfg clock db m in
      fst (fst r) = mkSummary 0 0 0 /\
      load_events (snd (fst r)) = [] /\
      appliance_signatures (snd (fst r)) = [] /\
      appliance_daily_stats (snd (fst r)) = [] /\
      snd r = m)
  /\
  (let r := reanalyze cfg (fun _ => mkClock 0 0) store_named
                      (tracking_mem 100 [100]) in
   _save_user_labels store_named <> [] /\
   snd (fst r) <> store_named /\
   snd r = tracking_mem 100 [100] /\
   snd r <> initial_mem cfg).
Proof.
  split.
  - intros clock db m H r. unfold r. rewrite (reanalyze_no_samples _ _ _ _ H).
    repeat split.
  - cbv zeta. rewrite (reanalyze_no_samples _ _ store_named _ eq_refl).
    cbn [fst snd]. repeat split; discriminate.
Qed.

Lemma reanalyze_without_samples_wipes_witness :
  appliance_signatures
    (snd (fst (reanalyze default_config (fun _ => mkClock 0 0) store_named
                         (tracking_mem 100 [100])))) = [].
Proof.
  apply (proj1 (reanalyze_without_samples_wipes default_config)
               (fun _ => mkClock 0 0) store_named (tracking_mem 100 [100])).
  reflexivity.
Defined.


(** ** C8: labels across a reanalysis *)

(** *** The snapshot *)

Lemma dict_get_set_same (k : Z) (v : Customization) (d : SavedLabels) :
  dict_get k (dict_set k v d) = Some v.
Proof.
  induction d as [|[k0 v0] d IH]; cbn [dict_set dict_get].
  - now rewrite Z.eqb_refl.
  - destruct (k0 =? k)%Z eqn:E; cbn [dict_get].
    + now rewrite Z.eqb_refl.
    + now rewrite E.
Qed.

Lemma dict_get_set_other (k k' : Z) (v : Customization) (d : SavedLabels) :
  k' <> k -> dict_get k' (dict_set k v d) = dict_get k' d.
Proof.
  intro Hne. induction d as [|[k0 v0] d IH]; cbn [dict_set dict_get].
  - apply Z.eqb_neq in Hne. rewrite Z.eqb_sym in Hne. now rewrite Hne.
  - destruct (k0 =? k)%Z eqn:E; cbn [dict_get].
    + apply Z.eqb_eq in E. subst k0.
      assert (E' : (k =? k')%Z = false) by (apply Z.eqb_neq; congruence).
      now rewrite E'.
    + destruct (k0 =? k')%Z; [reflexivity | exact IH].
Qed.

Lemma In_keys_dict_set (k : Z) (v : Customization) (d : SavedLabels) (x : Z) :
  In x (map fst (dict_set k v d)) <-> x = k \/ In x (map fst d).
Proof.
  induction d as [|[k0 v0] d IH]; cbn [dict_set map fst In].
  - intuition.
  - destruct (k0 =? k)%Z eqn:E; cbn [map fst In].
    + apply Z.eqb_eq in E. subst. intuition.
    + rewrite IH. intuition.
Qed.

Lemma dict_set_keys_distinct (k : Z) (v : Customization) (d : SavedLabels) :
  NoDup (map fst d) -> NoDup (map fst (dict_set k v d)).
Proof.
  induction d as [|[k0 v0] d IH]; cbn [dict_set map fst]; intro H.
  - repeat constructor. intros [].
  - inversion H as [|? ? Hnot Hrest]; subst.
    destruct (k0 =? k)%Z eqn:E; cbn [map fst].
    + apply Z.eqb_eq in E. subst. now constructor.
    + constructor; [|now apply IH].
      rewrite In_keys_dict_set. intros [->|Hin]; [|contradiction].
      now rewrite Z.eqb_refl in E.
Qed.

Lemma dict_get_In (d : SavedLabels) (k : Z) (v : Customization) :
  NoDup (map fst d) -> (In (k, v) d <-> dict_get k d = Some v).
Proof.
  induction d as [|[k0 v0] d IH]; cbn [map fst dict_get In]; intro H.
  - split; [intros [] | discriminate].
  - inversion H as [|? ? Hnot Hrest]; subst.
    destruct (k0 =? k)%Z eqn:E.
    + apply Z.eqb_eq in E. subst k0. split.
      * intros [Heq|Hin]; [now inversion Heq|].
        exfalso. apply Hnot. now apply (in_map fst) in Hin.
      * intro Heq. inversion Heq. now left.
    + rewrite <- (IH Hrest). split.
      * intros [Heq|Hin]; [|exact Hin].
        inversion Heq. subst. now rewrite Z.eqb_refl in E.
      * intro Hin. now right.
Qed.

Lemma save_fold_keys_distinct (l : list Signature) : forall d,
  NoDup (map fst d) -> NoDup (map fst (fold_left save_step l d)).
Proof.
  induction l as [|s l IH]; intros d H; [exact H|].
  cbn [fold_left]. apply IH. now apply dict_set_keys_distinct.
Qed.

Lemma find_app {A : Type} (p : A -> bool) (l1 l2 : list A) :
  find p (l1 ++ l2) = match find p l1 with Some x => Some x | None => find p l2 end.
Proof.
  induction l1 as [|x l1 IH]; [reflexivity|].
  cbn [app find]. destruct (p x); [reflexivity | exact IH].
Qed.

Lemma save_fold_get (k : Z) (l : list Signature) : forall d,
  dict_get k (fold_left save_step l d) =
  match last_of_key k l with
  | Some s => Some (customization_of s)
  | None => dict_get k d
  end.
Proof.
  unfold last_of_key.
  induction l as [|s l IH]; intro d; [reflexivity|].
  cbn [fold_left rev]. rewrite IH, find_app. cbn [find].
  destruct (find _ (rev l)); [reflexivity|].
  unfold save_step. destruct (saved_key s =? k)%Z eqn:E.
  - apply Z.eqb_eq in E. subst k. apply dict_get_set_same.
  - apply dict_get_set_other. apply Z.eqb_neq in E. congruence.
Qed.

Lemma save_user_labels_fold (db : Store) :
  _save_user_labels db = fold_left save_step (appliance_signatures db) [].
Proof. reflexivity. Qed.

Lemma save_user_labels_entries (db : Store) :
  NoDup (map fst (_save_user_labels db)) /\
  forall k c,
    In (k, c) (_save_user_labels db) <->
    exists s, last_of_key k (appliance_signatures db) = Some s /\
              c = customization_of s.
Proof.
  rewrite save_user_labels_fold.
  assert (Hn : NoDup (map fst (fold_left save_step (appliance_signatures db) [])))
    by (apply save_fold_keys_distinct; constructor).
  split; [exact Hn|]. intros k c.
  rewrite (dict_get_In _ k c Hn), save_fold_get.
  destruct (last_of_key k (appliance_signatures db)) as [s|]; cbn [dict_get].
  - split.
    + intro H. inversion H. now exists s.
    + intros (s' & Hs & ->). now inversion Hs.
  - split; [discriminate | now intros (s' & Hs & _)].
Qed.

(** *** The restore *)

Section Restore.
Variable cfg : Config.
Variable key : Z.

Lemma restore_step_scan (best : option (Z * Customization))
    (entry : Z * Customization) :
  restore_step cfg key (option_map snd best, option_map (entry_diff key) best) entry =
  (option_map snd (scan_step (restorable cfg key) (entry_diff key) best entry),
   option_map (entry_diff key)
     (scan_step (restorable cfg key) (entry_diff key) best entry)).
Proof.
  destruct entry as [k c].
  unfold restore_step, scan_step, restorable, entry_diff. cbn [fst snd].
  destruct (Qle_bool _ _); cbn [andb]; [|reflexivity].
  destruct (is_auto_label (c_label c)); cbn [negb andb].
  - destruct (lt_bound _ _); reflexivity.
  - destruct (lt_bound _ _); reflexivity.
Qed.

Lemma restore_fold_scan (saved : SavedLabels) : forall best,
  fold_left (restore_step cfg key) saved
            (option_map snd best, option_map (entry_diff key) best) =
  (option_map snd
     (fold_left (scan_step (restorable cfg key) (entry_diff key)) saved best),
   option_map (entry_diff key)
     (fold_left (scan_step (restorable cfg key) (entry_diff key)) saved best)).
Proof.
  induction saved as [|entry saved IH]; intro best; [reflexivity|].
  cbn [fold_left]. rewrite restore_step_scan. apply IH.
Qed.
End Restore.

Lemma best_saved_scan cfg saved p :
  best_saved cfg saved p =
  option_map snd
    (scan (restorable cfg (round_half_even p))
          (entry_diff (round_half_even p)) saved).
Proof.
  unfold best_saved, scan.
  exact (f_equal fst (restore_fold_scan cfg (round_half_even p) saved None)).
Qed.

Lemma update_sig_rows_fresh (id : Z) (f : Signature -> Signature)
    (rows : list Signature) :
  ~ In id (map sg_id rows) -> update_sig_rows id f rows = rows.
Proof.
  intro H. unfold update_sig_rows. rewrite <- (map_id rows) at 2.
  apply map_ext_in. intros s Hs.
  destruct (sg_id s =? id)%Z eqn:E; [|reflexivity].
  apply Z.eqb_eq in E. exfalso. apply H. rewrite <- E. now apply in_map.
Qed.

Lemma restore_one_id cfg saved s : sg_id (restore_one cfg saved s) = sg_id s.
Proof.
  unfold restore_one. destruct (best_saved cfg saved (power_avg s)); reflexivity.
Qed.

Lemma restore_rows cfg saved (l : list Signature) : forall pre db,
  NoDup (map sg_id (pre ++ l)) ->
  appliance_signatures db = map (restore_one cfg saved) pre ++ l ->
  appliance_signatures
    (fold_left
       (fun db' s =>
          match best_saved cfg saved (power_avg s) with
          | Some c => update_sig db' (sg_id s)
                        (set_display (c_label c) (c_icon c) (c_color c))
          | None => db'
          end) l db)
  = map (restore_one cfg saved) (pre ++ l).
Proof.
  induction l as [|s l IH]; intros pre db Hn Hdb.
  - cbn [fold_left]. rewrite Hdb, !app_nil_r. reflexivity.
  - cbn [fold_left].
    assert (Hn' : NoDup (map sg_id ((pre ++ [s]) ++ l)))
      by (now rewrite <- app_assoc).
    rewrite map_app in Hn. cbn [map] in Hn. apply NoDup_remove_2 in Hn.
    replace (pre ++ s :: l) with ((pre ++ [s]) ++ l)
      by (now rewrite <- app_assoc).
    apply IH; [exact Hn'|].
    rewrite map_app. cbn [map].
    assert (Hpre : ~ In (sg_id s) (map sg_id (map (restore_one cfg saved) pre))).
    { rewrite map_map. rewrite (map_ext _ sg_id (restore_one_id cfg saved)).
      intro Hin. apply Hn. apply in_or_app. now left. }
    assert (Hpost : ~ In (sg_id s) (map sg_id l)).
    { intro Hin. apply Hn. apply in_or_app. now right. }
    unfold restore_one at 2.
    destruct (best_saved cfg saved (power_avg s)) as [c|].
    + cbn [update_sig set_signatures appliance_signatures]. rewrite Hdb.
      unfold update_sig_rows at 1. rewrite map_app. cbn [map].
      fold (update_sig_rows (sg_id s)
              (set_display (c_label c) (c_icon c) (c_color c))
              (map (restore_one cfg saved) pre)).
      fold (update_sig_rows (sg_id s)
              (set_display (c_label c) (c_icon c) (c_color c)) l).
      rewrite (update_sig_rows_fresh _ _ _ Hpre), (update_sig_rows_fresh _ _ _ Hpost).
      rewrite Z.eqb_refl. now rewrite <- app_assoc.
    + rewrite Hdb. now rewrite <- app_assoc.
Qed.

Lemma restore_user_labels_rows cfg saved db :
  NoDup (map sg_id (appliance_signatures db)) ->
  appliance_signatures (_restore_user_labels cfg db saved) =
  map (restore_one cfg saved) (appliance_signatures db).
Proof.
  intro H. unfold _restore_user_labels.
  now apply (restore_rows cfg saved (appliance_signatures db) [] db).
Qed.

(** *** Rebuilt signatures carry the suggested placeholders *)

Lemma suggest_label_auto (p : Q) : is_auto_label (_suggest_label p) = true.
Proof.
  unfold _suggest_label.
  repeat match goal with |- context [if ?b then _ else _] => destruct b end;
    reflexivity.
Qed.

Lemma same_core_labels db db' :
  same_core db db' ->
  map user_label (appliance_signatures db') = map user_label (appliance_signatures db).
Proof.
  intros (H & _).
  assert (E : forall l, map user_label l =
                        map (fun c => snd (fst (fst c))) (map sig_core l))
    by (intro l; rewrite map_map; reflexivity).
  now rewrite !E, H.
Qed.

Lemma resolve_signature_labels_auto cfg db pd leg :
  labels_auto db -> labels_auto (snd (resolve_signature cfg db pd leg)).
Proof.
  intro H. unfold resolve_signature, labels_auto in *.
  assert (Hc : Forall (fun l => is_auto_label l = true)
                 (map user_label (appliance_signatures (snd (create_signature db pd leg))))).
  { unfold create_signature. cbn [snd appliance_signatures].
    rewrite map_app. apply Forall_app. split; [exact H|].
    repeat constructor. apply suggest_label_auto. }
  destruct (find_matching_signature cfg db pd leg) as [id|]; [|exact Hc].
  destruct (id =? 0)%Z; [exact Hc|]. cbn [snd].
  unfold update_signature. destruct (get_signature db id); [|exact H].
  cbn [update_sig set_signatures appliance_signatures].
  unfold update_sig_rows. rewrite map_map.
  erewrite map_ext; [exact H|].
  intro x. destruct (sg_id x =? id)%Z; reflexivity.
Qed.

Lemma detect_edge_labels_auto cfg clk db m s l1 l2 ots :
  labels_auto db -> labels_auto (snd (fst (detect_edge cfg clk db m s l1 l2 ots))).
Proof.
  intro H. unfold detect_edge.
  destruct (stable_level m) as [level|]; [|exact H].
  destruct (Qltb _ (EDGE_THRESHOLD cfg)); [exact H|].
  destruct (Qltb _ (DEBOUNCE_SECONDS cfg)); [exact H|].
  pose proof (record_edge_core cfg clk db (raw_current m s - level) (raw_current m s)
                l1 l2 ots) as Hc.
  destruct (record_edge cfg clk db _ _ l1 l2 ots) as [ev db']. cbn [fst snd] in *.
  unfold labels_auto. rewrite (same_core_labels _ _ Hc).
  now apply resolve_signature_labels_auto.
Qed.

Lemma replay_labels_auto cfg clock (samples : list Sample) : forall i db m n,
  labels_auto db -> labels_auto (snd (fst (replay cfg clock i samples db m n))).
Proof.
  induction samples as [|x rest IH]; intros i db m n H; [exact H|].
  cbn [replay].
  set (m1 := mem_append m (s_load_total x) (s_load_l1 x) (s_load_l2 x)).
  pose proof (detect_edge_labels_auto cfg (clock i) db m1 (_smooth (recent_loads m1))
                (Some (s_load_l1 x)) (Some (s_load_l2 x)) (Some (s_timestamp x))
                H) as H'.
  destruct (detect_edge cfg (clock i) db m1 _ _ _ _) as [[ev db'] m']. now apply IH.
Qed.

Lemma rebuilt_ids_and_labels cfg clock db :
  (0 <= seq_signatures db)%Z ->
  NoDup (map sg_id (appliance_signatures (snd (fst (rebuilt cfg clock db))))) /\
  Forall (fun s => is_auto_label (user_label s) = true)
         (appliance_signatures (snd (fst (rebuilt cfg clock db)))).
Proof.
  intro H0. unfold rebuilt. cbn [fst snd appliance_signatures set_signatures].
  pose proof (replay_ids_ok cfg clock (samples_in_order (load_samples db)) 0%nat
                (clear_detections db) (initial_mem cfg) 0%nat
                (ids_ok_cleared db H0)) as (_ & _ & Hn).
  pose proof (replay_labels_auto cfg clock (samples_in_order (load_samples db)) 0%nat
                (clear_detections db) (initial_mem cfg) 0%nat) as Hl.
  split.
  - rewrite map_map. cbn [sg_id set_active]. exact Hn.
  - apply Forall_map. cbn [user_label set_active].
    apply (proj1 (Forall_map user_label (fun l => is_auto_label l = true) _)).
    apply Hl. constructor.
Qed.

Lemma reanalyze_rows cfg clock db m :
  (0 <= seq_signatures db)%Z ->
  appliance_signatures (snd (fst (reanalyze cfg clock db m))) =
  map (restore_one cfg (_save_user_labels db))
      (appliance_signatures (snd (fst (rebuilt cfg clock db)))).
Proof.
  intro H0. rewrite reanalyze_unfold.
  destruct (samples_in_order (load_samples db)) as [|x rest] eqn:E.
  - unfold rebuilt. rewrite E. reflexivity.
  - cbv zeta. cbn [fst snd]. apply restore_user_labels_rows.
    now apply rebuilt_ids_and_labels.
Qed.

(** C8, as stated, fails: "Fridge" (100 W) is a user label and the rebuilt
    108 W signature is within tolerance of it, yet the signature comes back
    as "Lamp" (110 W), the nearer of the two snapshot entries. *)
Lemma nearer_label_wins :
  let db' :=
    snd (fst (reanalyze default_config (fun _ => mkClock 0 0) store_two_named
                        (initial_mem default_config))) in
  In (100%Z, mkCustomization "Fridge" "❄️" "#22c55e")
     (_save_user_labels store_two_named) /\
  is_auto_label "Fridge" = false /\
  exists t,
    appliance_signatures db' = [t] /\
    power_avg t == 108 /\
    restorable default_config (saved_key t)
               (100%Z, mkCustomization "Fridge" "❄️" "#22c55e") = true /\
    user_label t = "Lamp"%string /\
    user_label t <> "Fridge"%string.
Proof.
  cbv zeta. split; [now left|]. split; [reflexivity|].
  eexists. split; [vm_compute; reflexivity|].
  split; [reflexivity|]. split; [reflexivity|]. split; [reflexivity|discriminate].
Qed.

Section RestoreSpec.
Variable cfg : Config.
Variable saved : SavedLabels.
Hypothesis keys_distinct : NoDup (map fst saved).

(** A restorable entry strictly nearer than every other restorable entry is
    the one chosen. *)
Lemma best_saved_nearest (p : Q) (k : Z) (c : Customization) :
  In (k, c) saved ->
  restorable cfg (round_half_even p) (k, c) = true ->
  (forall k' c',
      In (k', c') saved -> k' <> k ->
      restorable cfg (round_half_even p) (k', c') = true ->
      restore_diff (round_half_even p) k < restore_diff (round_half_even p) k') ->
  best_saved cfg saved p = Some c.
Proof.
  intros Hin Hok Hnear. rewrite best_saved_scan.
  pose proof (scan_first_best (restorable cfg (round_half_even p))
                (entry_diff (round_half_even p)) saved) as H.
  destruct (scan _ _ saved) as [[k0 c0]|]; cbn [option_map snd].
  - apply first_best_least in H. destruct H as (Hin0 & Hok0 & Hleast).
    destruct (Z.eq_dec k0 k) as [->|Hne].
    + apply (dict_get_In saved k c0 keys_distinct) in Hin0.
      apply (dict_get_In saved k c keys_distinct) in Hin. congruence.
    + specialize (Hnear k0 c0 Hin0 Hne Hok0).
      specialize (Hleast (k, c) Hin Hok). unfold entry_diff in Hleast.
      cbn [fst] in Hleast. exfalso. apply (Qlt_not_le _ _ Hnear Hleast).
  - cbn in H. specialize (H _ Hin). congruence.
Qed.

Lemma best_saved_spec (p : Q) :
  match best_saved cfg saved p with
  | Some c =>
      is_auto_label (c_label c) = false /\
      exists k l1 l2,
        saved = l1 ++ (k, c) :: l2 /\
        restore_diff (round_half_even p) k <= restore_tolerance cfg (round_half_even p) /\
        (forall k' c',
            In (k', c') l1 ->
            restorable cfg (round_half_even p) (k', c') = true ->
            restore_diff (round_half_even p) k < restore_diff (round_half_even p) k') /\
        (forall k' c',
            In (k', c') l2 ->
            restorable cfg (round_half_even p) (k', c') = true ->
            restore_diff (round_half_even p) k <= restore_diff (round_half_even p) k')
  | None =>
      forall k' c',
        In (k', c') saved -> restorable cfg (round_half_even p) (k', c') = false
  end.
Proof.
  rewrite best_saved_scan.
  pose proof (scan_first_best (restorable cfg (round_half_even p))
                (entry_diff (round_half_even p)) saved) as H.
  destruct (scan _ _ saved) as [[k c]|]; cbn [option_map snd].
  - destruct H as (l1 & l2 & Hl & Hok & Hbefore & Hafter).
    unfold restorable in Hok. apply andb_true_iff in Hok.
    destruct Hok as [Htol Hauto]. cbn [snd] in Hauto.
    apply negb_true_iff in Hauto. apply Qle_bool_iff in Htol.
    split; [exact Hauto|]. exists k, l1, l2.
    split; [exact Hl|]. split; [exact Htol|]. split.
    + intros k' c' Hin' Hok'. apply (Hbefore (k', c') Hin' Hok').
    + intros k' c' Hin' Hok'. apply (Hafter (k', c') Hin' Hok').
  - intros k' c' Hin'. apply (H _ Hin').
Qed.
End RestoreSpec.

(** C8 (amended).  After a reanalysis every rebuilt signature carries either
    its auto-suggested placeholder or the label, icon and color of a snapshot
    entry: the entry nearest to its rounded power among those within
    [max(rounded power * tolerance, edge threshold)] whose label is not a
    placeholder, the first in snapshot order among equally near ones.  The
    snapshot keeps one entry per rounded power, that of the
    last signature having it.  So a user label is restored onto a rebuilt
    signature within tolerance when its signature was the last of its rounded
    power and no other restorable entry is as near; a placeholder is never
    restored. *)
Theorem reanalyze_restores_nearest_label cfg clock db m :
  (0 <= seq_signatures db)%Z ->
  let saved := _save_user_labels db in
  let before := appliance_signatures (snd (fst (rebuilt cfg clock db))) in
  let after := appliance_signatures (snd (fst (reanalyze cfg clock db m))) in
  after = map (restore_one cfg saved) before /\
  Forall (fun t => is_auto_label (user_label t) = true) before /\
  (NoDup (map fst saved) /\
   forall k c,
     In (k, c) saved <->
     exists s, last_of_key k (appliance_signatures db) = Some s /\
               c = customization_of s) /\
  (forall t,
      match best_saved cfg saved (power_avg t) with
      | Some c =>
          is_auto_label (c_label c) = false /\
          exists k l1 l2,
            saved = l1 ++ (k, c) :: l2 /\
            restore_diff (saved_key t) k <= restore_tolerance cfg (saved_key t) /\
            (forall k' c',
                In (k', c') l1 ->
                restorable cfg (saved_key t) (k', c') = true ->
                restore_diff (saved_key t) k < restore_diff (saved_key t) k') /\
            (forall k' c',
                In (k', c') l2 ->
                restorable cfg (saved_key t) (k', c') = true ->
                restore_diff (saved_key t) k <= restore_diff (saved_key t) k')
      | None =>
          forall k' c',
            In (k', c') saved -> restorable cfg (saved_key t) (k', c') = false
      end) /\
  (forall s t,
      last_of_key (saved_key s) (appliance_signatures db) = Some s ->
      is_auto_label (user_label s) = false ->
      In t before ->
      restore_diff (saved_key t) (saved_key s) <= restore_tolerance cfg (saved_key t) ->
      (forall k' c',
          In (k', c') saved -> k' <> saved_key s ->
          restorable cfg (saved_key t) (k', c') = true ->
          restore_diff (saved_key t) (saved_key s) < restore_diff (saved_key t) k') ->
      In (set_display (user_label s) (icon s) (color s) t) after).
Proof.
  intros H0 saved before after.
  pose proof (save_user_labels_entries db) as (Hn & Hentries).
  fold saved in Hn, Hentries.
  assert (Hrows : after = map (restore_one cfg saved) before)
    by (apply reanalyze_rows; exact H0).
  split; [exact Hrows|].
  split; [apply rebuilt_ids_and_labels; exact H0|].
  split; [split; assumption|].
  split; [intro t; apply best_saved_spec|].
  intros s t Hlast Hcustom Hin Htol Hnear.
  rewrite Hrows. apply in_map_iff. exists t. split; [|exact Hin].
  unfold restore_one.
  rewrite (best_saved_nearest cfg saved Hn (power_avg t) (saved_key s)
             (customization_of s)).
  - reflexivity.
  - apply Hentries. now exists s.
  - unfold restorable, entry_diff. cbn [fst snd c_label customization_of].
    rewrite Hcustom. apply andb_true_iff. split; [|reflexivity].
    apply Qle_bool_iff. exact Htol.
  - exact Hnear.
Qed.

Lemma reanalyze_restores_nearest_label_witness :
  map user_label
      (appliance_signatures
         (snd (fst (reanalyze default_config (fun _ => mkClock 0 0) store_two_named
                              (initial_mem default_config)))))
  = map user_label
      (map (restore_one default_config (_save_user_labels store_two_named))
           (appliance_signatures
              (snd (fst (rebuilt default_config (fun _ => mkClock 0 0)
                                 store_two_named)))))
  /\ (0 <= seq_signatures store_two_named)%Z.
Proof.
  assert (H0 : (0 <= seq_signatures store_two_named)%Z) by (vm_compute; discriminate).
  split; [|exact H0].
  destruct (reanalyze_restores_nearest_label default_config (fun _ => mkClock 0 0)
              store_two_named (initial_mem default_config) H0) as (H & _).
  now rewrite H.
Defined.

(** ** C6: the signature invariant *)

(** *** Rounding is monotone and fixes what is already rounded *)

Lemma round_half_even_comp (x y : Q) :
  x == y -> round_half_even x = round_half_even y.
Proof.
  intro H. unfold round_half_even.
  rewrite (Qfloor_comp x y H).
  assert (E : Qcompare (x - inject_Z (Qfloor y)) (1 # 2)
              = Qcompare (y - inject_Z (Qfloor y)) (1 # 2))
    by (now rewrite H).
  now rewrite E.
Qed.

Lemma round_half_even_Z (z : Z) : round_half_even (inject_Z z) = z.
Proof.
  unfold round_half_even. rewrite Qfloor_Z.
  assert (E : Qcompare (inject_Z z - inject_Z z) (1 # 2) = Lt).
  { apply Qlt_alt. setoid_replace (inject_Z z - inject_Z z) with 0 by ring.
    reflexivity. }
  now rewrite E.
Qed.

Lemma round_half_even_mono (x y : Q) :
  x <= y -> (round_half_even x <= round_half_even y)%Z.
Proof.
  intro H.
  destruct (Z_le_gt_dec (round_half_even x) (round_half_even y)) as [L|G];
    [exact L|exfalso].
  pose proof (round_half_even_close x) as Hx.
  pose proof (round_half_even_close y) as Hy.
  apply Qabs_Qle_condition in Hx, Hy.
  assert (G' : inject_Z (round_half_even y) + 1 <= inject_Z (round_half_even x)).
  { change 1 with (inject_Z 1). rewrite <- inject_Z_plus, <- Zle_Qle. lia. }
  assert (E : x == y) by (apply Qle_antisym; lra).
  apply round_half_even_comp in E. lia.
Qed.

Lemma py_round_mono (x y : Q) (n : nat) :
  x <= y -> py_round x n <= py_round y n.
Proof.
  intro H. unfold py_round. pose proof (pow10_pos n) as Hp.
  unfold Qdiv. apply Qmult_le_compat_r;
    [|apply Qlt_le_weak, Qinv_lt_0_compat; exact Hp].
  rewrite <- Zle_Qle. apply round_half_even_mono.
  apply Qmult_le_compat_r; [exact H | apply Qlt_le_weak; exact Hp].
Qed.

Lemma py_round_idem (x : Q) (n : nat) :
  py_round (py_round x n) n == py_round x n.
Proof.
  unfold py_round at 1. pose proof (pow10_pos n) as Hp.
  assert (E : py_round x n * pow10 n == inject_Z (round_half_even (x * pow10 n))).
  { unfold py_round. field. intro Hz. rewrite Hz in Hp. apply (Qlt_irrefl 0 Hp). }
  rewrite (round_half_even_comp _ _ E), round_half_even_Z. reflexivity.
Qed.

(** *** What the engine maintains *)

Lemma sig_inv_signature_ok (s : Signature) : sig_inv s -> signature_ok s.
Proof.
  intros ((H1 & H2 & _) & H3 & H4). repeat split; assumption.
Qed.

Lemma one_decimal_power_delta (delta : Q) : one_decimal (py_round (Qabs delta) 1).
Proof. apply py_round_idem. Qed.

Lemma py_round_comp (x y : Q) (n : nat) : x == y -> py_round x n == py_round y n.
Proof.
  intro H. unfold py_round.
  assert (E : x * pow10 n == y * pow10 n) by (now rewrite H).
  now rewrite (round_half_even_comp _ _ E).
Qed.

Lemma one_decimal_comp (x y : Q) : x == y -> one_decimal x -> one_decimal y.
Proof.
  unfold one_decimal. intros E H.
  rewrite <- (py_round_comp x y 1 E), H. exact E.
Qed.

Lemma one_decimal_min (a b : Q) :
  one_decimal a -> one_decimal b -> one_decimal (Qmin a b).
Proof.
  intros Ha Hb. destruct (Q.min_dec a b) as [E|E].
  - apply (one_decimal_comp a); [now symmetry | exact Ha].
  - apply (one_decimal_comp b); [now symmetry | exact Hb].
Qed.

Lemma one_decimal_max (a b : Q) :
  one_decimal a -> one_decimal b -> one_decimal (Qmax a b).
Proof.
  intros Ha Hb. destruct (Q.max_dec a b) as [E|E].
  - apply (one_decimal_comp a); [now symmetry | exact Ha].
  - apply (one_decimal_comp b); [now symmetry | exact Hb].
Qed.

(** The running average stays between the old average and the new value. *)
Lemma running_average_between (avg pd lo hi : Q) (cnt : Z) :
  (0 <= cnt)%Z -> lo <= avg -> lo <= pd -> avg <= hi -> pd <= hi ->
  lo <= (avg * inject_Z cnt + pd) / inject_Z (cnt + 1) /\
  (avg * inject_Z cnt + pd) / inject_Z (cnt + 1) <= hi.
Proof.
  intros Hc H1 H2 H3 H4.
  rewrite inject_Z_plus. change (inject_Z 1) with 1.
  assert (C : 0 <= inject_Z cnt) by (change 0 with (inject_Z 0); now rewrite <- Zle_Qle).
  set (c := inject_Z cnt) in *.
  assert (Hlo : 0 <= (avg - lo) * c) by (apply Qmult_le_0_compat; lra).
  assert (Hhi : 0 <= (hi - avg) * c) by (apply Qmult_le_0_compat; lra).
  split.
  - apply Qle_shift_div_l; lra.
  - apply Qle_shift_div_r; lra.
Qed.

Lemma update_signature_power_ok (row : Signature) (pd : Q) :
  power_ok (power_avg row) (power_min row) (power_max row) (event_count row) ->
  one_decimal pd ->
  power_ok
    (py_round ((power_avg row * inject_Z (event_count row) + pd)
               / inject_Z (event_count row + 1)) 1)
    (Qmin (power_min row) pd) (Qmax (power_max row) pd) (event_count row + 1).
Proof.
  intros (H1 & H2 & Hc & Hmn & Hmx) Hpd.
  pose proof (Q.le_min_l (power_min row) pd) as A1.
  pose proof (Q.le_min_r (power_min row) pd) as A2.
  pose proof (Q.le_max_l (power_max row) pd) as B1.
  pose proof (Q.le_max_r (power_max row) pd) as B2.
  destruct (running_average_between (power_avg row) pd
              (Qmin (power_min row) pd) (Qmax (power_max row) pd)
              (event_count row) Hc) as (Hlo & Hhi); try lra.
  pose proof (one_decimal_min _ _ Hmn Hpd) as Dmin.
  pose proof (one_decimal_max _ _ Hmx Hpd) as Dmax.
  unfold one_decimal in Dmin, Dmax.
  split; [|split; [|split; [lia|split; assumption]]].
  - apply (Qle_trans _ (py_round (Qmin (power_min row) pd) 1));
      [rewrite Dmin; apply Qle_refl | now apply py_round_mono].
  - apply (Qle_trans _ (py_round (Qmax (power_max row) pd) 1));
      [now apply py_round_mono | rewrite Dmax; apply Qle_refl].
Qed.

Lemma update_sig_rows_Forall (P : Signature -> Prop) (id : Z)
    (f : Signature -> Signature) (l : list Signature) :
  Forall P l ->
  (forall s, In s l -> sg_id s = id -> P (f s)) ->
  Forall P (update_sig_rows id f l).
Proof.
  intros H Hf. apply Forall_forall. intros x Hx.
  apply in_map_iff in Hx. destruct Hx as (s & <- & Hs).
  rewrite Forall_forall in H.
  destruct (sg_id s =? id)%Z eqn:E; [|now apply H].
  apply Hf; [exact Hs | now apply Z.eqb_eq].
Qed.

Lemma same_id_same_row (l : list Signature) (s s' : Signature) :
  NoDup (map sg_id l) -> In s l -> In s' l -> sg_id s = sg_id s' -> s = s'.
Proof.
  induction l as [|x l IH]; cbn [map In]; intros Hn Hs Hs' E; [contradiction|].
  inversion Hn as [|? ? Hnot Hrest]; subst.
  destruct Hs as [->|Hs], Hs' as [->|Hs']; auto.
  - exfalso. apply Hnot. rewrite E. now apply in_map.
  - exfalso. apply Hnot. rewrite <- E. now apply in_map.
Qed.

Lemma store_inv_update_sig (db : Store) (id : Z) (f : Signature -> Signature) :
  store_inv db ->
  (forall s, sg_id (f s) = sg_id s) ->
  (forall s, In s (appliance_signatures db) -> sg_id s = id -> sig_inv (f s)) ->
  store_inv (update_sig db id f).
Proof.
  intros ((H0 & Hb & Hn) & Hall) Hid Hf.
  assert (E : map sg_id (update_sig_rows id f (appliance_signatures db))
              = map sg_id (appliance_signatures db)).
  { unfold update_sig_rows. rewrite map_map. apply map_ext.
    intro x. destruct (sg_id x =? id)%Z; [apply Hid | reflexivity]. }
  split.
  - unfold ids_ok. cbn [update_sig set_signatures appliance_signatures seq_signatures].
    rewrite E. auto.
  - cbn [update_sig set_signatures appliance_signatures].
    now apply update_sig_rows_Forall.
Qed.

Lemma create_signature_inv db pd leg :
  store_inv db -> one_decimal pd -> store_inv (snd (create_signature db pd leg)).
Proof.
  intros (Hok & Hall) Hpd. split; [now apply create_signature_ids_ok|].
  unfold create_signature. cbn [snd appliance_signatures].
  apply Forall_app. split; [exact Hall|]. constructor; [|constructor].
  repeat split; cbn; try apply Qle_refl; try assumption; try lia.
Qed.

Lemma update_signature_inv db id pd :
  store_inv db -> one_decimal pd -> store_inv (update_signature db id pd).
Proof.
  intros H Hpd. unfold update_signature.
  destruct (get_signature db id) as [row|] eqn:E; [|exact H].
  apply store_inv_update_sig; [exact H | reflexivity |].
  intros s Hs _. destruct H as (_ & Hall). rewrite Forall_forall in Hall.
  apply find_some in E. destruct E as [Hrow _].
  split.
  - apply update_signature_power_ok; [apply Hall; exact Hrow | exact Hpd].
  - apply (Hall s Hs).
Qed.

Lemma resolve_signature_inv cfg db pd leg :
  store_inv db -> one_decimal pd ->
  store_inv (snd (resolve_signature cfg db pd leg)).
Proof.
  intros H Hpd. unfold resolve_signature.
  destruct (find_matching_signature cfg db pd leg) as [id|];
    [|now apply create_signature_inv].
  destruct (id =? 0)%Z; [now apply create_signature_inv|].
  now apply update_signature_inv.
Qed.

Lemma store_inv_update_sig_neutral (db : Store) (id : Z)
    (f : Signature -> Signature) :
  store_inv db ->
  (forall s, sg_id (f s) = sg_id s) ->
  (forall s, sig_inv s -> sig_inv (f s)) ->
  store_inv (update_sig db id f).
Proof.
  intros H Hid Hf. apply store_inv_update_sig; [exact H | exact Hid |].
  intros s Hs _. apply Hf. destruct H as (_ & Hall).
  rewrite Forall_forall in Hall. now apply Hall.
Qed.

Lemma avg_duration_inv db sid d :
  store_inv db -> store_inv (_update_avg_duration db sid d).
Proof.
  intro H. unfold _update_avg_duration.
  destruct (get_signature db sid); [|exact H].
  now apply store_inv_update_sig_neutral.
Qed.

Lemma pair_on_off_event_inv cfg db sid ts pd :
  store_inv db -> store_inv (snd (pair_on_off_event cfg db sid ts pd)).
Proof.
  intro H. unfold pair_on_off_event.
  destruct (pairing_choice cfg db sid ts pd) as [[on_id on_ts]|]; cbn [snd];
    [|exact H].
  apply avg_duration_inv. exact H.
Qed.

Lemma daily_stats_inv clk db sid pd d :
  store_inv db -> store_inv (_update_daily_stats clk db sid pd d).
Proof.
  intro H. unfold _update_daily_stats, _update_daily_cycles.
  destruct (avg_cycles _) as [a|]; [|exact H].
  destruct (Qeq_bool a 0); [exact H|].
  apply store_inv_update_sig_neutral; [exact H | reflexivity | auto].
Qed.

Lemma set_active_off_inv (s : Signature) : sig_inv s -> sig_inv (set_active false 0 s).
Proof.
  intros (Hp & _). split; [exact Hp|]. split; cbn; lia.
Qed.

Lemma set_active_count_inv (s : Signature) (n : Z) :
  sig_inv s -> is_active s = true -> (0 <= n)%Z -> sig_inv (set_active_count n s).
Proof.
  intros (Hp & _) Ha Hn. split; [exact Hp|]. split; cbn; auto.
Qed.

Lemma decrement_similar_inv cfg pd (rows : list Signature) : forall db,
  store_inv db ->
  (forall o, In o rows -> In o (appliance_signatures db) /\ is_active o = true) ->
  store_inv (decrement_similar cfg pd rows db).
Proof.
  induction rows as [|other rest IH]; intros db H Hrows; cbn [decrement_similar];
    [exact H|].
  destruct (Qle_bool _ _); [|apply IH; [exact H | intros o Ho; apply Hrows; now right]].
  destruct (Hrows other (or_introl eq_refl)) as (Hin & Hact).
  destruct (_ <=? 0)%Z eqn:E.
  - apply store_inv_update_sig_neutral;
      [exact H | reflexivity | apply set_active_off_inv].
  - apply Z.leb_gt in E.
    apply store_inv_update_sig; [exact H | reflexivity |].
    intros s Hs Hid. pose proof H as ((_ & _ & Hn) & Hall).
    rewrite Forall_forall in Hall.
    assert (s = other) by (now apply (same_id_same_row _ _ _ Hn Hs Hin)).
    subst s. apply set_active_count_inv; [now apply Hall | exact Hact | lia].
Qed.

Lemma active_state_inv cfg db sid ty ts pd :
  store_inv db -> store_inv (_update_signature_active_state cfg db sid ty ts pd).
Proof.
  intro H. pose proof H as ((_ & _ & Hn) & Hall). rewrite Forall_forall in Hall.
  assert (Hfallback :
            store_inv
              (if Qltb 0 pd
               then decrement_similar cfg pd
                      (filter is_active (appliance_signatures db)) db
               else db)).
  { destruct (Qltb 0 pd); [|exact H].
    apply decrement_similar_inv; [exact H|].
    intros o Ho. now apply filter_In in Ho. }
  unfold _update_signature_active_state. destruct ty.
  - apply store_inv_update_sig; [exact H | reflexivity |].
    intros s Hs _. destruct (Hall s Hs) as (Hp & _). split; [exact Hp|].
    assert (Hc : (0 <= match get_signature db sid with
                       | Some s0 => active_count s0
                       | None => 0
                       end)%Z).
    { destruct (get_signature db sid) as [s0|] eqn:E; [|lia].
      apply find_some in E. destruct E as [Hin _]. apply (Hall s0 Hin). }
    split; cbn; [lia | reflexivity].
  - destruct (find _ (appliance_signatures db)) as [s0|] eqn:E; [|exact Hfallback].
    destruct (0 <? active_count s0)%Z eqn:Epos; [|exact Hfallback].
    apply find_some in E. destruct E as [Hin0 Hp0].
    apply andb_true_iff in Hp0. destruct Hp0 as [Hid0 Hact0].
    apply Z.eqb_eq in Hid0. apply Z.ltb_lt in Epos.
    destruct (_ <=? 0)%Z eqn:Enew.
    + apply store_inv_update_sig_neutral;
        [exact H | reflexivity | apply set_active_off_inv].
    + apply Z.leb_gt in Enew.
      apply store_inv_update_sig; [exact H | reflexivity |].
      intros s Hs Hid.
      assert (s = s0) by (apply (same_id_same_row _ _ _ Hn Hs Hin0); congruence).
      subst s. apply set_active_count_inv; [now apply Hall | exact Hact0 | lia].
Qed.

Lemma store_event_inv cfg clk db ts ty pd leg d sid conf :
  store_inv db -> store_inv (store_event cfg clk db ts ty pd leg d sid conf).
Proof.
  intro H. unfold store_event.
  match goal with
  | |- context [_update_signature_active_state cfg ?db3 sid ty ts pd] =>
      assert (Hact : store_inv (_update_signature_active_state cfg db3 sid ty ts pd))
        by (apply active_state_inv; exact H)
  end.
  destruct ty; [exact Hact|].
  destruct d as [d0|]; [|exact Hact].
  destruct (d0 =? 0)%Z; [exact Hact|].
  now apply daily_stats_inv.
Qed.

Lemma record_edge_inv cfg clk db delta raw l1 l2 ots :
  store_inv db -> store_inv (snd (record_edge cfg clk db delta raw l1 l2 ots)).
Proof.
  intro H. unfold record_edge.
  pose proof (resolve_signature_inv cfg db (py_round (Qabs delta) 1)
                (classify_leg l1 l2) H (one_decimal_power_delta delta)) as H1.
  destruct (resolve_signature cfg db _ _) as [sid db1]. cbn [snd] in *.
  destruct (Qltb 0 delta).
  - cbn [snd]. now apply store_event_inv.
  - pose proof (pair_on_off_event_inv cfg db1 sid
                  (match ots with Some t => t | None => datetime_now clk end)
                  (py_round (Qabs delta) 1) H1) as H2.
    destruct (pair_on_off_event cfg db1 sid _ _) as [d db2]. cbn [snd] in *.
    now apply store_event_inv.
Qed.

Lemma detect_edge_inv cfg clk db m s l1 l2 ots :
  store_inv db -> store_inv (snd (fst (detect_edge cfg clk db m s l1 l2 ots))).
Proof.
  intro H. unfold detect_edge.
  destruct (stable_level m) as [level|]; [|exact H].
  destruct (Qltb _ (EDGE_THRESHOLD cfg)); [exact H|].
  destruct (Qltb _ (DEBOUNCE_SECONDS cfg)); [exact H|].
  pose proof (record_edge_inv cfg clk db (raw_current m s - level) (raw_current m s)
                l1 l2 ots H) as H1.
  destruct (record_edge cfg clk db _ _ l1 l2 ots) as [ev db']. exact H1.
Qed.

Lemma replay_inv cfg clock (samples : list Sample) : forall i db m n,
  store_inv db -> store_inv (snd (fst (replay cfg clock i samples db m n))).
Proof.
  induction samples as [|x rest IH]; intros i db m n H; [exact H|].
  cbn [replay].
  set (m1 := mem_append m (s_load_total x) (s_load_l1 x) (s_load_l2 x)).
  pose proof (detect_edge_inv cfg (clock i) db m1 (_smooth (recent_loads m1))
                (Some (s_load_l1 x)) (Some (s_load_l2 x)) (Some (s_timestamp x))
                H) as H'.
  destruct (detect_edge cfg (clock i) db m1 _ _ _ _) as [[ev db'] m']. now apply IH.
Qed.

Lemma deactivate_all_inv (db : Store) :
  store_inv db ->
  store_inv (set_signatures db (map (set_active false 0) (appliance_signatures db))).
Proof.
  intros ((H0 & Hb & Hn) & Hall). split.
  - unfold ids_ok. cbn [set_signatures appliance_signatures seq_signatures].
    rewrite map_map. cbn [sg_id set_active]. auto.
  - cbn [set_signatures appliance_signatures]. apply Forall_map.
    eapply Forall_impl; [|exact Hall]. intros s. apply set_active_off_inv.
Qed.

Lemma startup_inv (db : Store) : store_inv db -> store_inv (snd (startup db)).
Proof.
  intro H. exact (deactivate_all_inv db H).
Qed.

Lemma restore_user_labels_inv cfg saved (l : list Signature) : forall db,
  store_inv db ->
  store_inv
    (fold_left
       (fun db' s =>
          match best_saved cfg saved (power_avg s) with
          | Some c => update_sig db' (sg_id s)
                        (set_display (c_label c) (c_icon c) (c_color c))
          | None => db'
          end) l db).
Proof.
  induction l as [|s l IH]; intros db H; [exact H|].
  cbn [fold_left]. apply IH.
  destruct (best_saved cfg saved (power_avg s)) as [c|]; [|exact H].
  apply store_inv_update_sig_neutral; [exact H | reflexivity | auto].
Qed.

Lemma reanalyze_inv cfg clock db m :
  (0 <= seq_signatures db)%Z ->
  store_inv (snd (fst (reanalyze cfg clock db m))).
Proof.
  intro H0.
  assert (Hclear : store_inv (clear_detections db))
    by (split; [now apply ids_ok_cleared | constructor]).
  rewrite reanalyze_unfold.
  destruct (samples_in_order (load_samples db)) as [|x rest] eqn:E; [exact Hclear|].
  cbv zeta. cbn [fst snd]. unfold _restore_user_labels.
  apply restore_user_labels_inv. unfold rebuilt. cbn [fst snd].
  apply deactivate_all_inv. now apply replay_inv.
Qed.

(** Every operation of the engine other than [merge_signatures] keeps the
    invariant: an ingested reading ([detect_edge], which covers signature
    creation, the matching update and the active-state update on "on" and
    "off"), [startup], and a reanalysis, which establishes it. *)
Theorem engine_keeps_signature_invariant (cfg : Config) :
  (forall db, store_inv db -> Forall signature_ok (appliance_signatures db)) /\
  (forall clk db m s l1 l2 ots,
      store_inv db ->
      store_inv (snd (fst (detect_edge cfg clk db m s l1 l2 ots)))) /\
  (forall db, store_inv db -> store_inv (snd (startup db))) /\
  (forall clock db m,
      (0 <= seq_signatures db)%Z ->
      store_inv (snd (fst (reanalyze cfg clock db m)))).
Proof.
  split; [|split; [|split]].
  - intros db (_ & H). eapply Forall_impl; [|exact H].
    intro s. apply sig_inv_signature_ok.
  - intros. now apply detect_edge_inv.
  - intros. now apply startup_inv.
  - intros. now apply reanalyze_inv.
Qed.

(** C6 (the code departs from it).  Merging the 140 W cluster into the 100 W
    cluster, in a store that satisfies the invariant, leaves a signature whose
    average 126.7 lies above its recorded maximum 100: [merge_signatures]
    recomputes the average and the count but not the range. *)
Theorem merge_breaks_power_range :
  store_inv store_two_clusters /\
  Forall signature_ok (appliance_signatures store_two_clusters) /\
  fst (merge_signatures store_two_clusters 1 2) = Returned true /\
  exists s,
    appliance_signatures (snd (merge_signatures store_two_clusters 1 2)) = [s] /\
    power_avg s == 1267 # 10 /\ power_max s == 100 /\
    ~ signature_ok s.
Proof.
  assert (H : store_inv store_two_clusters).
  { split.
    - split; [vm_compute; discriminate|]. split.
      + repeat constructor; vm_compute; discriminate.
      + repeat constructor; cbn; intuition discriminate.
    - repeat constructor; try (vm_compute; discriminate); try reflexivity. }
  split; [exact H|]. split.
  - destruct H as (_ & H). eapply Forall_impl; [|exact H].
    intro s. apply sig_inv_signature_ok.
  - split; [reflexivity|].
    eexists. split; [reflexivity|]. split; [reflexivity|]. split; [reflexivity|].
    intros (_ & Hmax & _). vm_compute in Hmax. now apply Hmax.
Qed.

(** * Further properties of the engine *)

(** ** The detector's two states *)

Lemma detect_edge_seeded cfg clk db m s l1 l2 ots :
  stable_level (snd (detect_edge cfg clk db m s l1 l2 ots)) <> None.
Proof.
  unfold detect_edge.
  destruct (stable_level m) as [level|] eqn:E; [|discriminate].
  destruct (Qltb _ (EDGE_THRESHOLD cfg)); [discriminate|].
  destruct (Qltb _ (DEBOUNCE_SECONDS cfg)); [cbn [snd]; congruence|].
  destruct (record_edge cfg clk db _ _ l1 l2 ots). discriminate.
Qed.

Lemma tick_seeded cfg st r : stable_level (snd (snd (tick cfg st r))) <> None.
Proof.
  unfold tick.
  destruct (store_load_sample _ _ _ _ _ _) as [[smoothed db1] m1].
  pose proof (detect_edge_seeded cfg (rd_clock r) db1 m1 smoothed (rd_l1 r)
                (rd_l2 r) None) as H.
  destruct (detect_edge cfg (rd_clock r) db1 m1 smoothed _ _ None) as [[ev db2] m2].
  exact H.
Qed.

Lemma run_ticks_seeded cfg (rs : list Reading) : forall st,
  rs <> [] -> stable_level (snd (snd (run_ticks cfg st rs))) <> None.
Proof.
  induction rs as [|r rest IH]; intros st Hne; [congruence|].
  cbn [run_ticks].
  pose proof (tick_seeded cfg st r) as Ht.
  destruct (tick cfg st r) as [ev st1].
  destruct rest as [|r' rest'].
  - cbn [run_ticks snd] in *. exact Ht.
  - specialize (IH st1 ltac:(discriminate)).
    destruct (run_ticks cfg st1 (r' :: rest')) as [evs st2]. exact IH.
Qed.

(** X1.  The detector is seeded by its first call and never unseeded
    again: a call in the Unseeded state emits nothing, leaves the store
    alone and takes the smoothed value as baseline; after any call, and after
    any non-empty run of delivered readings, a baseline is set. *)
Theorem detector_seeds_once (cfg : Config) :
  (forall clk db m s l1 l2 ots,
      stable_level m = None ->
      detect_edge cfg clk db m s l1 l2 ots =
        (None, db, set_stable_level m (Some s))) /\
  (forall clk db m s l1 l2 ots,
      stable_level (snd (detect_edge cfg clk db m s l1 l2 ots)) <> None) /\
  (forall st rs,
      rs <> [] -> stable_level (snd (snd (run_ticks cfg st rs))) <> None).
Proof.
  split; [|split].
  - intros clk db m s l1 l2 ots H. unfold detect_edge. now rewrite H.
  - intros. apply detect_edge_seeded.
  - intros. now apply run_ticks_seeded.
Qed.

(** ** Debounce *)

Lemma detect_edge_stamps_edge_time cfg clk db m s l1 l2 ots ev db' m' :
  detect_edge cfg clk db m s l1 l2 ots = (Some ev, db', m') ->
  last_event_time m' = edge_time clk ots /\
  stable_level m' = Some (raw_current m s).
Proof.
  unfold detect_edge.
  destruct (stable_level m) as [level|]; [|discriminate].
  destruct (Qltb _ (EDGE_THRESHOLD cfg)); [discriminate|].
  destruct (Qltb _ (DEBOUNCE_SECONDS cfg)); [discriminate|].
  destruct (record_edge cfg clk db _ _ l1 l2 ots) as [ev0 db0].
  intro H. inversion H; subst. split; reflexivity.
Qed.

Lemma detect_edge_debounced cfg clk db m s l1 l2 ots :
  edge_time clk ots - last_event_time m < DEBOUNCE_SECONDS cfg ->
  fst (detect_edge cfg clk db m s l1 l2 ots) = (None, db).
Proof.
  intro H. unfold detect_edge.
  destruct (stable_level m) as [level|]; [|reflexivity].
  destruct (Qltb _ (EDGE_THRESHOLD cfg)); [reflexivity|].
  apply Qltb_lt in H. unfold edge_time in H. rewrite H. reflexivity.
Qed.

(** X2.  An accepted edge stamps its time as the last event time, and any
    call whose time is less than the debounce interval after the last
    accepted edge returns no event and does not touch the store, however
    large the step it sees.  So of two calls less than the debounce interval
    apart, the second returns nothing when the first returned an event, and
    leaves the store as the first left it. *)
Theorem debounce_suppresses_edges (cfg : Config) :
  (forall clk db m s l1 l2 ots ev db' m',
      detect_edge cfg clk db m s l1 l2 ots = (Some ev, db', m') ->
      last_event_time m' = edge_time clk ots) /\
  (forall clk db m s l1 l2 ots,
      edge_time clk ots - last_event_time m < DEBOUNCE_SECONDS cfg ->
      fst (detect_edge cfg clk db m s l1 l2 ots) = (None, db)) /\
  (forall clk db m s l1 l2 ots ev db' m' clk2 s2 l1' l2' ots2,
      detect_edge cfg clk db m s l1 l2 ots = (Some ev, db', m') ->
      edge_time clk2 ots2 - edge_time clk ots < DEBOUNCE_SECONDS cfg ->
      fst (detect_edge cfg clk2 db' m' s2 l1' l2' ots2) = (None, db')).
Proof.
  split; [|split].
  - intros clk db m s l1 l2 ots ev db' m' H.
    now apply (detect_edge_stamps_edge_time cfg clk db m s l1 l2 ots ev db' m').
  - intros. now apply detect_edge_debounced.
  - intros clk db m s l1 l2 ots ev db' m' clk2 s2 l1' l2' ots2 H Hd.
    apply detect_edge_debounced.
    destruct (detect_edge_stamps_edge_time cfg clk db m s l1 l2 ots ev db' m' H) as (-> & _).
    exact Hd.
Qed.

(** A step of 150 W accepted at second 100010, then a step back seen five
    seconds later: suppressed. *)
Lemma debounce_suppresses_edges_witness :
  fst (detect_edge default_config (mkClock 0 0) store_fridge_on
         (mkMem (mkDeque [250; 100] 3) (mkDeque [] 3) (mkDeque [] 3)
                (Some 250) (inject_Z 100010))
         175 None None (Some 100015%Z))
  = (None, store_fridge_on).
Proof.
  apply (proj1 (proj2 (debounce_suppresses_edges default_config))).
  reflexivity.
Defined.

(** ** What an accepted edge records *)

Lemma seq_events_update_sig db id f : seq_events (update_sig db id f) = seq_events db.
Proof. reflexivity. Qed.

Lemma decrement_similar_seq_events cfg pd rows : forall db,
  seq_events (decrement_similar cfg pd rows db) = seq_events db.
Proof.
  induction rows as [|o rows IH]; intro db; cbn [decrement_similar]; [reflexivity|].
  destruct (Qle_bool _ _); [|apply IH].
  destruct (_ <=? 0)%Z; reflexivity.
Qed.

Lemma active_state_seq_events cfg db sid ty ts pd :
  seq_events (_update_signature_active_state cfg db sid ty ts pd) = seq_events db.
Proof.
  unfold _update_signature_active_state. destruct ty; [reflexivity|].
  destruct (find _ _) as [s|].
  - destruct (0 <? active_count s)%Z.
    + destruct (_ <=? 0)%Z; reflexivity.
    + destruct (Qltb 0 pd); [apply decrement_similar_seq_events | reflexivity].
  - destruct (Qltb 0 pd); [apply decrement_similar_seq_events | reflexivity].
Qed.

Lemma daily_stats_seq_events clk db sid pd d :
  seq_events (_update_daily_stats clk db sid pd d) = seq_events db.
Proof.
  unfold _update_daily_stats, _update_daily_cycles.
  destruct (avg_cycles _) as [a|]; [|reflexivity].
  destruct (Qeq_bool a 0); reflexivity.
Qed.

Lemma store_event_appends cfg clk db ts ty pd leg d sid conf :
  load_events (store_event cfg clk db ts ty pd leg d sid conf) =
    load_events db ++ [mkEvent (seq_events db + 1) ts ty pd leg d sid conf] /\
  seq_events (store_event cfg clk db ts ty pd leg d sid conf) = (seq_events db + 1)%Z.
Proof.
  unfold store_event. destruct ty.
  - now rewrite active_state_events, active_state_seq_events.
  - destruct d as [d0|].
    + destruct (d0 =? 0)%Z.
      * now rewrite active_state_events, active_state_seq_events.
      * now rewrite daily_stats_events, daily_stats_seq_events,
          active_state_events, active_state_seq_events.
    + now rewrite active_state_events, active_state_seq_events.
Qed.

Lemma resolve_signature_events cfg db pd leg :
  load_events (snd (resolve_signature cfg db pd leg)) = load_events db /\
  seq_events (snd (resolve_signature cfg db pd leg)) = seq_events db.
Proof.
  unfold resolve_signature.
  assert (Hu : forall id, load_events (update_signature db id pd) = load_events db /\
                          seq_events (update_signature db id pd) = seq_events db).
  { intro id. unfold update_signature. destruct (get_signature db id); now split. }
  destruct (find_matching_signature cfg db pd leg) as [id|]; [|now split].
  destruct (id =? 0)%Z; [now split | apply Hu].
Qed.

Lemma pair_on_off_event_events cfg db sid ts pd :
  length (load_events (snd (pair_on_off_event cfg db sid ts pd))) =
    length (load_events db) /\
  seq_events (snd (pair_on_off_event cfg db sid ts pd)) = seq_events db.
Proof.
  unfold pair_on_off_event.
  destruct (pairing_choice cfg db sid ts pd) as [[on_id on_ts]|]; cbn [snd];
    [|now split].
  unfold _update_avg_duration.
  destruct (get_signature _ sid);
    cbn [load_events seq_events update_sig set_signatures set_events];
    unfold set_event_duration; now rewrite length_map.
Qed.

Lemma confidence_of_bounds (pd : Q) :
  1 # 2 <= confidence_of pd /\ confidence_of pd <= 1.
Proof.
  unfold confidence_of.
  set (c := Qmax (5 # 10) (Qmin 1 ((5 # 10) + pd / 400))).
  assert (Hlo : 5 # 10 <= c) by apply Q.le_max_l.
  assert (Hhi : c <= 1).
  { apply Q.max_lub; [discriminate | apply Q.le_min_l]. }
  split.
  - apply (Qle_trans _ (py_round (5 # 10) 2)); [discriminate|].
    now apply py_round_mono.
  - apply (Qle_trans _ (py_round 1 2)); [|discriminate].
    now apply py_round_mono.
Qed.

Lemma power_delta_nonneg (delta : Q) : 0 <= py_round (Qabs delta) 1.
Proof.
  apply (Qle_trans _ (py_round 0 1)); [discriminate|].
  apply py_round_mono, Qabs_nonneg.
Qed.

Lemma record_edge_record cfg clk db delta raw l1 l2 ots :
  let r := record_edge cfg clk db delta raw l1 l2 ots in
  let ev := fst r in
  ed_event_type ev = (if Qltb 0 delta then EvOn else EvOff) /\
  ed_power_delta ev = py_round (Qabs delta) 1 /\
  ed_leg ev = classify_leg l1 l2 /\
  ed_timestamp ev = match ots with Some ts => ts | None => datetime_now clk end /\
  ed_confidence ev = confidence_of (py_round (Qabs delta) 1) /\
  seq_events (snd r) = (seq_events db + 1)%Z /\
  exists evs,
    length evs = length (load_events db) /\
    load_events (snd r) =
      evs ++ [mkEvent (seq_events db + 1) (ed_timestamp ev) (ed_event_type ev)
                      (ed_power_delta ev) (ed_leg ev) (ed_duration ev)
                      (ed_signature_id ev) (ed_confidence ev)].
Proof.
  cbv zeta. unfold record_edge.
  destruct (resolve_signature_events cfg db (py_round (Qabs delta) 1)
              (classify_leg l1 l2)) as (He1 & Hs1).
  destruct (resolve_signature cfg db _ _) as [sid db1]. cbn [snd] in *.
  set (ts := match ots with Some t => t | None => datetime_now clk end).
  set (pd := py_round (Qabs delta) 1).
  assert (Hpair : forall ty,
            let p := match ty with
                     | EvOff => pair_on_off_event cfg db1 sid ts pd
                     | EvOn => (None, db1)
                     end in
            length (load_events (snd p)) = length (load_events db) /\
            seq_events (snd p) = seq_events db).
  { intros [|]; cbn [snd].
    - now rewrite He1, Hs1.
    - destruct (pair_on_off_event_events cfg db1 sid ts pd) as (A & B).
      now rewrite A, B, He1, Hs1. }
  specialize (Hpair (if Qltb 0 delta then EvOn else EvOff)). cbv zeta in Hpair.
  destruct (match (if Qltb 0 delta then EvOn else EvOff) with
            | EvOff => pair_on_off_event cfg db1 sid ts pd
            | EvOn => (None, db1)
            end) as [d db2].
  cbn [fst snd ed_event_type ed_power_delta ed_leg ed_timestamp ed_confidence
       ed_duration ed_signature_id] in *.
  destruct Hpair as (Hlen & Hseq).
  destruct (store_event_appends cfg clk db2 ts
              (if Qltb 0 delta then EvOn else EvOff) pd (classify_leg l1 l2) d sid
              (confidence_of pd)) as (Hev & Hsq).
  repeat (split; [reflexivity|]).
  split; [now rewrite Hsq, Hseq|].
  exists (load_events db2). split; [exact Hlen|]. now rewrite Hev, Hseq.
Qed.

(** X3.  [detect_edge] changes the store only when it returns an event.
    The event it returns has the step's size rounded to one decimal as its
    (non-negative) power, is "on" exactly when the raw reading lies above the
    baseline, has a confidence between 0.5 and 1, and is the one row appended
    to the event table, under the next id; the raw reading becomes the new
    baseline. *)
Theorem detect_edge_records_one_event cfg clk db m s l1 l2 ots :
  match detect_edge cfg clk db m s l1 l2 ots with
  | (None, db', _) => db' = db
  | (Some ev, db', m') =>
      exists level,
        stable_level m = Some level /\
        EDGE_THRESHOLD cfg <= Qabs (raw_current m s - level) /\
        ed_power_delta ev = py_round (Qabs (raw_current m s - level)) 1 /\
        0 <= ed_power_delta ev /\
        (ed_event_type ev = EvOn <-> level < raw_current m s) /\
        1 # 2 <= ed_confidence ev /\ ed_confidence ev <= 1 /\
        stable_level m' = Some (raw_current m s) /\
        seq_events db' = (seq_events db + 1)%Z /\
        exists evs,
          length evs = length (load_events db) /\
          load_events db' =
            evs ++ [mkEvent (seq_events db + 1) (ed_timestamp ev) (ed_event_type ev)
                            (ed_power_delta ev) (ed_leg ev) (ed_duration ev)
                            (ed_signature_id ev) (ed_confidence ev)]
  end.
Proof.
  unfold detect_edge.
  destruct (stable_level m) as [level|]; [|reflexivity].
  destruct (Qltb _ (EDGE_THRESHOLD cfg)) eqn:Ethr; [reflexivity|].
  destruct (Qltb _ (DEBOUNCE_SECONDS cfg)); [reflexivity|].
  pose proof (record_edge_record cfg clk db (raw_current m s - level)
                (raw_current m s) l1 l2 ots) as H.
  cbv zeta in H.
  destruct (record_edge cfg clk db _ _ l1 l2 ots) as [ev db']. cbn [fst snd] in H.
  destruct H as (Hty & Hpd & _ & _ & Hconf & Hseq & Hevs).
  exists level. split; [reflexivity|].
  split; [now apply Qltb_ge|]. split; [exact Hpd|].
  split; [rewrite Hpd; apply power_delta_nonneg|].
  split.
  { rewrite Hty. destruct (Qltb 0 (raw_current m s - level)) eqn:E.
    - apply Qltb_lt in E. split; [intros _; lra | reflexivity].
    - apply Qltb_ge in E. split; [discriminate | intro; lra]. }
  split; [rewrite Hconf; apply confidence_of_bounds|].
  split; [rewrite Hconf; apply confidence_of_bounds|].
  split; [reflexivity|]. split; assumption.
Qed.

(** ** Well-formed stores: keys and links *)

Lemma get_signature_In db id :
  get_signature db id <> None <-> In id (map sg_id (appliance_signatures db)).
Proof.
  unfold get_signature.
  induction (appliance_signatures db) as [|s l IH]; cbn [find map In].
  - split; [congruence | contradiction].
  - destruct (sg_id s =? id)%Z eqn:E.
    + apply Z.eqb_eq in E. split; [now left | discriminate].
    + apply Z.eqb_neq in E. rewrite IH. split; [now right | intros [H|H]; tauto].
Qed.

Lemma find_matching_signature_In cfg db pd leg id :
  find_matching_signature cfg db pd leg = Some id ->
  In id (map sg_id (appliance_signatures db)).
Proof.
  intro H. pose proof (find_matching_signature_nearest cfg pd db leg) as Hn.
  rewrite H in Hn. destruct Hn as (avg & Hin & _).
  unfold signature_rows in Hin. apply in_map_iff in Hin.
  destruct Hin as (s & Hs & Hin). inversion Hs; subst. now apply in_map.
Qed.

Lemma resolve_signature_grows cfg db pd leg :
  let r := resolve_signature cfg db pd leg in
  incl (map sg_id (appliance_signatures db)) (map sg_id (appliance_signatures (snd r))) /\
  In (fst r) (map sg_id (appliance_signatures (snd r))).
Proof.
  cbv zeta. unfold resolve_signature.
  assert (Hc : incl (map sg_id (appliance_signatures db))
                 (map sg_id (appliance_signatures (snd (create_signature db pd leg)))) /\
               In (fst (create_signature db pd leg))
                 (map sg_id (appliance_signatures (snd (create_signature db pd leg))))).
  { unfold create_signature. cbn [fst snd appliance_signatures].
    rewrite map_app. cbn [map sg_id]. split.
    - apply incl_appl, incl_refl.
    - apply in_or_app. right. now left. }
  destruct (find_matching_signature cfg db pd leg) as [id|] eqn:E; [|exact Hc].
  destruct (id =? 0)%Z; [exact Hc|]. cbn [fst snd].
  destruct (update_signature_core_ids db id pd) as (-> & _).
  split; [apply incl_refl | now apply (find_matching_signature_In cfg db pd leg)].
Qed.

Lemma record_edge_steps cfg clk db delta raw l1 l2 ots :
  let pd := py_round (Qabs delta) 1 in
  let ts := event_stamp clk ots in
  let ty := if Qltb 0 delta then EvOn else EvOff in
  let leg := classify_leg l1 l2 in
  let r1 := resolve_signature cfg db pd leg in
  let r2 :=
    match ty with
    | EvOff => pair_on_off_event cfg (snd r1) (fst r1) ts pd
    | EvOn => (None, snd r1)
    end in
  let db5 := store_event cfg clk (snd r2) ts ty pd leg (fst r2) (fst r1)
                         (confidence_of pd) in
  record_edge cfg clk db delta raw l1 l2 ots =
    (mkEventDict ty pd leg (fst r2) (fst r1) (confidence_of pd)
                 (_get_signature_label db5 (fst r1)) ts,
     db5).
Proof.
  cbv zeta. unfold record_edge, event_stamp.
  destruct (resolve_signature cfg db _ _) as [sid db1]. cbn [fst snd].
  destruct (match (if Qltb 0 delta then EvOn else EvOff) with
            | EvOff => _
            | EvOn => _
            end) as [d db2].
  reflexivity.
Qed.

(** *** The pairing closes one unresolved "on" event *)

Lemma pair_fold_In (off_power : Q) (rows : list (Event * Signature)) :
  forall best r,
    fst (fold_left (pair_step off_power) rows best) = Some r ->
    fst best = Some r \/ exists c, In c rows /\ r = chosen_row c.
Proof.
  induction rows as [|c rows IH]; intros best r H; [now left|].
  cbn [fold_left] in H. apply IH in H. destruct H as [H|(c' & Hin & Hr)].
  - unfold pair_step in H. destruct (lt_bound _ _).
    + cbn [fst] in H. inversion H. right. exists c. split; [now left | reflexivity].
    + now left.
  - right. exists c'. split; [now right | exact Hr].
Qed.

Lemma pairing_choice_In cfg db sid ts pd on_id on_ts :
  pairing_choice cfg db sid ts pd = Some (on_id, on_ts) ->
  exists on,
    In on (load_events db) /\ unresolved_on on = true /\
    e_id on = on_id /\ e_timestamp on = on_ts.
Proof.
  unfold pairing_choice.
  pose proof (pair_fold_In (effective_off_power db sid pd)
                (pairing_candidates db (ts - MAX_PAIRING_HOURS cfg * 3600))
                (None, None)) as H.
  destruct (fold_left _ _ (None, None)) as [row bd]. cbn [fst] in H.
  destruct row as [r|]; [|discriminate].
  destruct bd as [b|]; [|discriminate].
  destruct (Qltb _ b); [discriminate|].
  intro E. inversion E; subst.
  destruct (H _ eq_refl) as [Hn|((on & s) & Hin & Hr)]; [discriminate|].
  unfold pairing_candidates in Hin.
  apply In_join_signature in Hin. destruct Hin as [Hin _].
  apply In_order_by_ts, filter_In in Hin. destruct Hin as [Hin Hf].
  apply andb_true_iff in Hf. destruct Hf as [Hu _].
  unfold chosen_row in Hr. cbn [fst] in Hr. inversion Hr.
  exists on. auto.
Qed.

Lemma same_id_same_event (l : list Event) (a b : Event) :
  NoDup (map e_id l) -> In a l -> In b l -> e_id a = e_id b -> a = b.
Proof.
  induction l as [|x l IH]; intros Hn Ha Hb E; [contradiction|].
  cbn [map] in Hn. inversion Hn as [|? ? Hx Hn']; subst.
  destruct Ha as [->|Ha], Hb as [->|Hb]; [reflexivity| | |now apply IH].
  - exfalso. apply Hx. rewrite E. now apply in_map.
  - exfalso. apply Hx. rewrite <- E. now apply in_map.
Qed.

Lemma Forall2_map_same {A : Type} (R : A -> A -> Prop) (f : A -> A) (l : list A) :
  (forall a, In a l -> R a (f a)) -> Forall2 R l (map f l).
Proof.
  induction l as [|a l IH]; intro H; cbn [map]; constructor.
  - apply H. now left.
  - apply IH. intros b Hb. apply H. now right.
Qed.

Lemma pair_on_off_event_closes cfg db sid ts pd :
  NoDup (map e_id (load_events db)) ->
  let r := pair_on_off_event cfg db sid ts pd in
  Forall2 (closed_by ts) (load_events db) (load_events (snd r)) /\
  match fst r with
  | Some d =>
      exists on, In on (load_events db) /\ unresolved_on on = true /\
                 d = (ts - e_timestamp on)%Z /\
                 load_events (snd r) =
                   set_event_duration (e_id on) (Some d) (load_events db)
  | None => snd r = db
  end.
Proof.
  intro Hn. cbv zeta. unfold pair_on_off_event.
  destruct (pairing_choice cfg db sid ts pd) as [[on_id on_ts]|] eqn:E; cbn [fst snd].
  - apply pairing_choice_In in E. destruct E as (on & Hin & Hu & Hid & Hts).
    assert (Hev : load_events
                    (_update_avg_duration
                       (set_events db
                          (set_event_duration on_id (Some (ts - on_ts)%Z) (load_events db)))
                       sid (ts - on_ts)) =
                  set_event_duration on_id (Some (ts - on_ts)%Z) (load_events db)).
    { unfold _update_avg_duration. destruct (get_signature _ sid); reflexivity. }
    rewrite Hev. split; [|exists on; subst; auto].
    unfold set_event_duration. apply Forall2_map_same.
    intros e He. destruct (e_id e =? on_id)%Z eqn:Eid; [|now left].
    apply Z.eqb_eq in Eid.
    assert (e = on) by (apply (same_id_same_event (load_events db)); congruence).
    subst e. right. split; [exact Hu|]. now rewrite Hts.
  - split; [|reflexivity].
    rewrite <- (map_id (load_events db)) at 2. apply Forall2_map_same. now left.
Qed.

Lemma closed_by_fields ts e e' :
  closed_by ts e e' ->
  e_id e' = e_id e /\ e_timestamp e' = e_timestamp e /\
  e_event_type e' = e_event_type e /\ e_power_delta e' = e_power_delta e /\
  e_leg e' = e_leg e /\ e_signature_id e' = e_signature_id e /\
  e_confidence e' = e_confidence e.
Proof.
  intros [->|(_ & ->)]; repeat split.
Qed.

Lemma closed_by_map {B : Type} (f : Event -> B) ts (l l' : list Event) :
  (forall e e', closed_by ts e e' -> f e' = f e) ->
  Forall2 (closed_by ts) l l' -> map f l' = map f l.
Proof.
  intro Hf. induction 1 as [|e e' l l' H _ IH]; [reflexivity|].
  cbn [map]. now rewrite IH, (Hf e e' H).
Qed.

Lemma Forall2_In_r {A B : Type} (R : A -> B -> Prop) (l : list A) (l' : list B) (b : B) :
  Forall2 R l l' -> In b l' -> exists a, In a l /\ R a b.
Proof.
  induction 1 as [|x y l l' H _ IH]; intro Hin; [contradiction|].
  destruct Hin as [<-|Hin].
  - exists x. split; [now left | exact H].
  - destruct (IH Hin) as (a & Ha & Hr). exists a. split; [now right | exact Hr].
Qed.

(** *** What an accepted edge does to the event table *)

Lemma record_edge_events cfg clk db delta raw l1 l2 ots :
  NoDup (map e_id (load_events db)) ->
  let r := record_edge cfg clk db delta raw l1 l2 ots in
  let ev := fst r in
  exists evs,
    Forall2 (closed_by (event_stamp clk ots)) (load_events db) evs /\
    load_events (snd r) =
      evs ++ [mkEvent (seq_events db + 1) (ed_timestamp ev) (ed_event_type ev)
                      (ed_power_delta ev) (ed_leg ev) (ed_duration ev)
                      (ed_signature_id ev) (ed_confidence ev)] /\
    seq_events (snd r) = (seq_events db + 1)%Z /\
    ed_timestamp ev = event_stamp clk ots /\
    ed_leg ev = classify_leg l1 l2 /\
    match ed_duration ev with
    | Some d =>
        ed_event_type ev = EvOff /\
        exists on, In on (load_events db) /\ unresolved_on on = true /\
                   d = (event_stamp clk ots - e_timestamp on)%Z /\
                   evs = set_event_duration (e_id on) (Some d) (load_events db)
    | None => evs = load_events db
    end.
Proof.
  intro Hn. cbv zeta. rewrite record_edge_steps. cbv zeta. cbn [fst snd].
  set (pd := py_round (Qabs delta) 1). set (ts := event_stamp clk ots).
  set (leg := classify_leg l1 l2).
  destruct (resolve_signature_events cfg db pd leg) as (He1 & Hs1).
  set (r1 := resolve_signature cfg db pd leg) in *.
  cbn [ed_timestamp ed_event_type ed_power_delta ed_leg ed_duration
       ed_signature_id ed_confidence].
  destruct (Qltb 0 delta) eqn:Ed.
  - cbn [fst snd].
    destruct (store_event_appends cfg clk (snd r1) ts EvOn pd leg None (fst r1)
                (confidence_of pd)) as (-> & ->).
    rewrite He1, Hs1. exists (load_events db).
    split; [|repeat split].
    rewrite <- (map_id (load_events db)) at 2. apply Forall2_map_same. now left.
  - assert (Hn1 : NoDup (map e_id (load_events (snd r1)))) by now rewrite He1.
    destruct (pair_on_off_event_closes cfg (snd r1) (fst r1) ts pd Hn1) as (Hc & Hd).
    cbv zeta in Hc, Hd.
    destruct (pair_on_off_event_events cfg (snd r1) (fst r1) ts pd) as (_ & Hs2).
    set (r2 := pair_on_off_event cfg (snd r1) (fst r1) ts pd) in *.
    destruct (store_event_appends cfg clk (snd r2) ts EvOff pd leg (fst r2) (fst r1)
                (confidence_of pd)) as (-> & ->).
    rewrite Hs2, Hs1. exists (load_events (snd r2)).
    rewrite He1 in Hc. split; [exact Hc|]. repeat split.
    destruct (fst r2) as [d|].
    + split; [reflexivity|]. rewrite He1 in Hd. exact Hd.
    + rewrite Hd. exact He1.
Qed.

Lemma record_edge_stats_keyed cfg clk db delta raw l1 l2 ots :
  stats_keyed db -> stats_keyed (snd (record_edge cfg clk db delta raw l1 l2 ots)).
Proof.
  assert (Hsig : forall db0 id f,
            appliance_daily_stats (update_sig db0 id f) = appliance_daily_stats db0)
    by reflexivity.
  assert (Hdec : forall rows db0,
            appliance_daily_stats (decrement_similar cfg (py_round (Qabs delta) 1) rows db0)
            = appliance_daily_stats db0).
  { induction rows as [|o rows IH]; intro db0; cbn [decrement_similar]; [reflexivity|].
    destruct (Qle_bool _ _); [|apply IH]. destruct (_ <=? 0)%Z; reflexivity. }
  assert (Hact : forall db0 sid ty ts,
            appliance_daily_stats
              (_update_signature_active_state cfg db0 sid ty ts (py_round (Qabs delta) 1))
            = appliance_daily_stats db0).
  { intros db0 sid ty ts. unfold _update_signature_active_state.
    destruct ty; [reflexivity|].
    destruct (find _ _) as [s|].
    - destruct (0 <? active_count s)%Z.
      + destruct (_ <=? 0)%Z; reflexivity.
      + destruct (Qltb 0 _); [apply Hdec | reflexivity].
    - destruct (Qltb 0 _); [apply Hdec | reflexivity]. }
  assert (Hres : forall leg,
            appliance_daily_stats
              (snd (resolve_signature cfg db (py_round (Qabs delta) 1) leg))
            = appliance_daily_stats db).
  { intro leg. unfold resolve_signature, update_signature.
    destruct (find_matching_signature cfg db _ leg) as [id|]; [|reflexivity].
    destruct (id =? 0)%Z; [reflexivity|]. cbn [snd].
    destruct (get_signature db id); reflexivity. }
  assert (Hpair : forall db0 sid ts,
            appliance_daily_stats
              (snd (pair_on_off_event cfg db0 sid ts (py_round (Qabs delta) 1)))
            = appliance_daily_stats db0).
  { intros db0 sid ts. unfold pair_on_off_event, _update_avg_duration.
    destruct (pairing_choice cfg db0 sid ts _) as [[a b]|]; [|reflexivity].
    cbn [snd]. destruct (get_signature _ sid); reflexivity. }
  assert (Hup : forall db0 sid d,
            stats_keyed db0 ->
            stats_keyed (_update_daily_stats clk db0 sid (py_round (Qabs delta) 1) d)).
  { intros db0 sid d H. unfold stats_keyed, _update_daily_stats in *.
    rewrite daily_cycles_stats. cbn [appliance_daily_stats set_daily_stats].
    destruct (existsb _ _) eqn:E.
    - rewrite map_map.
      erewrite map_ext; [exact H|].
      intro r. destruct (stat_key _ sid r); reflexivity.
    - rewrite map_app. cbn [map stat_pk d_date d_signature_id].
      apply NoDup_app; [exact H | repeat constructor; intros [] |].
      intros k Hk [<-|[]]. apply in_map_iff in Hk. destruct Hk as (r & Hr & Hin).
      assert (Ht : stat_key (date_of (datetime_now clk)) sid r = true).
      { unfold stat_key, stat_pk in *. inversion Hr. now rewrite !Z.eqb_refl. }
      assert (existsb (stat_key (date_of (datetime_now clk)) sid)
                      (appliance_daily_stats db0) = true)
        by (apply existsb_exists; eauto).
      congruence. }
  intro H. rewrite record_edge_steps. cbv zeta. cbn [snd].
  set (pd := py_round (Qabs delta) 1) in *.
  set (r1 := resolve_signature cfg db pd (classify_leg l1 l2)).
  assert (H1 : stats_keyed (snd r1)) by (unfold stats_keyed; subst r1; now rewrite Hres).
  set (ty := if Qltb 0 delta then EvOn else EvOff).
  set (r2 := match ty with
             | EvOff => pair_on_off_event cfg (snd r1) (fst r1) (event_stamp clk ots) pd
             | EvOn => (None, snd r1)
             end).
  assert (H2 : stats_keyed (snd r2)).
  { subst r2. destruct ty; [exact H1|]. unfold stats_keyed. now rewrite Hpair. }
  unfold store_event.
  match goal with
  | |- context [_update_signature_active_state cfg ?db3 ?sid ty ?ts pd] =>
      assert (H4 : stats_keyed (_update_signature_active_state cfg db3 sid ty ts pd))
        by (unfold stats_keyed; rewrite Hact; exact H2)
  end.
  destruct ty; [exact H4|].
  destruct (fst r2) as [d|]; [|exact H4].
  destruct (d =? 0)%Z; [exact H4 | now apply Hup].
Qed.

Lemma record_edge_wf cfg clk db delta raw l1 l2 ots :
  store_wf db -> store_wf (snd (record_edge cfg clk db delta raw l1 l2 ots)).
Proof.
  intros (Hids & (H0 & Hb & Hn) & Hl & Hk).
  pose proof (record_edge_core cfg clk db delta raw l1 l2 ots) as Hc.
  pose proof (resolve_signature_grows cfg db (py_round (Qabs delta) 1)
                (classify_leg l1 l2)) as Hg.
  cbv zeta in Hg. destruct Hg as (Hincl & Hnew).
  pose proof (same_core_ids _ _ Hc) as Hsame.
  destruct (record_edge_events cfg clk db delta raw l1 l2 ots Hn)
    as (evs & Hcl & Hev & Hseq & _).
  assert (Hsid : ed_signature_id (fst (record_edge cfg clk db delta raw l1 l2 ots)) =
                 fst (resolve_signature cfg db (py_round (Qabs delta) 1)
                        (classify_leg l1 l2)))
    by (rewrite record_edge_steps; reflexivity).
  assert (Hidmap : map e_id evs = map e_id (load_events db)).
  { apply (closed_by_map e_id (event_stamp clk ots)); [|exact Hcl].
    intros e e' H. apply (closed_by_fields _ _ _ H). }
  split; [|split; [|split]].
  - eapply ids_ok_same_core; [exact Hc|]. now apply resolve_signature_ids_ok.
  - unfold event_ids_ok. rewrite Hev, Hseq, map_app, Hidmap. cbn [map e_id].
    split; [lia|]. split.
    + apply Forall_app. split.
      * eapply Forall_impl; [|exact Hb]. cbn. intros; lia.
      * repeat constructor; lia.
    + apply NoDup_app; [exact Hn | repeat constructor; intros [] |].
      intros x Hx [<-|[]]. rewrite Forall_forall in Hb. specialize (Hb _ Hx). lia.
  - intros e He. rewrite Hev in He. apply get_signature_In. rewrite Hsame.
    apply in_app_or in He. destruct He as [He|[<-|[]]].
    + destruct (Forall2_In_r _ _ _ _ Hcl He) as (e0 & He0 & Hk0).
      apply closed_by_fields in Hk0. destruct Hk0 as (_ & _ & _ & _ & _ & -> & _).
      apply Hincl. apply get_signature_In. now apply Hl.
    + cbn [e_signature_id]. rewrite Hsid. exact Hnew.
  - now apply record_edge_stats_keyed.
Qed.

Lemma detect_edge_wf cfg clk db m s l1 l2 ots :
  store_wf db -> store_wf (snd (fst (detect_edge cfg clk db m s l1 l2 ots))).
Proof.
  intro H. unfold detect_edge.
  destruct (stable_level m) as [level|]; [|exact H].
  destruct (Qltb _ (EDGE_THRESHOLD cfg)); [exact H|].
  destruct (Qltb _ (DEBOUNCE_SECONDS cfg)); [exact H|].
  pose proof (record_edge_wf cfg clk db (raw_current m s - level) (raw_current m s)
                l1 l2 ots H) as Hw.
  destruct (record_edge cfg clk db _ _ l1 l2 ots) as [ev db']. exact Hw.
Qed.

(** *** The other operations *)


Lemma NoDup_map_rekey {A B C : Type} (f : A -> B) (g : A -> C) (l : list A) :
  NoDup (map f l) ->
  (forall a b, In a l -> In b l -> g a = g b -> f a = f b) ->
  NoDup (map g l).
Proof.
  induction l as [|x l IH]; intros Hn Hfg; cbn [map]; [constructor|].
  cbn [map] in Hn. inversion Hn as [|? ? Hx Hn']; subst. constructor.
  - intro Hin. apply in_map_iff in Hin. destruct Hin as (y & Hy & Hin).
    apply Hx. rewrite (Hfg x y); [now apply in_map | now left | now right | congruence].
  - apply IH; [exact Hn'|]. intros a b Ha Hb. apply Hfg; now right.
Qed.

(** A DELETE keeps the remaining rows' keys distinct. *)
Lemma delete_keeps_keys_distinct {Row Key : Type} (key : Row -> Key)
    (kept : Row -> bool) (rows : list Row) :
  NoDup (map key rows) -> NoDup (map key (filter kept rows)).
Proof.
  induction rows as [|x rows IH]; intro Hn; cbn [filter map]; [constructor|].
  cbn [map] in Hn. inversion Hn as [|? ? Hx Hn']; subst.
  destruct (kept x); [|now apply IH]. cbn [map]. constructor; [|now apply IH].
  intro Hin. apply Hx. apply in_map_iff in Hin. destruct Hin as (y & Hy & Hin).
  apply filter_In in Hin. rewrite <- Hy. apply in_map. tauto.
Qed.

(** A store that differs only in columns outside the keys and the links
    is as well-formed. *)
Lemma store_wf_reshape (db db' : Store) :
  map sg_id (appliance_signatures db') = map sg_id (appliance_signatures db) ->
  seq_signatures db' = seq_signatures db ->
  seq_events db' = seq_events db ->
  map e_id (load_events db') = map e_id (load_events db) ->
  map e_signature_id (load_events db') = map e_signature_id (load_events db) ->
  map stat_pk (appliance_daily_stats db') = map stat_pk (appliance_daily_stats db) ->
  store_wf db -> store_wf db'.
Proof.
  intros Hsig Hss Hse Hid Hlink Hpk (Hids & Hev & Hl & Hk).
  unfold store_wf, ids_ok, event_ids_ok, stats_keyed in *.
  rewrite Hsig, Hss, Hse, Hid, Hpk.
  split; [exact Hids|]. split; [exact Hev|]. split; [|exact Hk].
  intros e He. apply get_signature_In. rewrite Hsig.
  assert (Hin : In (e_signature_id e) (map e_signature_id (load_events db)))
    by (rewrite <- Hlink; now apply in_map).
  apply in_map_iff in Hin. destruct Hin as (e0 & E & Hin0).
  rewrite <- E. apply get_signature_In. now apply Hl.
Qed.

Lemma set_event_duration_map {B : Type} (f : Event -> B) id d (l : list Event) :
  (forall e, f (with_duration e d) = f e) ->
  map f (set_event_duration id d l) = map f l.
Proof.
  intro Hf. unfold set_event_duration. rewrite map_map. apply map_ext.
  intro e. destruct (e_id e =? id)%Z; [apply Hf | reflexivity].
Qed.

Lemma expire_before_map {B : Type} (f : Event -> B) cutoff (l : list Event) :
  (forall e, f (with_duration e stale) = f e) ->
  map f (expire_before cutoff l) = map f l.
Proof.
  intro Hf. unfold expire_before. rewrite map_map. apply map_ext.
  intro e. destruct (unresolved_on e && _); [apply Hf | reflexivity].
Qed.

Lemma prune_oldest_map {B : Type} (f : Event -> B) limit (active : list ActiveEntry) :
  (forall e, f (with_duration e stale) = f e) ->
  forall total evs, map f (snd (prune_oldest limit active total evs)) = map f evs.
Proof.
  intro Hf. induction active as [|a rest IH]; intros total evs; [reflexivity|].
  cbn [prune_oldest]. destruct (Qltb limit total); [|reflexivity].
  rewrite IH. now apply set_event_duration_map.
Qed.

Lemma startup_wf db : store_wf db -> store_wf (snd (startup db)).
Proof.
  apply store_wf_reshape; unfold startup;
    cbn [snd appliance_signatures seq_signatures seq_events load_events
         appliance_daily_stats]; try reflexivity.
  - rewrite map_map. now apply map_ext.
  - rewrite map_map. apply map_ext. intro e.
    destruct (e_event_type e), (e_duration e); reflexivity.
  - rewrite map_map. apply map_ext. intro e.
    destruct (e_event_type e), (e_duration e); reflexivity.
Qed.

Lemma get_active_appliances_frame {B : Type} (f : Event -> B) cfg clk db load :
  (forall e d, f (with_duration e d) = f e) ->
  let db' := snd (get_active_appliances cfg clk db load) in
  map f (load_events db') = map f (load_events db) /\
  appliance_signatures db' = appliance_signatures db /\
  appliance_daily_stats db' = appliance_daily_stats db /\
  load_samples db' = load_samples db /\
  seq_events db' = seq_events db /\ seq_signatures db' = seq_signatures db.
Proof.
  intro Hf. cbv zeta. unfold get_active_appliances.
  set (db1 := set_events db (expire_before _ (load_events db))).
  assert (H1 : map f (load_events db1) = map f (load_events db))
    by (subst db1; cbn [load_events set_events]; now apply expire_before_map).
  set (active := map _ (join_signature db1 _)).
  destruct load as [l|]; [|now repeat split].
  destruct active as [|a rest] eqn:Ea; [now repeat split|].
  pose proof (prune_oldest_map f
                (Qmax 0 (l - INVERTER_IDLE_LOAD cfg) * (15 # 10) + 50) (a :: rest)
                (fun e => Hf e stale)
                (fold_left Qplus (map a_power (a :: rest)) 0) (load_events db1)) as Hp.
  destruct (prune_oldest _ (a :: rest) _ (load_events db1)) as [act evs].
  cbn [snd] in *. cbn [load_events set_events]. rewrite Hp. now repeat split.
Qed.

Lemma get_active_appliances_wf cfg clk db load :
  store_wf db -> store_wf (snd (get_active_appliances cfg clk db load)).
Proof.
  destruct (get_active_appliances_frame e_id cfg clk db load) as (A & B & C & _ & E & F);
    [reflexivity|].
  destruct (get_active_appliances_frame e_signature_id cfg clk db load) as (A' & _);
    [reflexivity|].
  cbv zeta in *. apply store_wf_reshape; congruence.
Qed.

Lemma update_sig_ids db id f :
  (forall s, sg_id (f s) = sg_id s) ->
  map sg_id (appliance_signatures (update_sig db id f)) =
  map sg_id (appliance_signatures db).
Proof.
  intro Hf. cbn [update_sig set_signatures appliance_signatures].
  unfold update_sig_rows. rewrite map_map. apply map_ext.
  intro s. destruct (sg_id s =? id)%Z; [apply Hf | reflexivity].
Qed.

Lemma update_signature_label_wf db id l i c :
  store_wf db -> store_wf (update_signature_label db id l i c).
Proof.
  apply store_wf_reshape; try reflexivity.
  unfold update_signature_label. now apply update_sig_ids.
Qed.

Lemma restore_user_labels_frame cfg saved (l : list Signature) : forall db,
  let db' :=
    fold_left
      (fun db' s =>
         match best_saved cfg saved (power_avg s) with
         | Some c => update_sig db' (sg_id s)
                       (set_display (c_label c) (c_icon c) (c_color c))
         | None => db'
         end) l db in
  load_events db' = load_events db /\
  appliance_daily_stats db' = appliance_daily_stats db /\
  seq_events db' = seq_events db /\
  map (fun s => (is_active s, active_count s, leg_pattern s))
      (appliance_signatures db') =
  map (fun s => (is_active s, active_count s, leg_pattern s))
      (appliance_signatures db).
Proof.
  induction l as [|s l IH]; intro db; cbn [fold_left]; [now repeat split|].
  destruct (best_saved cfg saved (power_avg s)) as [c|]; [|apply IH].
  destruct (IH (update_sig db (sg_id s)
                  (set_display (c_label c) (c_icon c) (c_color c))))
    as (H1 & H2 & H3 & H4).
  cbv zeta. rewrite H1, H2, H3, H4. repeat split.
  cbn [update_sig set_signatures appliance_signatures].
  unfold update_sig_rows. rewrite map_map. apply map_ext.
  intro x. destruct (sg_id x =? sg_id s)%Z; reflexivity.
Qed.

Lemma restore_user_labels_wf cfg db saved :
  store_wf db -> store_wf (_restore_user_labels cfg db saved).
Proof.
  unfold _restore_user_labels.
  destruct (restore_frame cfg saved (appliance_signatures db) db) as (_ & A & B).
  destruct (restore_user_labels_frame cfg saved (appliance_signatures db) db)
    as (C & D & E & _).
  cbv zeta in *. apply store_wf_reshape; congruence.
Qed.

Lemma deactivate_all_wf db :
  store_wf db ->
  store_wf (set_signatures db (map (set_active false 0) (appliance_signatures db))).
Proof.
  apply store_wf_reshape; try reflexivity.
  cbn [set_signatures appliance_signatures]. rewrite map_map. now apply map_ext.
Qed.

Lemma clear_detections_wf db :
  (0 <= seq_events db)%Z -> (0 <= seq_signatures db)%Z ->
  store_wf (clear_detections db).
Proof.
  intros He Hs. split; [now apply ids_ok_cleared|]. split; [|split].
  - repeat split; cbn; [exact He | constructor | constructor].
  - intros e [].
  - constructor.
Qed.

Lemma cleanup_old_data_wf c1 c2 db : store_wf db -> store_wf (cleanup_old_data c1 c2 db).
Proof.
  intros (Hids & (H0 & Hb & Hn) & Hl & Hk). unfold cleanup_old_data.
  split; [exact Hids|]. split; [|split; [|exact Hk]].
  - unfold event_ids_ok. cbn [seq_events load_events].
    split; [exact H0|]. split; [|now apply delete_keeps_keys_distinct].
    apply Forall_forall. intros id Hin. apply in_map_iff in Hin.
    destruct Hin as (e & <- & Hin). apply filter_In in Hin.
    rewrite Forall_forall in Hb. apply Hb, in_map. tauto.
  - intros e He. cbn [load_events] in He. apply filter_In in He.
    apply (Hl e). tauto.
Qed.

Lemma store_load_sample_wf clk db m total l1 l2 :
  store_wf db -> store_wf (snd (fst (store_load_sample clk db m total l1 l2))).
Proof. apply store_wf_reshape; reflexivity. Qed.

Lemma tick_wf cfg st r : store_wf (fst st) -> store_wf (fst (snd (tick cfg st r))).
Proof.
  intro H. unfold tick.
  pose proof (store_load_sample_wf (rd_clock r) (fst st) (snd st) (rd_total r)
                (rd_l1 r) (rd_l2 r) H) as H1.
  destruct (store_load_sample _ _ _ _ _ _) as [[smoothed db1] m1]. cbn [fst snd] in H1.
  pose proof (detect_edge_wf cfg (rd_clock r) db1 m1 smoothed (rd_l1 r) (rd_l2 r)
                None H1) as H2.
  destruct (detect_edge cfg (rd_clock r) db1 m1 smoothed _ _ None) as [[ev db2] m2].
  exact H2.
Qed.

Lemma on_load_power_wf cfg st h r :
  store_wf (fst st) -> store_wf (fst (snd (fst (on_load_power cfg st h r)))).
Proof.
  intro H. unfold on_load_power.
  destruct (Qle_bool 5 _); [|exact H].
  pose proof (tick_wf cfg st r H) as Ht.
  destruct (tick cfg st r) as [ev [db1 m1]]. cbn [fst snd] in Ht.
  destruct (match last_nilm_cleanup h with
            | Some last => _
            | None => true
            end); cbn [fst snd]; [now apply cleanup_old_data_wf | exact Ht].
Qed.

Lemma run_messages_wf cfg (rs : list Reading) : forall st h,
  store_wf (fst st) -> store_wf (fst (snd (fst (run_messages cfg st h rs)))).
Proof.
  induction rs as [|r rest IH]; intros st h H; [exact H|].
  cbn [run_messages].
  pose proof (on_load_power_wf cfg st h r H) as H1.
  destruct (on_load_power cfg st h r) as [[ev st1] h1]. cbn [fst snd] in H1.
  specialize (IH st1 h1 H1).
  destruct (run_messages cfg st1 h1 rest) as [[evs st2] h2]. exact IH.
Qed.

Lemma replay_wf cfg clock (samples : list Sample) : forall i db m n,
  store_wf db -> store_wf (snd (fst (replay cfg clock i samples db m n))).
Proof.
  induction samples as [|x rest IH]; intros i db m n H; [exact H|].
  cbn [replay].
  set (m1 := mem_append m (s_load_total x) (s_load_l1 x) (s_load_l2 x)).
  pose proof (detect_edge_wf cfg (clock i) db m1 (_smooth (recent_loads m1))
                (Some (s_load_l1 x)) (Some (s_load_l2 x)) (Some (s_timestamp x)) H)
    as H'.
  destruct (detect_edge cfg (clock i) db m1 _ _ _ _) as [[ev db'] m']. now apply IH.
Qed.

Lemma replay_influx_wf cfg clock (samples : list (Z * Q)) : forall i db m n,
  store_wf db -> store_wf (snd (fst (replay_influx cfg clock i samples db m n))).
Proof.
  induction samples as [|[ts total] rest IH]; intros i db m n H; [exact H|].
  cbn [replay_influx].
  set (m1 := mem_append_total m total).
  pose proof (detect_edge_wf cfg (clock i) db m1 (_smooth (recent_loads m1))
                None None (Some ts) H) as H'.
  destruct (detect_edge cfg (clock i) db m1 _ None None _) as [[ev db'] m'].
  now apply IH.
Qed.

Lemma reanalyze_wf cfg clock db m :
  (0 <= seq_events db)%Z -> (0 <= seq_signatures db)%Z ->
  store_wf (snd (fst (reanalyze cfg clock db m))).
Proof.
  intros He Hs. pose proof (clear_detections_wf db He Hs) as Hc.
  rewrite reanalyze_unfold.
  destruct (samples_in_order (load_samples db)) as [|x rest] eqn:E; [exact Hc|].
  cbv zeta. cbn [fst snd]. apply restore_user_labels_wf.
  unfold rebuilt. cbn [fst snd]. apply deactivate_all_wf. now apply replay_wf.
Qed.

Lemma reanalyze_from_influx_wf cfg clock results db m :
  (0 <= seq_events db)%Z -> (0 <= seq_signatures db)%Z -> store_wf db ->
  store_wf (snd (fst (reanalyze_from_influx cfg clock results db m))).
Proof.
  intros He Hs H. unfold reanalyze_from_influx.
  destruct results as [[|r rs]|]; [exact H| |exact H].
  destruct (all_samples (r :: rs)) as [|first others]; [exact H|].
  pose proof (replay_influx_wf cfg clock (first :: others) 0 (clear_detections db)
                (initial_mem cfg) 0 (clear_detections_wf db He Hs)) as Hr.
  destruct (replay_influx cfg clock 0 (first :: others) _ _ 0) as [[n db2] m2].
  cbn [fst snd] in *. apply restore_user_labels_wf. now apply deactivate_all_wf.
Qed.

(** *** Merging *)

Lemma stats_collide_false rows keep_id merge_id r k :
  stats_collide rows keep_id merge_id = false -> keep_id <> merge_id ->
  In r rows -> In k rows ->
  d_signature_id r = merge_id -> d_signature_id k = keep_id ->
  d_date k <> d_date r.
Proof.
  intros Hc Hne Hr Hk Er Ek Ed. unfold stats_collide in Hc.
  apply andb_false_iff in Hc. destruct Hc as [Hc|Hc].
  - apply negb_false_iff, Z.eqb_eq in Hc. contradiction.
  - assert (existsb (fun r0 =>
                       (d_signature_id r0 =? merge_id)%Z &&
                       existsb (fun k0 => (d_signature_id k0 =? keep_id)%Z &&
                                          (d_date k0 =? d_date r0)%Z) rows) rows = true);
      [|congruence].
    apply existsb_exists. exists r. split; [exact Hr|].
    apply andb_true_iff. split; [now apply Z.eqb_eq|].
    apply existsb_exists. exists k. split; [exact Hk|].
    apply andb_true_iff. split; now apply Z.eqb_eq.
Qed.

Lemma move_stats_keyed rows keep_id merge_id :
  keep_id <> merge_id ->
  stats_collide rows keep_id merge_id = false ->
  NoDup (map stat_pk rows) ->
  NoDup (map stat_pk (move_stats keep_id merge_id rows)).
Proof.
  intros Hne Hc Hn. unfold move_stats. rewrite map_map.
  apply (NoDup_map_rekey stat_pk); [exact Hn|].
  intros a b Ha Hb.
  destruct (d_signature_id a =? merge_id)%Z eqn:Ea,
           (d_signature_id b =? merge_id)%Z eqn:Eb;
    unfold stat_pk; cbn [d_date d_signature_id]; intro E; inversion E.
  - apply Z.eqb_eq in Ea, Eb. congruence.
  - apply Z.eqb_eq in Ea. exfalso.
    apply (stats_collide_false rows keep_id merge_id a b Hc Hne Ha Hb Ea); congruence.
  - apply Z.eqb_eq in Eb. exfalso.
    apply (stats_collide_false rows keep_id merge_id b a Hc Hne Hb Ha Eb); congruence.
  - reflexivity.
Qed.

Lemma merged_signature_ids keep_id merge_id (f : Signature -> Signature)
    (l : list Signature) :
  (forall s, sg_id (f s) = sg_id s) ->
  map sg_id (filter (fun s => negb (sg_id s =? merge_id)%Z) (update_sig_rows keep_id f l)) =
  filter (fun id => negb (id =? merge_id)%Z) (map sg_id l).
Proof.
  intro Hf. induction l as [|s l IH]; [reflexivity|].
  cbn [update_sig_rows map filter].
  assert (Es : sg_id (if (sg_id s =? keep_id)%Z then f s else s) = sg_id s)
    by (destruct (sg_id s =? keep_id)%Z; [apply Hf | reflexivity]).
  rewrite Es. destruct (negb (sg_id s =? merge_id)%Z); cbn [map]; [rewrite Es|];
    now rewrite <- IH.
Qed.

Lemma merge_signatures_wf db keep_id merge_id :
  keep_id <> merge_id -> store_wf db ->
  store_wf (snd (merge_signatures db keep_id merge_id)).
Proof.
  intros Hne H. pose proof H as ((H0 & Hb & Hn) & (E0 & Eb & En) & Hl & Hk).
  unfold merge_signatures.
  destruct (get_signature db keep_id) as [keep|] eqn:Ek; [|exact H].
  destruct (get_signature db merge_id) as [merge|] eqn:Em; [|exact H].
  destruct (stats_collide _ keep_id merge_id) eqn:Ec; [exact H|].
  cbn [snd].
  set (sigs2 := filter _ (update_sig_rows keep_id _ (appliance_signatures db))).
  assert (Hids : map sg_id sigs2 =
                 filter (fun id => negb (id =? merge_id)%Z)
                        (map sg_id (appliance_signatures db))).
  { subst sigs2. now apply merged_signature_ids. }
  assert (Hin : forall id, id <> merge_id ->
                  In id (map sg_id (appliance_signatures db)) -> In id (map sg_id sigs2)).
  { intros id Hid Hi. rewrite Hids. apply filter_In. split; [exact Hi|].
    now apply negb_true_iff, Z.eqb_neq. }
  split; [|split; [|split]].
  - unfold ids_ok. cbn [seq_signatures appliance_signatures]. rewrite Hids.
    split; [exact H0|]. split.
    + apply Forall_forall. intros id Hi. apply filter_In in Hi.
      rewrite Forall_forall in Hb. apply Hb. tauto.
    + now apply NoDup_filter.
  - unfold event_ids_ok, move_events. cbn [seq_events load_events].
    assert (Hm : map e_id (map (fun e =>
                     if (e_signature_id e =? merge_id)%Z
                     then mkEvent (e_id e) (e_timestamp e) (e_event_type e)
                            (e_power_delta e) (e_leg e) (e_duration e) keep_id
                            (e_confidence e)
                     else e) (load_events db)) = map e_id (load_events db)).
    { rewrite map_map. apply map_ext. intro e.
      destruct (e_signature_id e =? merge_id)%Z; reflexivity. }
    rewrite Hm. auto.
  - intros e He. cbn [load_events] in He. unfold move_events in He.
    apply in_map_iff in He. destruct He as (e0 & <- & He0).
    apply get_signature_In. cbn [appliance_signatures].
    destruct (e_signature_id e0 =? merge_id)%Z eqn:E; cbn [e_signature_id].
    + apply Hin; [exact Hne|]. apply get_signature_In. congruence.
    + apply Z.eqb_neq in E. apply Hin; [exact E|].
      apply get_signature_In. now apply Hl.
  - unfold stats_keyed. cbn [appliance_daily_stats]. now apply move_stats_keyed.
Qed.

(** X4.  The keys of the schema and the links between the tables are
    invariants of the engine: signature ids and event ids are positive, at
    most their AUTOINCREMENT counter and distinct, every event carries the id
    of a stored signature, and no two daily-stats rows share (date,
    signature).  A detector call, a delivered message (sample, detection,
    hourly cleanup), [startup], the active-appliance listing, a label update,
    the cleanup and a merge of two distinct signatures keep them;
    [reanalyze] ends in such a store whenever the counters are not negative,
    and [reanalyze_from_influx] keeps them under the same condition. *)
Theorem engine_keeps_keys_and_links (cfg : Config) :
  (forall clk db m s l1 l2 ots,
      store_wf db -> store_wf (snd (fst (detect_edge cfg clk db m s l1 l2 ots)))) /\
  (forall st h rs,
      store_wf (fst st) -> store_wf (fst (snd (fst (run_messages cfg st h rs))))) /\
  (forall db, store_wf db -> store_wf (snd (startup db))) /\
  (forall clk db load,
      store_wf db -> store_wf (snd (get_active_appliances cfg clk db load))) /\
  (forall db id l i c, store_wf db -> store_wf (update_signature_label db id l i c)) /\
  (forall c1 c2 db, store_wf db -> store_wf (cleanup_old_data c1 c2 db)) /\
  (forall db keep_id merge_id,
      keep_id <> merge_id -> store_wf db ->
      store_wf (snd (merge_signatures db keep_id merge_id))) /\
  (forall clock db m,
      (0 <= seq_events db)%Z -> (0 <= seq_signatures db)%Z ->
      store_wf (snd (fst (reanalyze cfg clock db m)))) /\
  (forall clock results db m,
      (0 <= seq_events db)%Z -> (0 <= seq_signatures db)%Z -> store_wf db ->
      store_wf (snd (fst (reanalyze_from_influx cfg clock results db m)))).
Proof.
  split; [intros; now apply detect_edge_wf|].
  split; [intros; now apply run_messages_wf|].
  split; [intros; now apply startup_wf|].
  split; [intros; now apply get_active_appliances_wf|].
  split; [intros; now apply update_signature_label_wf|].
  split; [intros; now apply cleanup_old_data_wf|].
  split; [intros; now apply merge_signatures_wf|].
  split; [intros; now apply reanalyze_wf|].
  intros; now apply reanalyze_from_influx_wf.
Qed.

(** ** The event table under [detect_edge] *)

Lemma detect_edge_events cfg clk db m s l1 l2 ots :
  NoDup (map e_id (load_events db)) ->
  match detect_edge cfg clk db m s l1 l2 ots with
  | (None, db', _) => db' = db
  | (Some ev, db', _) =>
      exists evs,
        Forall2 (closed_by (event_stamp clk ots)) (load_events db) evs /\
        load_events db' = evs ++ [event_row (seq_events db + 1) ev] /\
        seq_events db' = (seq_events db + 1)%Z /\
        ed_timestamp ev = event_stamp clk ots /\
        ed_leg ev = classify_leg l1 l2 /\
        match ed_duration ev with
        | Some d =>
            ed_event_type ev = EvOff /\
            exists on,
              In on (load_events db) /\ unresolved_on on = true /\
              d = (event_stamp clk ots - e_timestamp on)%Z /\
              evs = set_event_duration (e_id on) (Some d) (load_events db)
        | None => evs = load_events db
        end
  end.
Proof.
  intro Hn. unfold detect_edge.
  destruct (stable_level m) as [level|]; [|reflexivity].
  destruct (Qltb _ (EDGE_THRESHOLD cfg)); [reflexivity|].
  destruct (Qltb _ (DEBOUNCE_SECONDS cfg)); [reflexivity|].
  pose proof (record_edge_events cfg clk db (raw_current m s - level)
                (raw_current m s) l1 l2 ots Hn) as H.
  cbv zeta in H.
  destruct (record_edge cfg clk db _ _ l1 l2 ots) as [ev db']. exact H.
Qed.





(** ** The event log a reanalysis builds *)

Lemma In_insert_sample (x y : Sample) (l : list Sample) :
  In y (insert_sample x l) <-> y = x \/ In y l.
Proof.
  induction l as [|z l IH]; cbn [insert_sample].
  - cbn. intuition.
  - destruct (s_timestamp x <=? s_timestamp z)%Z; cbn [In]; [intuition|].
    rewrite IH. intuition.
Qed.

Lemma In_samples_in_order (y : Sample) (l : list Sample) :
  In y (samples_in_order l) <-> In y l.
Proof.
  induction l as [|z l IH]; cbn [samples_in_order]; [reflexivity|].
  rewrite In_insert_sample, IH. cbn. intuition.
Qed.

Lemma length_insert_sample (x : Sample) (l : list Sample) :
  length (insert_sample x l) = S (length l).
Proof.
  induction l as [|z l IH]; cbn [insert_sample]; [reflexivity|].
  destruct (s_timestamp x <=? s_timestamp z)%Z; cbn [length]; [reflexivity|].
  now rewrite IH.
Qed.

Lemma length_samples_in_order (l : list Sample) :
  length (samples_in_order l) = length l.
Proof.
  induction l as [|z l IH]; cbn [samples_in_order]; [reflexivity|].
  rewrite length_insert_sample. cbn [length]. now rewrite IH.
Qed.

Lemma insert_sample_sorted (x : Sample) (l : list Sample) :
  StronglySorted sample_ts_le l -> StronglySorted sample_ts_le (insert_sample x l).
Proof.
  induction 1 as [|y l Hs IH Hall]; cbn [insert_sample].
  - repeat constructor.
  - destruct (s_timestamp x <=? s_timestamp y)%Z eqn:E.
    + apply Z.leb_le in E. constructor; [now constructor|].
      constructor; [exact E|].
      eapply Forall_impl; [|exact Hall]. unfold sample_ts_le. intros; lia.
    + apply Z.leb_gt in E. constructor; [exact IH|].
      apply Forall_forall. intros z Hz. apply In_insert_sample in Hz.
      destruct Hz as [->|Hz]; [unfold sample_ts_le; lia|].
      rewrite Forall_forall in Hall. now apply Hall.
Qed.

Lemma samples_in_order_sorted (l : list Sample) :
  StronglySorted sample_ts_le (samples_in_order l).
Proof.
  induction l; cbn [samples_in_order]; [constructor | now apply insert_sample_sorted].
Qed.

Lemma sorted_snoc (l : list Z) (t : Z) :
  StronglySorted Z.le l -> Forall (fun x => x <= t)%Z l -> StronglySorted Z.le (l ++ [t]).
Proof.
  induction 1 as [|x l Hs IH Hall]; intro Hb; cbn [app].
  - repeat constructor.
  - inversion Hb; subst. constructor; [now apply IH|].
    apply Forall_app. split; [exact Hall | now repeat constructor].
Qed.

Lemma closed_by_durations ts (l l' : list Event) :
  Forall2 (closed_by ts) l l' ->
  Forall (fun t => t <= ts)%Z (map e_timestamp l) ->
  Forall duration_ok l -> Forall duration_ok l'.
Proof.
  induction 1 as [|e e' l l' H _ IH]; intros Hb Hd; [constructor|].
  cbn [map] in Hb. inversion Hb; subst. inversion Hd; subst.
  constructor; [|now apply IH].
  destruct H as [->|(_ & ->)]; [assumption|].
  unfold duration_ok. cbn [with_duration e_duration]. lia.
Qed.

Lemma event_log_later db now now' :
  (now <= now')%Z -> event_log db now -> event_log db now'.
Proof.
  intros Hle (A & B & C). split; [exact A|]. split; [|exact C].
  eapply Forall_impl; [|exact B]. cbn. intros; lia.
Qed.

Section TimestampsFrom.
Variable known : Z -> Prop.

(** With an override timestamp, a detector call advances the log to that
    timestamp; it appends a row exactly when it returns an event. *)
Lemma detect_edge_log cfg clk db m s l1 l2 ts now :
  event_log db now -> (now <= ts)%Z -> known ts ->
  Forall known (map e_timestamp (load_events db)) ->
  let r := detect_edge cfg clk db m s l1 l2 (Some ts) in
  let db' := snd (fst r) in
  event_log db' ts /\
  Forall known (map e_timestamp (load_events db')) /\
  length (load_events db') =
    (if emitted (fst (fst r)) then S (length (load_events db))
     else length (load_events db)) /\
  Forall (fun e => e_leg e = classify_leg l1 l2 \/ In (e_leg e) (map e_leg (load_events db)))
         (load_events db').
Proof.
  intros Hlog Hle Hk Hks. cbv zeta.
  pose proof Hlog as (Hsort & Hb & Hd & Hid & Hn).
  pose proof (detect_edge_events cfg clk db m s l1 l2 (Some ts) Hn) as H.
  destruct (detect_edge cfg clk db m s l1 l2 (Some ts)) as [[[ev|] db'] m'];
    cbn [fst snd emitted].
  - destruct H as (evs & Hcl & Hev & Hseq & Hts & Hleg & Hdur).
    cbn [event_stamp] in *.
    assert (Ets : map e_timestamp evs = map e_timestamp (load_events db)).
    { apply (closed_by_map e_timestamp ts); [|exact Hcl].
      intros e e' Hc. apply (closed_by_fields _ _ _ Hc). }
    assert (Eid : map e_id evs = map e_id (load_events db)).
    { apply (closed_by_map e_id ts); [|exact Hcl].
      intros e e' Hc. apply (closed_by_fields _ _ _ Hc). }
    assert (Eleg : map e_leg evs = map e_leg (load_events db)).
    { apply (closed_by_map e_leg ts); [|exact Hcl].
      intros e e' Hc. apply (closed_by_fields _ _ _ Hc). }
    assert (Hb' : Forall (fun t => t <= ts)%Z (map e_timestamp (load_events db))).
    { eapply Forall_impl; [|exact Hb]. cbn. intros; lia. }
    split; [|split; [|split]].
    + unfold event_log. rewrite Hev, Hseq, !map_app, Ets, Eid.
      cbn [map event_row e_timestamp e_id]. rewrite Hts.
      split; [now apply sorted_snoc|].
      split; [apply Forall_app; split; [exact Hb' | repeat constructor; lia]|].
      split; [|split].
      * apply Forall_app. split; [now apply (closed_by_durations ts (load_events db))|].
        repeat constructor. unfold duration_ok, event_row. cbn [e_duration].
        destruct (ed_duration ev) as [d|]; [|exact I].
        destruct Hdur as (_ & on & Hin & _ & -> & _).
        rewrite Forall_forall in Hb'. specialize (Hb' _ (in_map e_timestamp _ _ Hin)).
        lia.
      * apply Forall_app. split; [|repeat constructor; lia].
        eapply Forall_impl; [|exact Hid]. cbn. intros; lia.
      * apply NoDup_app; [exact Hn | repeat constructor; intros [] |].
        intros x Hx [<-|[]]. rewrite Forall_forall in Hid. specialize (Hid _ Hx). lia.
    + rewrite Hev, map_app, Ets. cbn [map event_row e_timestamp]. rewrite Hts.
      apply Forall_app. split; [exact Hks | now repeat constructor].
    + rewrite Hev, length_app. cbn [length].
      apply (f_equal (@length Z)) in Eid. rewrite !length_map in Eid. lia.
    + rewrite Hev. apply Forall_app. split.
      * apply Forall_forall. intros e He. right. rewrite <- Eleg. now apply in_map.
      * constructor; [|constructor]. left. exact Hleg.
  - subst db'. split; [now apply (event_log_later db now)|].
    split; [exact Hks|]. split; [reflexivity|].
    apply Forall_forall. intros e He. right. now apply in_map.
Qed.

Lemma replay_log cfg clock (samples : list Sample) : forall i db m n now,
  StronglySorted sample_ts_le samples ->
  Forall (fun x => now <= s_timestamp x)%Z samples ->
  Forall (fun x => known (s_timestamp x)) samples ->
  event_log db now ->
  Forall known (map e_timestamp (load_events db)) ->
  let r := replay cfg clock i samples db m n in
  (exists now', event_log (snd (fst r)) now') /\
  Forall known (map e_timestamp (load_events (snd (fst r)))) /\
  (fst (fst r) + length (load_events db) = n + length (load_events (snd (fst r))))%nat.
Proof.
  induction samples as [|x rest IH]; intros i db m n now Hs Hge Hk Hlog Hks; cbv zeta.
  - cbn [replay fst snd]. split; [now exists now|]. split; [exact Hks | lia].
  - cbn [replay].
    set (m1 := mem_append m (s_load_total x) (s_load_l1 x) (s_load_l2 x)).
    inversion Hs as [|? ? Hs' Hall]; subst.
    inversion Hge as [|? ? Hx Hge']; subst. inversion Hk as [|? ? Hkx Hk']; subst.
    destruct (detect_edge_log cfg (clock i) db m1 (_smooth (recent_loads m1))
                (Some (s_load_l1 x)) (Some (s_load_l2 x)) (s_timestamp x) now
                Hlog Hx Hkx Hks) as (Hlog1 & Hks1 & Hlen & _).
    destruct (detect_edge cfg (clock i) db m1 _ _ _ _) as [[ev db1] m2].
    cbn [fst snd] in Hlog1, Hks1, Hlen.
    specialize (IH (S i) db1 m2
                   (match ev with Some _ => S n | None => n end) (s_timestamp x)
                   Hs' Hall Hk' Hlog1 Hks1).
    cbv zeta in IH. destruct IH as (A & B & C).
    split; [exact A|]. split; [exact B|].
    destruct ev; cbn [emitted] in Hlen; lia.
Qed.
End TimestampsFrom.

(** X6.  What [reanalyze] leaves behind agrees with what it reports: the
    returned counts are the row counts of the three tables, the events lie in
    the table in the order of their timestamps, each bearing the timestamp
    of a stored sample, no recorded duration is negative, and every
    signature is inactive. *)
Theorem reanalyze_rebuilds_event_log cfg clock db m :
  let r := reanalyze cfg clock db m in
  let summary := fst (fst r) in
  let db' := snd (fst r) in
  load_samples db' = load_samples db /\
  sm_samples summary = length (load_samples db') /\
  sm_events summary = length (load_events db') /\
  sm_signatures summary = length (appliance_signatures db') /\
  StronglySorted Z.le (map e_timestamp (load_events db')) /\
  Forall (fun e => In (e_timestamp e) (map s_timestamp (load_samples db)))
         (load_events db') /\
  Forall duration_ok (load_events db') /\
  Forall (fun s => is_active s = false /\ active_count s = 0%Z)
         (appliance_signatures db').
Proof.
  cbv zeta. rewrite reanalyze_unfold.
  pose proof (length_samples_in_order (load_samples db)) as Hlen.
  destruct (samples_in_order (load_samples db)) as [|x rest] eqn:E.
  - cbn [fst snd clear_detections load_samples load_events appliance_signatures
         sm_samples sm_events sm_signatures map length].
    cbn [length] in Hlen.
    repeat split; try constructor. exact Hlen.
  - cbv zeta. cbn [fst snd sm_samples sm_events sm_signatures].
    set (saved := _save_user_labels db).
    set (db3 := snd (fst (rebuilt cfg clock db))).
    destruct (restore_frame cfg saved (appliance_signatures db3) db3) as (F1 & _ & F3).
    destruct (restore_user_labels_frame cfg saved (appliance_signatures db3) db3)
      as (F4 & _ & _ & F5).
    cbv zeta in F1, F3, F4, F5. fold (_restore_user_labels cfg db3 saved) in *.
    assert (Hlog0 : event_log (clear_detections db) (s_timestamp x)).
    { repeat split; cbn; constructor. }
    assert (Hsorted : StronglySorted sample_ts_le (x :: rest))
      by (rewrite <- E; apply samples_in_order_sorted).
    assert (Hge : Forall (fun y => s_timestamp x <= s_timestamp y)%Z (x :: rest)).
    { inversion Hsorted; subst. constructor; [lia | assumption]. }
    assert (Hk : Forall (fun y => In (s_timestamp y) (map s_timestamp (load_samples db)))
                   (x :: rest)).
    { apply Forall_forall. intros y Hy. apply in_map.
      apply In_samples_in_order. now rewrite E. }
    destruct (replay_log (fun t => In t (map s_timestamp (load_samples db)))
                cfg clock (x :: rest) 0%nat (clear_detections db) (initial_mem cfg)
                0%nat (s_timestamp x) Hsorted Hge Hk Hlog0 (Forall_nil _))
      as ((now' & Hlog) & Hks & Hcount).
    cbv zeta in Hlog, Hks, Hcount.
    assert (Hev3 : load_events db3 =
                   load_events (snd (fst (replay cfg clock 0 (x :: rest)
                                            (clear_detections db) (initial_mem cfg) 0))))
      by (subst db3; unfold rebuilt; rewrite E; reflexivity).
    assert (Hn3 : fst (fst (rebuilt cfg clock db)) =
                  fst (fst (replay cfg clock 0 (x :: rest)
                              (clear_detections db) (initial_mem cfg) 0)))
      by (unfold rebuilt; rewrite E; reflexivity).
    rewrite F1, F4, Hev3, Hn3.
    destruct Hlog as (Hs & _ & Hd & _).
    split; [|split; [|split; [|split; [|split; [|split; [|split]]]]]].
    + subst db3. unfold rebuilt. cbn [fst snd load_samples set_signatures].
      now rewrite replay_samples.
    + subst db3. unfold rebuilt. cbn [fst snd load_samples set_signatures].
      rewrite replay_samples. cbn [load_samples clear_detections]. exact Hlen.
    + cbn [load_events clear_detections length] in Hcount. lia.
    + apply (f_equal (@length Z)) in F3. now rewrite !length_map in F3.
    + exact Hs.
    + apply (proj1 (Forall_map e_timestamp
                      (fun t => In t (map s_timestamp (load_samples db))) _)).
      exact Hks.
    + exact Hd.
    + assert (Hact : Forall (fun t : bool * Z * Leg => fst (fst t) = false /\
                                                       snd (fst t) = 0%Z)
                       (map (fun s => (is_active s, active_count s, leg_pattern s))
                            (appliance_signatures (_restore_user_labels cfg db3 saved)))).
      { rewrite F5. subst db3. unfold rebuilt.
        cbn [fst snd appliance_signatures set_signatures].
        rewrite map_map. apply Forall_map. apply Forall_forall. intros s _.
        split; reflexivity. }
      apply Forall_map in Hact. exact Hact.
Qed.

(** ** Columns of a signature that the bookkeeping never writes *)

Section SignatureColumn.
Context {B : Type}.
Variable col : Signature -> B.
Hypothesis col_active : forall a n s, col (set_active a n s) = col s.
Hypothesis col_active_on : forall n ts s, col (set_active_on n ts s) = col s.
Hypothesis col_avg_duration : forall d s, col (set_avg_duration d s) = col s.
Hypothesis col_daily_cycles : forall c s, col (set_daily_cycles c s) = col s.

Let cols (db : Store) : list B := map col (appliance_signatures db).

Lemma update_sig_column db id f :
  (forall s, col (f s) = col s) -> cols (update_sig db id f) = cols db.
Proof.
  intro Hf. unfold cols. cbn [update_sig set_signatures appliance_signatures].
  unfold update_sig_rows. rewrite map_map. apply map_ext.
  intro s. destruct (sg_id s =? id)%Z; [apply Hf | reflexivity].
Qed.

Lemma decrement_similar_column cfg pd rows : forall db,
  cols (decrement_similar cfg pd rows db) = cols db.
Proof.
  induction rows as [|o rows IH]; intro db; cbn [decrement_similar]; [reflexivity|].
  destruct (Qle_bool _ _); [|apply IH].
  destruct (_ <=? 0)%Z; apply update_sig_column; intro x; apply col_active.
Qed.

Lemma active_state_column cfg db sid ty ts pd :
  cols (_update_signature_active_state cfg db sid ty ts pd) = cols db.
Proof.
  unfold _update_signature_active_state. destruct ty.
  - apply update_sig_column. intro x. apply col_active_on.
  - destruct (find _ _) as [s|].
    + destruct (0 <? active_count s)%Z.
      * destruct (_ <=? 0)%Z; apply update_sig_column; intro x; apply col_active.
      * destruct (Qltb 0 pd); [apply decrement_similar_column | reflexivity].
    + destruct (Qltb 0 pd); [apply decrement_similar_column | reflexivity].
Qed.

Lemma pair_on_off_event_column cfg db sid ts pd :
  cols (snd (pair_on_off_event cfg db sid ts pd)) = cols db.
Proof.
  unfold pair_on_off_event.
  destruct (pairing_choice cfg db sid ts pd) as [[on_id on_ts]|]; cbn [snd];
    [|reflexivity].
  unfold _update_avg_duration. destruct (get_signature _ sid); [|reflexivity].
  rewrite update_sig_column; [reflexivity|]. intro x. apply col_avg_duration.
Qed.

Lemma daily_stats_column clk db sid pd d :
  cols (_update_daily_stats clk db sid pd d) = cols db.
Proof.
  unfold _update_daily_stats, _update_daily_cycles.
  destruct (avg_cycles _) as [a|]; [|reflexivity].
  destruct (Qeq_bool a 0); [reflexivity|].
  rewrite update_sig_column; [reflexivity|]. intro x. apply col_daily_cycles.
Qed.

Lemma store_event_column cfg clk db ts ty pd leg d sid conf :
  cols (store_event cfg clk db ts ty pd leg d sid conf) = cols db.
Proof.
  unfold store_event.
  match goal with
  | |- context [_update_signature_active_state cfg ?db3 sid ty ts pd] =>
      assert (Hact : cols (_update_signature_active_state cfg db3 sid ty ts pd) = cols db)
        by (rewrite active_state_column; reflexivity)
  end.
  destruct ty; [exact Hact|].
  destruct d as [d0|]; [|exact Hact].
  destruct (d0 =? 0)%Z; [exact Hact|].
  now rewrite daily_stats_column.
Qed.

(** After the signature is resolved, the column stays as it is. *)
Lemma record_edge_column cfg clk db delta raw l1 l2 ots :
  cols (snd (record_edge cfg clk db delta raw l1 l2 ots)) =
  cols (snd (resolve_signature cfg db (py_round (Qabs delta) 1) (classify_leg l1 l2))).
Proof.
  rewrite record_edge_steps. cbv zeta. cbn [snd]. rewrite store_event_column.
  destruct (Qltb 0 delta); [reflexivity | apply pair_on_off_event_column].
Qed.
End SignatureColumn.

Lemma resolve_signature_legs cfg db pd leg :
  Forall (fun l => l = leg \/ In l (map leg_pattern (appliance_signatures db)))
         (map leg_pattern (appliance_signatures (snd (resolve_signature cfg db pd leg)))).
Proof.
  assert (Hold : forall l', Forall (fun l => l = leg \/ In l l') l').
  { intro l'. apply Forall_forall. intros; now right. }
  unfold resolve_signature.
  assert (Hc : Forall (fun l => l = leg \/ In l (map leg_pattern (appliance_signatures db)))
                 (map leg_pattern
                    (appliance_signatures (snd (create_signature db pd leg))))).
  { unfold create_signature. cbn [snd appliance_signatures]. rewrite map_app.
    apply Forall_app. split; [apply Hold|]. constructor; [now left | constructor]. }
  destruct (find_matching_signature cfg db pd leg) as [id|]; [|exact Hc].
  destruct (id =? 0)%Z; [exact Hc|]. cbn [snd].
  unfold update_signature. destruct (get_signature db id); [|apply Hold].
  rewrite (update_sig_column leg_pattern); [apply Hold | reflexivity].
Qed.

Lemma detect_edge_legs cfg clk db m s l1 l2 ots :
  Forall (fun l => l = classify_leg l1 l2 \/
                   In l (map leg_pattern (appliance_signatures db)))
         (map leg_pattern
              (appliance_signatures (snd (fst (detect_edge cfg clk db m s l1 l2 ots))))).
Proof.
  assert (Hold : Forall (fun l => l = classify_leg l1 l2 \/
                                  In l (map leg_pattern (appliance_signatures db)))
                   (map leg_pattern (appliance_signatures db))).
  { apply Forall_forall. intros; now right. }
  unfold detect_edge.
  destruct (stable_level m) as [level|]; [|exact Hold].
  destruct (Qltb _ (EDGE_THRESHOLD cfg)); [exact Hold|].
  destruct (Qltb _ (DEBOUNCE_SECONDS cfg)); [exact Hold|].
  pose proof (record_edge_column leg_pattern) as Hc.
  specialize (Hc ltac:(reflexivity) ltac:(reflexivity) ltac:(reflexivity)
                 ltac:(reflexivity) cfg clk db (raw_current m s - level)
                 (raw_current m s) l1 l2 ots).
  destruct (record_edge cfg clk db _ _ l1 l2 ots) as [ev db']. cbn [fst snd] in *.
  rewrite Hc. apply resolve_signature_legs.
Qed.

(** ** Replaying the remote history *)

Lemma detect_edge_rows (known : Z -> Prop) cfg clk db m s l1 l2 ts :
  event_ids_bounded db -> known ts ->
  Forall known (map e_timestamp (load_events db)) ->
  let r := detect_edge cfg clk db m s l1 l2 (Some ts) in
  let db' := snd (fst r) in
  event_ids_bounded db' /\
  Forall known (map e_timestamp (load_events db')) /\
  length (load_events db') =
    (if emitted (fst (fst r)) then S (length (load_events db))
     else length (load_events db)) /\
  Forall (fun e => e_leg e = classify_leg l1 l2 \/ In (e_leg e) (map e_leg (load_events db)))
         (load_events db').
Proof.
  intros (Hid & Hn) Hk Hks. cbv zeta.
  pose proof (detect_edge_events cfg clk db m s l1 l2 (Some ts) Hn) as H.
  destruct (detect_edge cfg clk db m s l1 l2 (Some ts)) as [[[ev|] db'] m'];
    cbn [fst snd emitted].
  - destruct H as (evs & Hcl & Hev & Hseq & Hts & Hleg & _).
    cbn [event_stamp] in *.
    assert (Ets : map e_timestamp evs = map e_timestamp (load_events db)).
    { apply (closed_by_map e_timestamp ts); [|exact Hcl].
      intros e e' Hc. apply (closed_by_fields _ _ _ Hc). }
    assert (Eid : map e_id evs = map e_id (load_events db)).
    { apply (closed_by_map e_id ts); [|exact Hcl].
      intros e e' Hc. apply (closed_by_fields _ _ _ Hc). }
    assert (Eleg : map e_leg evs = map e_leg (load_events db)).
    { apply (closed_by_map e_leg ts); [|exact Hcl].
      intros e e' Hc. apply (closed_by_fields _ _ _ Hc). }
    split; [|split; [|split]].
    + unfold event_ids_bounded. rewrite Hev, Hseq, !map_app, Eid.
      cbn [map event_row e_id]. split.
      * apply Forall_app. split; [|repeat constructor; lia].
        eapply Forall_impl; [|exact Hid]. cbn. intros; lia.
      * apply NoDup_app; [exact Hn | repeat constructor; intros [] |].
        intros x Hx [<-|[]]. rewrite Forall_forall in Hid. specialize (Hid _ Hx). lia.
    + rewrite Hev, map_app, Ets. cbn [map event_row e_timestamp]. rewrite Hts.
      apply Forall_app. split; [exact Hks | now repeat constructor].
    + rewrite Hev, length_app. cbn [length].
      apply (f_equal (@length Z)) in Eid. rewrite !length_map in Eid. lia.
    + rewrite Hev. apply Forall_app. split.
      * apply Forall_forall. intros e He. right. rewrite <- Eleg. now apply in_map.
      * constructor; [|constructor]. left. exact Hleg.
  - subst db'. split; [now split|].
    split; [exact Hks|]. split; [reflexivity|].
    apply Forall_forall. intros e He. right. now apply in_map.
Qed.

Lemma replay_influx_rows (known : Z -> Prop) cfg clock (samples : list (Z * Q)) :
  forall i db m n,
    Forall (fun x => known (fst x)) samples ->
    event_ids_bounded db ->
    Forall known (map e_timestamp (load_events db)) ->
    Forall (fun e => e_leg e = LegBoth) (load_events db) ->
    Forall (fun s => leg_pattern s = LegBoth) (appliance_signatures db) ->
    let r := replay_influx cfg clock i samples db m n in
    Forall known (map e_timestamp (load_events (snd (fst r)))) /\
    (fst (fst r) + length (load_events db) = n + length (load_events (snd (fst r))))%nat /\
    Forall (fun e => e_leg e = LegBoth) (load_events (snd (fst r))) /\
    Forall (fun s => leg_pattern s = LegBoth) (appliance_signatures (snd (fst r))) /\
    load_samples (snd (fst r)) = load_samples db.
Proof.
  induction samples as [|[ts total] rest IH]; intros i db m n Hk Hb Hks Hl Hsl; cbv zeta.
  - cbn [replay_influx fst snd]. repeat split; assumption.
  - cbn [replay_influx]. set (m1 := mem_append_total m total).
    inversion Hk as [|? ? Hkx Hk']; subst. cbn [fst] in Hkx.
    destruct (detect_edge_rows known cfg (clock i) db m1 (_smooth (recent_loads m1))
                None None ts Hb Hkx Hks) as (Hb1 & Hks1 & Hlen & Hleg).
    pose proof (detect_edge_legs cfg (clock i) db m1 (_smooth (recent_loads m1))
                  None None (Some ts)) as Hsl1.
    pose proof (detect_edge_samples cfg (clock i) db m1 (_smooth (recent_loads m1))
                  None None (Some ts)) as Hsm.
    destruct (detect_edge cfg (clock i) db m1 _ None None _) as [[ev db1] m2].
    cbn [fst snd] in Hb1, Hks1, Hlen, Hleg, Hsl1, Hsm.
    assert (Hl1 : Forall (fun e => e_leg e = LegBoth) (load_events db1)).
    { eapply Forall_impl; [|exact Hleg]. cbn. intros e [He|He]; [exact He|].
      apply in_map_iff in He. destruct He as (e0 & <- & He0).
      rewrite Forall_forall in Hl. now apply Hl. }
    assert (Hsl1' : Forall (fun s => leg_pattern s = LegBoth) (appliance_signatures db1)).
    { apply Forall_map in Hsl1. eapply Forall_impl; [|exact Hsl1]. cbn.
      intros s0 [He|He]; [exact He|].
      apply in_map_iff in He. destruct He as (s1 & <- & He1).
      rewrite Forall_forall in Hsl. now apply Hsl. }
    specialize (IH (S i) db1 m2 (match ev with Some _ => S n | None => n end)
                   Hk' Hb1 Hks1 Hl1 Hsl1').
    cbv zeta in IH. destruct IH as (A & B & C & D & F).
    split; [exact A|]. split; [|split; [exact C|split; [exact D|congruence]]].
    destruct ev; cbn [emitted] in Hlen; lia.
Qed.

Lemma replay_influx_log cfg clock (samples : list (Z * Q)) : forall i db m n now,
  StronglySorted Z.le (map fst samples) ->
  Forall (fun t => now <= t)%Z (map fst samples) ->
  event_log db now ->
  exists now', event_log (snd (fst (replay_influx cfg clock i samples db m n))) now'.
Proof.
  induction samples as [|[ts total] rest IH]; intros i db m n now Hs Hge Hlog.
  - now exists now.
  - cbn [replay_influx]. set (m1 := mem_append_total m total).
    cbn [map fst] in Hs, Hge.
    inversion Hs as [|? ? Hs' Hall]; subst. inversion Hge as [|? ? Hx Hge']; subst.
    destruct (detect_edge_log (fun _ => True) cfg (clock i) db m1
                (_smooth (recent_loads m1)) None None ts now Hlog Hx I)
      as (Hlog1 & _).
    { apply Forall_forall. intros; exact I. }
    destruct (detect_edge cfg (clock i) db m1 _ None None _) as [[ev db1] m2].
    cbn [fst snd] in Hlog1.
    apply (IH (S i) db1 m2 _ ts Hs' Hall Hlog1).
Qed.

(** X7.  A remote history with at least one usable value rebuilds the
    detections from it alone: the stored samples are neither read nor
    written, the report carries no error and its counts are the number of
    usable values and the row counts of the event and signature tables, every
    event bears the timestamp of a replayed value, and, no leg readings being
    available, every event and every signature is recorded on both legs; all
    signatures end inactive.  If the values arrive in time order, the event
    table is in timestamp order and holds no negative duration. *)
Theorem reanalyze_from_influx_rebuilds cfg clock rs db m first others :
  all_samples rs = first :: others ->
  let r := reanalyze_from_influx cfg clock (Some rs) db m in
  let report := fst (fst r) in
  let db' := snd (fst r) in
  has_error report = false /\
  rp_samples report = length (all_samples rs) /\
  rp_events report = length (load_events db') /\
  rp_signatures report = length (appliance_signatures db') /\
  rp_date_range report = Some (fst first, fst (last others first)) /\
  load_samples db' = load_samples db /\
  Forall (fun e => e_leg e = LegBoth /\
                   In (e_timestamp e) (map fst (all_samples rs))) (load_events db') /\
  Forall (fun s => leg_pattern s = LegBoth /\ is_active s = false /\
                   active_count s = 0%Z) (appliance_signatures db') /\
  (StronglySorted Z.le (map fst (all_samples rs)) ->
   StronglySorted Z.le (map e_timestamp (load_events db')) /\
   Forall duration_ok (load_events db')).
Proof.
  intro Hall. cbv zeta. unfold reanalyze_from_influx.
  destruct rs as [|r0 rs0]; [discriminate|]. rewrite Hall.
  assert (Hb0 : event_ids_bounded (clear_detections db)) by (split; constructor).
  assert (Hk : Forall (fun x : Z * Q => In (fst x) (map fst (first :: others)))
                 (first :: others)).
  { apply Forall_forall. intros x Hx. now apply in_map. }
  destruct (replay_influx_rows (fun t => In t (map fst (first :: others)))
              cfg clock (first :: others) 0%nat (clear_detections db) (initial_mem cfg)
              0%nat Hk Hb0 (Forall_nil _) (Forall_nil _) (Forall_nil _))
    as (Hks & Hcount & Hlegs & Hsl & Hsm).
  pose proof (replay_influx_log cfg clock (first :: others) 0%nat (clear_detections db)
                (initial_mem cfg) 0%nat (fst first)) as Hlog.
  destruct (replay_influx cfg clock 0 (first :: others) _ _ 0) as [[n db2] m2].
  cbn [fst snd] in *.
  set (saved := _save_user_labels db).
  set (db3 := set_signatures db2 (map (set_active false 0) (appliance_signatures db2))).
  destruct (restore_frame cfg saved (appliance_signatures db3) db3) as (F1 & _ & F3).
  destruct (restore_user_labels_frame cfg saved (appliance_signatures db3) db3)
    as (F4 & _ & _ & F5).
  cbv zeta in F1, F3, F4, F5. fold (_restore_user_labels cfg db3 saved) in *.
  cbn [rp_samples rp_events rp_signatures rp_date_range].
  rewrite F1, F4. subst db3. cbn [load_samples load_events set_signatures].
  split; [reflexivity|]. split; [reflexivity|].
  split; [cbn [load_events clear_detections length] in Hcount; lia|].
  split; [|split; [reflexivity|split; [exact Hsm|split; [|split]]]].
  - apply (f_equal (@length Z)) in F3. now rewrite !length_map in F3.
  - apply Forall_forall. intros e He. split.
    + rewrite Forall_forall in Hlegs. now apply Hlegs.
    + rewrite Forall_forall in Hks. apply Hks. now apply in_map.
  - assert (Hact : Forall (fun t : bool * Z * Leg =>
                             snd t = LegBoth /\ fst (fst t) = false /\ snd (fst t) = 0%Z)
                     (map (fun s => (is_active s, active_count s, leg_pattern s))
                        (appliance_signatures
                           (_restore_user_labels cfg
                              (set_signatures db2
                                 (map (set_active false 0) (appliance_signatures db2)))
                              saved)))).
    { rewrite F5. cbn [appliance_signatures set_signatures].
      rewrite map_map. apply Forall_map. apply Forall_forall. intros s Hs.
      cbn [fst snd set_active is_active active_count leg_pattern].
      rewrite Forall_forall in Hsl. split; [now apply Hsl | split; reflexivity]. }
    apply Forall_map in Hact. exact Hact.
  - intro Hsorted.
    assert (Hge : Forall (fun t => fst first <= t)%Z (map fst (first :: others))).
    { cbn [map]. inversion Hsorted; subst. constructor; [lia | assumption]. }
    destruct (Hlog Hsorted Hge) as (now' & Hs & _ & Hd & _).
    { repeat split; cbn; constructor. }
    split; assumption.
Qed.

(** One result with one series: a null power, an unparsable time, and two
    readings 150 W apart. *)
Lemma reanalyze_from_influx_rebuilds_witness :
  rp_samples
    (fst (fst (reanalyze_from_influx default_config clock_day11
                 (Some [[[mkInfluxValue (Some 100000%Z) None;
                          mkInfluxValue None (Some 100);
                          mkInfluxValue (Some 100000%Z) (Some 100);
                          mkInfluxValue (Some 100010%Z) (Some 250)]]])
                 store_named (initial_mem default_config)))) = 2%nat.
Proof.
  destruct (reanalyze_from_influx_rebuilds default_config clock_day11
              [[[mkInfluxValue (Some 100000%Z) None;
                 mkInfluxValue None (Some 100);
                 mkInfluxValue (Some 100000%Z) (Some 100);
                 mkInfluxValue (Some 100010%Z) (Some 250)]]]
              store_named (initial_mem default_config)
              (100000%Z, 100) [(100010%Z, 250)] eq_refl) as (_ & H & _).
  exact (eq_trans H eq_refl).
Defined.

(** ** The reanalysis route: remote history first, local samples otherwise *)

Lemma reanalyze_from_influx_unusable cfg clock results db m :
  usable_samples results = [] ->
  exists msg,
    reanalyze_from_influx cfg clock results db m =
      (mkReport 0 0 0 (Some msg) None None, db, m) /\
    has_error (mkReport 0 0 0 (Some msg) None None) = true.
Proof.
  intro H. unfold reanalyze_from_influx.
  destruct results as [[|r rs]|]; cbn [usable_samples] in H.
  - eexists. split; reflexivity.
  - rewrite H. eexists. split; reflexivity.
  - eexists. split; reflexivity.
Qed.

Lemma reanalyze_from_influx_usable cfg clock results db m :
  usable_samples results <> [] ->
  has_error (fst (fst (reanalyze_from_influx cfg clock results db m))) = false.
Proof.
  intro H. unfold reanalyze_from_influx.
  destruct results as [[|r rs]|]; cbn [usable_samples] in H; try congruence.
  - exfalso. now apply H.
  - destruct (all_samples (r :: rs)) as [|first others]; [congruence|].
    destruct (replay_influx cfg clock 0 (first :: others) _ _ 0) as [[n db2] m2].
    reflexivity.
Qed.

(** X8.  The reanalysis route takes the remote history whenever it holds a
    usable value, and then never replays the local samples; when it holds
    none (no answer, no result, only null powers or unparsable times), the
    remote attempt has left store and memory untouched and the route's answer
    is that of [reanalyze] on the local samples. *)
Theorem api_nilm_reanalyze_source cfg clock results db m :
  (usable_samples results = [] ->
   fst (reanalyze_from_influx cfg clock results db m) =
     (fst (fst (reanalyze_from_influx cfg clock results db m)), db) /\
   snd (reanalyze_from_influx cfg clock results db m) = m /\
   api_nilm_reanalyze cfg clock results db m =
     (report_of (fst (fst (reanalyze cfg clock db m))),
      snd (fst (reanalyze cfg clock db m)),
      snd (reanalyze cfg clock db m))) /\
  (usable_samples results <> [] ->
   api_nilm_reanalyze cfg clock results db m =
     reanalyze_from_influx cfg clock results db m /\
   rp_error (fst (fst (api_nilm_reanalyze cfg clock results db m))) = None /\
   rp_samples (fst (fst (api_nilm_reanalyze cfg clock results db m))) =
     length (usable_samples results)).
Proof.
  split; intro H.
  - destruct (reanalyze_from_influx_unusable cfg clock results db m H) as (msg & E & He).
    unfold api_nilm_reanalyze. rewrite E. cbn [fst snd]. rewrite He.
    split; [reflexivity|]. split; [reflexivity|].
    destruct (reanalyze cfg clock db m) as [[summary db2] m2]. reflexivity.
  - pose proof (reanalyze_from_influx_usable cfg clock results db m H) as He.
    assert (Ha : api_nilm_reanalyze cfg clock results db m =
                 reanalyze_from_influx cfg clock results db m).
    { unfold api_nilm_reanalyze.
      destruct (reanalyze_from_influx cfg clock results db m) as [[result db1] m1].
      cbn [fst] in He. now rewrite He. }
    rewrite Ha. split; [reflexivity|].
    unfold reanalyze_from_influx.
    destruct results as [[|r rs]|]; cbn [usable_samples] in *; try congruence.
    + exfalso. now apply H.
    + destruct (all_samples (r :: rs)) as [|first others]; [congruence|].
      destruct (replay_influx cfg clock 0 (first :: others) _ _ 0) as [[n db2] m2].
      split; reflexivity.
Qed.

(** ** cleanup_old_data *)

Lemma join_signature_same_signatures db db' (l : list Event) :
  appliance_signatures db' = appliance_signatures db ->
  join_signature db' l = join_signature db l.
Proof.
  intro H. unfold join_signature, get_signature. now rewrite H.
Qed.

Lemma filter_after_delete {Row : Type} (wanted kept : Row -> bool) (rows : list Row) :
  (forall r, wanted r = true -> kept r = true) ->
  filter wanted (filter kept rows) = filter wanted rows.
Proof.
  intro H. induction rows as [|r rows IH]; [reflexivity|].
  cbn [filter]. destruct (kept r) eqn:Ek.
  - cbn [filter]. now rewrite IH.
  - destruct (wanted r) eqn:Ew; [|exact IH].
    rewrite (H r Ew) in Ek. discriminate.
Qed.

Lemma unresolved_after_expiry cutoff (kept : Event -> bool) (evs : list Event) :
  (forall e, kept e = false -> (e_timestamp e < cutoff)%Z) ->
  filter unresolved_on (expire_before cutoff (filter kept evs)) =
  filter unresolved_on (expire_before cutoff evs).
Proof.
  intro H. induction evs as [|e evs IH]; [reflexivity|].
  cbn [filter]. destruct (kept e) eqn:Ek.
  - cbn [expire_before map filter]. fold (expire_before cutoff (filter kept evs)).
    fold (expire_before cutoff evs). now rewrite IH.
  - cbn [expire_before map filter]. fold (expire_before cutoff evs).
    apply H in Ek. apply Z.ltb_lt in Ek. rewrite Ek, andb_true_r.
    destruct (unresolved_on e) eqn:Eu.
    + assert (Es : unresolved_on (with_duration e stale) = false)
        by (unfold unresolved_on; cbn; apply andb_false_r).
      cbn [filter]. rewrite Es. exact IH.
    + rewrite Eu. exact IH.
Qed.

Lemma prune_oldest_list limit (active : list ActiveEntry) :
  forall total evs evs',
    fst (prune_oldest limit active total evs) = fst (prune_oldest limit active total evs').
Proof.
  induction active as [|a rest IH]; intros total evs evs'; [reflexivity|].
  cbn [prune_oldest]. destruct (Qltb limit total); [apply IH | reflexivity].
Qed.

Lemma cleanup_active_list cfg c1 c2 clk db load :
  (datetime_now c2 - 30 * 86400 <= datetime_now clk - 4 * 3600)%Z ->
  fst (get_active_appliances cfg clk (cleanup_old_data c1 c2 db) load) =
  fst (get_active_appliances cfg clk db load).
Proof.
  intro Hc. unfold get_active_appliances.
  set (cut := (datetime_now clk - 4 * 3600)%Z).
  set (dbc := cleanup_old_data c1 c2 db).
  set (db1 := set_events db (expire_before cut (load_events db))).
  set (db1c := set_events dbc (expire_before cut (load_events dbc))).
  assert (Hrows : join_signature db1c (order_by_ts (filter unresolved_on (load_events db1c)))
                  = join_signature db1 (order_by_ts (filter unresolved_on (load_events db1)))).
  { rewrite (join_signature_same_signatures db1 db1c) by reflexivity.
    subst db1 db1c dbc. cbn [load_events set_events cleanup_old_data].
    rewrite unresolved_after_expiry; [reflexivity|].
    intros e He. apply negb_false_iff, Z.ltb_lt in He. subst cut. lia. }
  rewrite Hrows.
  destruct load as [l|]; [|reflexivity].
  destruct (map (active_entry (datetime_now clk)) _) as [|a rest]; [reflexivity|].
  match goal with
  | |- context [prune_oldest ?l ?ac ?t (load_events db1c)] =>
      pose proof (prune_oldest_list l ac t (load_events db1c) (load_events db1)) as Hp;
      destruct (prune_oldest l ac t (load_events db1c)) as [act1 evs1];
      destruct (prune_oldest l ac t (load_events db1)) as [act2 evs2]
  end.
  exact Hp.
Qed.

Lemma cleanup_pairing cfg c1 c2 db sid ts pd :
  (datetime_now c2 - 30 * 86400 <= ts - MAX_PAIRING_HOURS cfg * 3600)%Z ->
  fst (pair_on_off_event cfg (cleanup_old_data c1 c2 db) sid ts pd) =
  fst (pair_on_off_event cfg db sid ts pd).
Proof.
  intro Hc.
  assert (Hch : pairing_choice cfg (cleanup_old_data c1 c2 db) sid ts pd =
                pairing_choice cfg db sid ts pd).
  { unfold pairing_choice, pairing_candidates, effective_off_power.
    rewrite (join_signature_same_signatures db (cleanup_old_data c1 c2 db)) by reflexivity.
    cbn [load_events cleanup_old_data]. rewrite filter_after_delete; [reflexivity|].
    intros e He. apply andb_true_iff in He. destruct He as [_ He].
    apply Z.leb_le in He. apply negb_true_iff, Z.ltb_ge. lia. }
  unfold pair_on_off_event. rewrite Hch.
  destruct (pairing_choice cfg db sid ts pd) as [[on_id on_ts]|]; reflexivity.
Qed.

Lemma filter_twice {Row : Type} (kept : Row -> bool) (rows : list Row) :
  filter kept (filter kept rows) = filter kept rows.
Proof. apply filter_after_delete. auto. Qed.

(** X9.  [cleanup_old_data] deletes samples older than seven days and
    events older than thirty and touches nothing else; running it again at
    the same clock changes nothing more.  Because thirty days exceed both
    the four hours of the staleness cutoff and the pairing lookback, it is
    invisible to the detection: the active-appliance list and the duration
    an "off" event is paired with are what they would be without it. *)
Theorem cleanup_invisible_to_detection cfg c1 c2 db :
  let db' := cleanup_old_data c1 c2 db in
  (forall r, In r (load_samples db') <->
             In r (load_samples db) /\ (datetime_now c1 - 7 * 86400 <= s_timestamp r)%Z) /\
  (forall e, In e (load_events db') <->
             In e (load_events db) /\ (datetime_now c2 - 30 * 86400 <= e_timestamp e)%Z) /\
  appliance_signatures db' = appliance_signatures db /\
  appliance_daily_stats db' = appliance_daily_stats db /\
  cleanup_old_data c1 c2 db' = db' /\
  (forall clk load,
      (datetime_now c2 - 30 * 86400 <= datetime_now clk - 4 * 3600)%Z ->
      fst (get_active_appliances cfg clk db' load) =
      fst (get_active_appliances cfg clk db load)) /\
  (forall sid ts pd,
      (datetime_now c2 - 30 * 86400 <= ts - MAX_PAIRING_HOURS cfg * 3600)%Z ->
      fst (pair_on_off_event cfg db' sid ts pd) = fst (pair_on_off_event cfg db sid ts pd)).
Proof.
  cbv zeta. split; [|split; [|split; [|split; [|split; [|split]]]]].
  - intro r. cbn [load_samples cleanup_old_data]. rewrite filter_In, negb_true_iff, Z.ltb_ge.
    reflexivity.
  - intro e. cbn [load_events cleanup_old_data]. rewrite filter_In, negb_true_iff, Z.ltb_ge.
    reflexivity.
  - reflexivity.
  - reflexivity.
  - unfold cleanup_old_data.
    cbn [load_samples load_events appliance_signatures appliance_daily_stats
         seq_events seq_signatures].
    now rewrite !filter_twice.
  - intros. now apply cleanup_active_list.
  - intros. now apply cleanup_pairing.
Qed.

(** ** startup *)

Lemma startup_none_unresolved db :
  Forall (fun e => unresolved_on e = false) (load_events (snd (startup db))).
Proof.
  unfold startup. cbn [snd load_events]. apply Forall_map, Forall_forall.
  intros e _. unfold unresolved_on.
  destruct (e_event_type e) eqn:Et, (e_duration e) eqn:Ed;
    cbn [with_duration e_event_type e_duration]; rewrite ?Et, ?Ed; reflexivity.
Qed.

Lemma filter_none {Row : Type} (p : Row -> bool) (rows : list Row) :
  Forall (fun r => p r = false) rows -> filter p rows = [].
Proof.
  induction 1 as [|r rows H _ IH]; [reflexivity|]. cbn [filter]. now rewrite H.
Qed.

Lemma expire_before_resolved cutoff (evs : list Event) :
  Forall (fun e => unresolved_on e = false) evs -> expire_before cutoff evs = evs.
Proof.
  induction 1 as [|e evs H _ IH]; [reflexivity|].
  cbn [expire_before map]. fold (expire_before cutoff evs). now rewrite H, IH.
Qed.

Lemma no_unresolved_no_pairing cfg db sid ts pd :
  Forall (fun e => unresolved_on e = false) (load_events db) ->
  pair_on_off_event cfg db sid ts pd = (None, db).
Proof.
  intro H. unfold pair_on_off_event, pairing_choice, pairing_candidates.
  rewrite (filter_none _ (load_events db)); [reflexivity|].
  eapply Forall_impl; [|exact H]. cbn. intros e He. now rewrite He.
Qed.

Lemma startup_twice db : snd (startup (snd (startup db))) = snd (startup db).
Proof.
  unfold startup.
  cbn [snd load_samples load_events appliance_signatures appliance_daily_stats
       seq_events seq_signatures].
  rewrite !map_map. f_equal; apply map_ext; intro e; try reflexivity.
  destruct (e_event_type e) eqn:Et, (e_duration e) eqn:Ed;
    cbn [with_duration e_event_type e_duration]; rewrite ?Et, ?Ed; reflexivity.
Qed.

(** X10.  A restart forgets what was running: after [startup] every
    signature is inactive with no running instance, no "on" event is left
    unresolved (the open ones carry the stale mark -1), the active-appliance
    list is empty whatever the clock and the load, and an "off" edge finds no
    partner among the events recorded before the restart.  The returned
    number is the number of signatures, and a second [startup] changes
    nothing. *)
Theorem startup_forgets_running cfg db :
  let db' := snd (startup db) in
  fst (startup db) = Z.of_nat (length (appliance_signatures db)) /\
  Forall (fun s => is_active s = false /\ active_count s = 0%Z)
         (appliance_signatures db') /\
  Forall (fun e => unresolved_on e = false) (load_events db') /\
  (forall e, In e (load_events db) -> unresolved_on e = true ->
             In (with_duration e stale) (load_events db')) /\
  (forall clk load,
      get_active_appliances cfg clk db' load = ([], db')) /\
  (forall sid ts pd, pair_on_off_event cfg db' sid ts pd = (None, db')) /\
  snd (startup db') = db'.
Proof.
  cbv zeta. pose proof (startup_none_unresolved db) as Hnone.
  split; [|split; [|split; [exact Hnone|split; [|split; [|split]]]]].
  - unfold startup. cbn [fst]. now rewrite length_map.
  - unfold startup. cbn [snd appliance_signatures]. apply Forall_map, Forall_forall.
    intros s _. split; reflexivity.
  - intros e He Hu. unfold startup. cbn [snd load_events]. apply in_map_iff.
    exists e. split; [|exact He].
    apply unresolved_on_iff in Hu. destruct Hu as [-> ->]. reflexivity.
  - intros clk load. unfold get_active_appliances.
    rewrite (expire_before_resolved _ _ Hnone).
    assert (E : set_events (snd (startup db)) (load_events (snd (startup db))) =
                snd (startup db)) by reflexivity.
    rewrite E. rewrite (filter_none _ _ Hnone). cbn [order_by_ts join_signature flat_map map].
    destruct load; reflexivity.
  - intros. now apply no_unresolved_no_pairing.
  - apply startup_twice.
Qed.

(** ** get_recent_events *)

Lemma In_insert_by_ts_desc (e x : Event) (l : list Event) :
  In x (insert_by_ts_desc e l) <-> x = e \/ In x l.
Proof.
  induction l as [|y l IH]; cbn [insert_by_ts_desc].
  - cbn. intuition.
  - destruct (e_timestamp y <=? e_timestamp e)%Z; cbn [In]; [intuition|].
    rewrite IH. intuition.
Qed.

Lemma In_order_by_ts_desc (x : Event) (l : list Event) :
  In x (order_by_ts_desc l) <-> In x l.
Proof.
  induction l as [|y l IH]; cbn [order_by_ts_desc]; [reflexivity|].
  rewrite In_insert_by_ts_desc, IH. cbn. intuition.
Qed.

Lemma insert_by_ts_desc_sorted (e : Event) (l : list Event) :
  StronglySorted (fun a b => ts_le b a) l ->
  StronglySorted (fun a b => ts_le b a) (insert_by_ts_desc e l).
Proof.
  induction 1 as [|y l Hs IH Hall]; cbn [insert_by_ts_desc].
  - repeat constructor.
  - destruct (e_timestamp y <=? e_timestamp e)%Z eqn:E.
    + apply Z.leb_le in E. constructor; [now constructor|].
      constructor; [exact E|].
      eapply Forall_impl; [|exact Hall]. unfold ts_le. intros; lia.
    + apply Z.leb_gt in E. constructor; [exact IH|].
      apply Forall_forall. intros x Hx. apply In_insert_by_ts_desc in Hx.
      destruct Hx as [->|Hx]; [unfold ts_le; lia|].
      rewrite Forall_forall in Hall. now apply Hall.
Qed.

Lemma order_by_ts_desc_sorted (l : list Event) :
  StronglySorted (fun a b => ts_le b a) (order_by_ts_desc l).
Proof.
  induction l; cbn [order_by_ts_desc]; [constructor | now apply insert_by_ts_desc_sorted].
Qed.

Lemma sorted_prefix {Row : Type} (R : Row -> Row -> Prop) (n : nat) (rows : list Row) :
  StronglySorted R rows ->
  StronglySorted R (firstn n rows) /\
  forall a b, In a (firstn n rows) -> In b (skipn n rows) -> R a b.
Proof.
  intro Hs. revert n. induction Hs as [|x rows Hs IH Hall]; intro n.
  - rewrite firstn_nil, skipn_nil. split; [constructor | intros a b []].
  - destruct n as [|n]; cbn [firstn skipn].
    + split; [constructor | intros a b []].
    + destruct (IH n) as (Hf & Hc). split.
      * constructor; [exact Hf|].
        apply Forall_forall. intros y Hy. rewrite Forall_forall in Hall.
        apply Hall. rewrite <- (firstn_skipn n rows). apply in_or_app. now left.
      * intros a b [<-|Ha] Hb; [|now apply Hc].
        rewrite Forall_forall in Hall. apply Hall.
        rewrite <- (firstn_skipn n rows). apply in_or_app. now right.
Qed.

Lemma newest_first db (l : list Event) :
  StronglySorted (fun a b => ts_le b a) l ->
  StronglySorted Z.ge (map (fun e => re_timestamp (recent_event db e)) l).
Proof.
  induction 1 as [|x l Hs IH Hall]; cbn [map]; constructor; [exact IH|].
  apply Forall_map. eapply Forall_impl; [|exact Hall].
  unfold ts_le. cbn [recent_event re_timestamp]. intros; lia.
Qed.

(** X11.  The event feed holds at most 100 entries, newest first, each the
    copy of a stored event no older than the window; an event of the window
    is in the feed unless the feed is full with events at least as new.  An
    entry whose signature is missing (or has an empty label) is shown as
    "Unknown", with the plug icon and the grey colour, otherwise with its
    signature's label. *)
Theorem get_recent_events_feed clk db hours :
  let feed := get_recent_events clk db hours in
  let since := (datetime_now clk - hours * 3600)%Z in
  (length feed <= 100)%nat /\
  StronglySorted Z.ge (map re_timestamp feed) /\
  (forall r, In r feed ->
     exists e, In e (load_events db) /\ (since <= e_timestamp e)%Z /\
               r = recent_event db e) /\
  (forall e, In e (load_events db) -> (since <= e_timestamp e)%Z ->
     In (recent_event db e) feed \/
     (length feed = 100%nat /\
      Forall (fun r => e_timestamp e <= re_timestamp r)%Z feed)) /\
  (forall e, get_signature db (e_signature_id e) = None ->
     re_label (recent_event db e) = "Unknown"%string /\
     re_icon (recent_event db e) = "🔌"%string /\
     re_color (recent_event db e) = "#6b7280"%string) /\
  (forall e s, get_signature db (e_signature_id e) = Some s ->
     user_label s <> EmptyString ->
     re_label (recent_event db e) = user_label s).
Proof.
  cbv zeta. unfold get_recent_events.
  set (since := (datetime_now clk - hours * 3600)%Z).
  set (rows := order_by_ts_desc (filter (fun e => (since <=? e_timestamp e)%Z)
                                        (load_events db))).
  assert (Hin : forall e, In e rows <-> In e (load_events db) /\ (since <= e_timestamp e)%Z).
  { intro e. subst rows. now rewrite In_order_by_ts_desc, filter_In, Z.leb_le. }
  destruct (sorted_prefix _ 100 rows (order_by_ts_desc_sorted _)) as (Hsorted & Hcut).
  split; [|split; [|split; [|split; [|split]]]].
  - rewrite length_map, length_firstn. lia.
  - rewrite map_map. now apply newest_first.
  - intros r Hr. apply in_map_iff in Hr. destruct Hr as (e & <- & He).
    exists e. assert (He' : In e rows).
    { rewrite <- (firstn_skipn 100 rows). apply in_or_app. now left. }
    apply Hin in He'. tauto.
  - intros e He Hs. assert (He' : In e rows) by (apply Hin; tauto).
    rewrite <- (firstn_skipn 100 rows) in He'. apply in_app_or in He'.
    destruct He' as [Hf|Hk]; [left; now apply in_map|]. right.
    assert (Hlen : (100 < length rows)%nat).
    { assert (length (skipn 100 rows) <> 0%nat)
        by (destruct (skipn 100 rows); [contradiction | discriminate]).
      rewrite length_skipn in H. lia. }
    split; [rewrite length_map, length_firstn; lia|].
    apply Forall_map. apply Forall_forall. intros x Hx.
    cbn [recent_event re_timestamp]. apply (Hcut x e Hx Hk).
  - intros e He. unfold recent_event. rewrite He. repeat split.
  - intros e s He Hl. unfold recent_event. rewrite He.
    cbn [re_label option_map or_text]. destruct (user_label s); [congruence | reflexivity].
Qed.

(** ** Pruning the active list against the live load *)



Lemma Qltb_proper (x x' y y' : Q) : x == x' -> y == y' -> Qltb x y = Qltb x' y'.
Proof.
  intros Hx Hy. destruct (Qltb x' y') eqn:E.
  - apply Qltb_lt. apply Qltb_lt in E. now rewrite Hx, Hy.
  - apply Qltb_ge. apply Qltb_ge in E. now rewrite Hx, Hy.
Qed.




(** ** The rolling window *)

Lemma last_skipn (l : list Q) (n : nat) (d : Q) :
  (n < length l)%nat -> last (skipn n l) d = last l d.
Proof.
  revert n. induction l as [|x l IH]; intros n H; [cbn in H; lia|].
  destruct n as [|n]; [reflexivity|]. cbn [skipn length] in *.
  rewrite IH by lia. destruct l; [cbn in H; lia | reflexivity].
Qed.

Lemma deque_append_length (d : Deque) (x : Q) :
  length (items (deque_append d x)) = Nat.min (S (length (items d))) (maxlen d).
Proof.
  unfold deque_append. cbn [items]. rewrite length_skipn, length_app. cbn [length]. lia.
Qed.

Lemma deque_append_last (d : Deque) (x dflt : Q) :
  (1 <= maxlen d)%nat -> last (items (deque_append d x)) dflt = x.
Proof.
  intro H. unfold deque_append. cbn [items].
  rewrite last_skipn by (rewrite length_app; cbn [length]; lia).
  apply last_last.
Qed.

Lemma deque_append_window (d : Deque) (x : Q) (P : Q -> Prop) :
  Forall P (items d) -> P x -> Forall P (items (deque_append d x)).
Proof.
  intros H Hx. unfold deque_append. cbn [items].
  assert (Hall : Forall P (items d ++ [x]))
    by (apply Forall_app; split; [exact H | now repeat constructor]).
  rewrite <- (firstn_skipn (length (items d ++ [x]) - maxlen d) (items d ++ [x])) in Hall.
  apply Forall_app in Hall. tauto.
Qed.

Lemma sum_at_least (lo : Q) (l : list Q) : forall a,
  Forall (fun v => lo <= v) l ->
  a + inject_Z (Z.of_nat (length l)) * lo <= fold_left Qplus l a.
Proof.
  induction l as [|x l IH]; intros a H; cbn [fold_left length].
  - cbn. ring_simplify. apply Qle_refl.
  - inversion H; subst. eapply Qle_trans; [|apply IH; assumption].
    rewrite Nat2Z.inj_succ. unfold Z.succ. rewrite inject_Z_plus.
    ring_simplify. lra.
Qed.

Lemma sum_at_most (hi : Q) (l : list Q) : forall a,
  Forall (fun v => v <= hi) l ->
  fold_left Qplus l a <= a + inject_Z (Z.of_nat (length l)) * hi.
Proof.
  induction l as [|x l IH]; intros a H; cbn [fold_left length].
  - cbn. ring_simplify. apply Qle_refl.
  - inversion H; subst. eapply Qle_trans; [apply IH; assumption|].
    rewrite Nat2Z.inj_succ. unfold Z.succ. rewrite inject_Z_plus.
    ring_simplify. lra.
Qed.

Lemma smooth_within (lo hi : Q) (d : Deque) :
  items d <> [] ->
  Forall (fun v => lo <= v) (items d) -> Forall (fun v => v <= hi) (items d) ->
  lo <= _smooth d /\ _smooth d <= hi.
Proof.
  intros Hne Hlo Hhi. unfold _smooth.
  destruct (items d) as [|x l] eqn:E; [congruence|].
  assert (Hpos : 0 < inject_Z (Z.of_nat (length (x :: l)))).
  { change 0 with (inject_Z 0). rewrite <- Zlt_Qlt. cbn [length]. lia. }
  pose proof (sum_at_least lo (x :: l) 0 Hlo) as H1.
  pose proof (sum_at_most hi (x :: l) 0 Hhi) as H2.
  split.
  - apply Qle_shift_div_l; [exact Hpos|]. lra.
  - apply Qle_shift_div_r; [exact Hpos|]. lra.
Qed.

(** X13.  The rolling window holds the last [maxlen] readings: an append
    makes it one longer up to [maxlen], a reading that enters a window of
    positive size is its last element, and the smoothed value returned by
    [store_load_sample] lies between any two bounds that hold for the old
    window and the new reading.  The row it stores carries the reading and
    the smoothed value rounded to one decimal, under the clock's timestamp,
    replacing a row of the same timestamp. *)
Theorem store_load_sample_window clk db m total l1 l2 :
  let r := store_load_sample clk db m total l1 l2 in
  let m' := snd r in
  let db' := snd (fst r) in
  length (items (recent_loads m')) =
    Nat.min (S (length (items (recent_loads m)))) (maxlen (recent_loads m)) /\
  ((1 <= maxlen (recent_loads m))%nat ->
   forall s, raw_current m' s = total) /\
  (forall lo hi,
      (1 <= maxlen (recent_loads m))%nat ->
      Forall (fun v => lo <= v /\ v <= hi) (items (recent_loads m)) ->
      lo <= total -> total <= hi ->
      lo <= fst (fst r) /\ fst (fst r) <= hi) /\
  In (mkSample (datetime_now clk) total (or_zero l1) (or_zero l2)
               (py_round (fst (fst r)) 1)) (load_samples db') /\
  (forall x, In x (load_samples db') -> s_timestamp x = datetime_now clk ->
             s_load_total x = total) /\
  (NoDup (map s_timestamp (load_samples db)) ->
   NoDup (map s_timestamp (load_samples db'))).
Proof.
  cbv zeta. unfold store_load_sample. cbn [fst snd load_samples].
  split; [apply deque_append_length|].
  split; [intros H s; unfold raw_current; cbn [mem_append recent_loads];
          now apply deque_append_last|].
  split; [|split; [|split]].
  - intros lo hi H Hw Hlo Hhi. cbn [mem_append recent_loads].
    apply smooth_within.
    + now apply deque_append_nonempty.
    + apply deque_append_window; [|exact Hlo].
      eapply Forall_impl; [|exact Hw]. cbn. tauto.
    + apply deque_append_window; [|exact Hhi].
      eapply Forall_impl; [|exact Hw]. cbn. tauto.
  - unfold put_sample. apply in_or_app. right. now left.
  - intros x Hx Hts. unfold put_sample in Hx. apply in_app_or in Hx.
    destruct Hx as [Hx|[<-|[]]]; [|reflexivity].
    apply filter_In in Hx. destruct Hx as [_ Hx]. cbn [s_timestamp] in Hx.
    apply negb_true_iff, Z.eqb_neq in Hx. contradiction.
  - intro Hn. unfold put_sample. rewrite map_app. cbn [map s_timestamp].
    apply NoDup_app; [now apply delete_keeps_keys_distinct
                     | repeat constructor; intros [] |].
    intros t Ht [<-|[]]. apply in_map_iff in Ht. destruct Ht as (x & Hx & Hin).
    apply filter_In in Hin. destruct Hin as [_ Hin]. cbn [s_timestamp] in Hin.
    apply negb_true_iff, Z.eqb_neq in Hin. contradiction.
Qed.

(** ** The detector compares the raw reading *)

Lemma tick_unfold cfg db m r :
  tick cfg (db, m) r =
  let m1 := mem_append m (rd_total r) (or_zero (rd_l1 r)) (or_zero (rd_l2 r)) in
  let db1 := snd (fst (store_load_sample (rd_clock r) db m (rd_total r) (rd_l1 r) (rd_l2 r))) in
  let d := detect_edge cfg (rd_clock r) db1 m1 (_smooth (recent_loads m1))
                       (rd_l1 r) (rd_l2 r) None in
  (fst (fst d), (snd (fst d), snd d)).
Proof.
  unfold tick, store_load_sample. cbn [fst snd]. cbv zeta.
  destruct (detect_edge cfg (rd_clock r) _ _ _ (rd_l1 r) (rd_l2 r) None) as [[ev db2] m2].
  reflexivity.
Qed.

(** X14.  A delivered reading is judged raw: with a window of positive
    size and a baseline [level], [tick] returns an event exactly when the
    reading itself differs from the baseline by at least the edge threshold
    and the debounce interval has passed since the last accepted edge; the
    smoothed value plays no part in it.  The event's power is that
    difference rounded to one decimal and the reading becomes the new
    baseline. *)
Theorem tick_judges_raw_reading cfg db m r level :
  (1 <= maxlen (recent_loads m))%nat ->
  stable_level m = Some level ->
  let out := tick cfg (db, m) r in
  (emitted (fst out) = true <->
   EDGE_THRESHOLD cfg <= Qabs (rd_total r - level) /\
   DEBOUNCE_SECONDS cfg <= time_time (rd_clock r) - last_event_time m) /\
  (forall ev, fst out = Some ev ->
     ed_power_delta ev = py_round (Qabs (rd_total r - level)) 1 /\
     (ed_event_type ev = EvOn <-> level < rd_total r) /\
     stable_level (snd (snd out)) = Some (rd_total r) /\
     last_event_time (snd (snd out)) = time_time (rd_clock r)).
Proof.
  intros Hw Hl. cbv zeta. rewrite tick_unfold. cbv zeta. cbn [fst snd].
  set (m1 := mem_append m (rd_total r) (or_zero (rd_l1 r)) (or_zero (rd_l2 r))).
  set (db1 := snd (fst (store_load_sample _ db m _ _ _))).
  set (s := _smooth (recent_loads m1)).
  assert (Hraw : raw_current m1 s = rd_total r).
  { unfold raw_current. subst m1. cbn [mem_append recent_loads].
    now apply deque_append_last. }
  assert (Hl1 : stable_level m1 = Some level) by exact Hl.
  assert (Ht1 : last_event_time m1 = last_event_time m) by reflexivity.
  unfold detect_edge. rewrite Hl1, Hraw, Ht1.
  destruct (Qltb (Qabs (rd_total r - level)) (EDGE_THRESHOLD cfg)) eqn:Ethr.
  - cbn [fst snd emitted]. apply Qltb_lt in Ethr. split.
    + split; [discriminate|]. intros [H _]. exfalso. lra.
    + intros ev H. discriminate.
  - apply Qltb_ge in Ethr.
    destruct (Qltb (time_time (rd_clock r) - last_event_time m) (DEBOUNCE_SECONDS cfg))
      eqn:Edeb.
    + cbn [fst snd emitted]. apply Qltb_lt in Edeb. split.
      * split; [discriminate|]. intros [_ H]. exfalso. lra.
      * intros ev H. discriminate.
    + apply Qltb_ge in Edeb.
      pose proof (record_edge_steps cfg (rd_clock r) db1 (rd_total r - level)
                    (rd_total r) (rd_l1 r) (rd_l2 r) None) as Hs.
      cbv zeta in Hs.
      destruct (record_edge cfg (rd_clock r) db1 _ _ (rd_l1 r) (rd_l2 r) None)
        as [ev db'].
      cbn [fst snd emitted]. split; [tauto|].
      intros ev0 H. inversion H; subst ev0. inversion Hs; subst ev.
      cbn [ed_power_delta ed_event_type]. split; [reflexivity|].
      split; [|split; reflexivity].
      destruct (Qltb 0 (rd_total r - level)) eqn:E.
      * apply Qltb_lt in E. split; [intros _; lra | reflexivity].
      * apply Qltb_ge in E. split; [discriminate | intro; lra].
Qed.

(** A reading of 250 W against a baseline of 100 W, long after the last
    edge: an "on" event of 150 W. *)
Lemma tick_judges_raw_reading_witness :
  emitted (fst (tick default_config (empty_store, tracking_mem 100 [100; 100])
                     (mkReading (mkClock 5000 5000) 250 None None))) = true.
Proof.
  apply (proj1 (tick_judges_raw_reading default_config empty_store
                  (tracking_mem 100 [100; 100])
                  (mkReading (mkClock 5000 5000) 250 None None) 100
                  ltac:(cbn; lia) eq_refl)).
  split; vm_compute; discriminate.
Defined.

(** ** The MQTT handler: one sample per five seconds, cleanup by the hour *)

Lemma timedelta_seconds_days last k rest :
  (0 <= rest < 86400)%Z -> timedelta_seconds (last + k * 86400 + rest) last = rest.
Proof.
  intro H. unfold timedelta_seconds.
  replace (last + k * 86400 + rest - last)%Z with (rest + k * 86400)%Z by lia.
  rewrite Z.mod_add by lia. now apply Z.mod_small.
Qed.

(** X15.  A load reading that arrives less than five seconds (by
    [time.time()]) after the last sampled one is dropped: no sample, no
    detection, no change of store, memory or handler state.  Otherwise it is
    sampled and judged as [tick] does, and the cleanup follows when none has
    run yet or when the time since the last one, whole days left out, is at
    least an hour: a reading sampled k days and less than an hour after the
    last cleanup does not trigger one. *)
Theorem on_load_power_throttles cfg st h r :
  let out := on_load_power cfg st h r in
  let sampled := tick cfg st r in
  (time_time (rd_clock r) - last_nilm_sample h < 5 -> out = (None, st, h)) /\
  (5 <= time_time (rd_clock r) - last_nilm_sample h ->
   fst (fst out) = fst sampled /\
   snd (snd (fst out)) = snd (snd sampled) /\
   last_nilm_sample (snd out) = time_time (rd_clock r) /\
   (last_nilm_cleanup h = None ->
    fst (snd (fst out)) =
      cleanup_old_data (rd_clock r) (rd_clock r) (fst (snd sampled)) /\
    last_nilm_cleanup (snd out) = Some (datetime_now (rd_clock r))) /\
   (forall last k rest,
       last_nilm_cleanup h = Some last ->
       datetime_now (rd_clock r) = (last + k * 86400 + rest)%Z ->
       (0 <= rest < 86400)%Z ->
       if (3600 <=? rest)%Z
       then fst (snd (fst out)) =
              cleanup_old_data (rd_clock r) (rd_clock r) (fst (snd sampled)) /\
            last_nilm_cleanup (snd out) = Some (datetime_now (rd_clock r))
       else fst (snd (fst out)) = fst (snd sampled) /\
            last_nilm_cleanup (snd out) = Some last)).
Proof.
  cbv zeta. unfold on_load_power. split.
  - intro H. apply Qle_bool_false in H. now rewrite H.
  - intro H. apply Qle_bool_iff in H. rewrite H.
    destruct (tick cfg st r) as [ev [db1 m1]]. cbn [fst snd].
    assert (Hany : forall b : bool,
              fst (fst (if b
                        then (ev, (cleanup_old_data (rd_clock r) (rd_clock r) db1, m1),
                              mkHost (time_time (rd_clock r)) (Some (datetime_now (rd_clock r))))
                        else (ev, (db1, m1),
                              mkHost (time_time (rd_clock r)) (last_nilm_cleanup h)))) = ev /\
              snd (snd (fst (if b
                        then (ev, (cleanup_old_data (rd_clock r) (rd_clock r) db1, m1),
                              mkHost (time_time (rd_clock r)) (Some (datetime_now (rd_clock r))))
                        else (ev, (db1, m1),
                              mkHost (time_time (rd_clock r)) (last_nilm_cleanup h))))) = m1 /\
              last_nilm_sample (snd (if b
                        then (ev, (cleanup_old_data (rd_clock r) (rd_clock r) db1, m1),
                              mkHost (time_time (rd_clock r)) (Some (datetime_now (rd_clock r))))
                        else (ev, (db1, m1),
                              mkHost (time_time (rd_clock r)) (last_nilm_cleanup h)))) =
                time_time (rd_clock r))
      by (intros [|]; repeat split).
    destruct (Hany (match last_nilm_cleanup h with
                    | Some last => (3600 <=? timedelta_seconds (datetime_now (rd_clock r)) last)%Z
                    | None => true
                    end)) as (H1 & H2 & H3).
    split; [exact H1|]. split; [exact H2|]. split; [exact H3|]. split.
    + intro Hn. rewrite Hn. split; reflexivity.
    + intros last k rest Hl Hnow Hrest. rewrite Hl, Hnow.
      rewrite (timedelta_seconds_days last k rest Hrest).
      destruct (3600 <=? rest)%Z; split; reflexivity.
Qed.

(** ** update_signature_label *)

Lemma update_sig_rows_absent (id : Z) (f : Signature -> Signature) (l : list Signature) :
  find (fun s => (sg_id s =? id)%Z) l = None -> update_sig_rows id f l = l.
Proof.
  induction l as [|s l IH]; intro H; [reflexivity|].
  cbn [find] in H. cbn [update_sig_rows map].
  destruct (sg_id s =? id)%Z; [discriminate|].
  fold (update_sig_rows id f l). now rewrite IH.
Qed.

Lemma find_update_sig_rows_other (id id' : Z) (f : Signature -> Signature)
    (l : list Signature) :
  (forall s, sg_id (f s) = sg_id s) -> id' <> id ->
  find (fun s => (sg_id s =? id')%Z) (update_sig_rows id f l) =
  find (fun s => (sg_id s =? id')%Z) l.
Proof.
  intros Hf Hne. induction l as [|s l IH]; [reflexivity|].
  cbn [update_sig_rows map find]. fold (update_sig_rows id f l).
  destruct (sg_id s =? id)%Z eqn:E.
  - apply Z.eqb_eq in E. rewrite Hf.
    assert (E' : (sg_id s =? id')%Z = false) by (apply Z.eqb_neq; lia).
    rewrite E'. exact IH.
  - destruct (sg_id s =? id')%Z; [reflexivity | exact IH].
Qed.

Lemma set_display_same (s : Signature) : set_display (user_label s) (icon s) (color s) s = s.
Proof. destruct s. reflexivity. Qed.

Lemma set_signatures_same (db : Store) : set_signatures db (appliance_signatures db) = db.
Proof. destruct db. reflexivity. Qed.

(** X16.  [update_signature_label] writes the given ones of label, icon
    and colour to the signature of the given id and keeps the others; every
    other signature, the power statistics and the other tables stay as they
    are.  For an id that is not stored, and when nothing is given, the store
    is unchanged. *)
Theorem update_signature_label_writes db id l i c :
  let db' := update_signature_label db id l i c in
  (forall s, get_signature db id = Some s ->
     get_signature db' id =
       Some (set_display (match l with Some x => x | None => user_label s end)
                         (match i with Some x => x | None => icon s end)
                         (match c with Some x => x | None => color s end) s)) /\
  (forall id', id' <> id -> get_signature db' id' = get_signature db id') /\
  (get_signature db id = None -> db' = db) /\
  update_signature_label db id None None None = db /\
  map (fun s => (sg_id s, power_avg s, power_min s, power_max s, event_count s,
                 is_active s, active_count s))
      (appliance_signatures db') =
  map (fun s => (sg_id s, power_avg s, power_min s, power_max s, event_count s,
                 is_active s, active_count s))
      (appliance_signatures db) /\
  load_events db' = load_events db /\
  appliance_daily_stats db' = appliance_daily_stats db /\
  load_samples db' = load_samples db.
Proof.
  cbv zeta. unfold update_signature_label, get_signature.
  cbn [update_sig set_signatures appliance_signatures load_events
       appliance_daily_stats load_samples].
  split; [|split; [|split; [|split; [|split]]]].
  - intros s Hs. rewrite find_update_sig_rows by reflexivity. now rewrite Hs.
  - intros id' Hne. now apply find_update_sig_rows_other.
  - intro Hn. unfold update_sig. rewrite update_sig_rows_absent by exact Hn.
    apply set_signatures_same.
  - unfold update_sig.
    assert (E : update_sig_rows id
                  (fun s => set_display (user_label s) (icon s) (color s) s)
                  (appliance_signatures db) = appliance_signatures db).
    { unfold update_sig_rows. rewrite <- (map_id (appliance_signatures db)) at 2.
      apply map_ext. intro s.
      destruct (sg_id s =? id)%Z; [apply set_display_same | reflexivity]. }
    rewrite E. apply set_signatures_same.
  - unfold update_sig_rows. rewrite map_map. apply map_ext.
    intro s. destruct (sg_id s =? id)%Z; reflexivity.
  - repeat split.
Qed.

(** ** merge_signatures: the corner cases *)

Lemma move_events_self (id : Z) (l : list Event) : move_events id id l = l.
Proof.
  unfold move_events. rewrite <- (map_id l) at 2. apply map_ext.
  intro e. destruct (e_signature_id e =? id)%Z eqn:E; [|reflexivity].
  apply Z.eqb_eq in E. destruct e. cbn in *. now subst.
Qed.

Lemma move_stats_self (id : Z) (l : list DailyStat) : move_stats id id l = l.
Proof.
  unfold move_stats. rewrite <- (map_id l) at 2. apply map_ext.
  intro r. destruct (d_signature_id r =? id)%Z eqn:E; [|reflexivity].
  apply Z.eqb_eq in E. destruct r. cbn in *. now subst.
Qed.

(** X17.  [merge_signatures] returns false and changes nothing when either
    id is not stored.  Given one stored id twice it returns true and deletes
    that signature, leaving its events and daily statistics in place: every
    event that carried the id is then without a signature. *)
Theorem merge_signatures_corner_cases db :
  (forall keep_id merge_id,
      get_signature db keep_id = None \/ get_signature db merge_id = None ->
      merge_signatures db keep_id merge_id = (Returned false, db)) /\
  (forall id s,
      get_signature db id = Some s ->
      let r := merge_signatures db id id in
      fst r = Returned true /\
      get_signature (snd r) id = None /\
      load_events (snd r) = load_events db /\
      appliance_daily_stats (snd r) = appliance_daily_stats db /\
      forall e, In e (load_events (snd r)) -> e_signature_id e = id ->
                get_signature (snd r) (e_signature_id e) = None).
Proof.
  split.
  - intros keep_id merge_id H. unfold merge_signatures.
    destruct (get_signature db keep_id), (get_signature db merge_id), H;
      congruence || reflexivity.
  - intros id s Hs. cbv zeta. unfold merge_signatures. rewrite Hs.
    assert (Hc : stats_collide (appliance_daily_stats db) id id = false)
      by (unfold stats_collide; now rewrite Z.eqb_refl).
    rewrite Hc. cbn [fst snd load_events appliance_daily_stats].
    assert (Hgone : get_signature
                      (mkStore (load_samples db) (move_events id id (load_events db))
                         (filter (fun x => negb (sg_id x =? id)%Z)
                            (update_sig_rows id
                               (set_power_count (merged_avg s s)
                                                (event_count s + event_count s))
                               (appliance_signatures db)))
                         (move_stats id id (appliance_daily_stats db))
                         (seq_events db) (seq_signatures db)) id = None)
      by apply find_deleted.
    split; [reflexivity|]. split; [exact Hgone|].
    split; [apply move_events_self|]. split; [apply move_stats_self|].
    intros e _ ->. exact Hgone.
Qed.

(** ** The daily statistics, as written and as listed *)

Lemma find_through_map {Row Shown : Type} (shown : Row -> Shown) (p : Shown -> bool)
    (rows : list Row) :
  find p (map shown rows) = option_map shown (find (fun r => p (shown r)) rows).
Proof.
  induction rows as [|r rows IH]; [reflexivity|].
  cbn [map find]. destruct (p (shown r)); [reflexivity | exact IH].
Qed.


Lemma find_same_test {Row : Type} (p q : Row -> bool) (rows : list Row) :
  (forall r, In r rows -> p r = q r) -> find p rows = find q rows.
Proof.
  induction rows as [|r rows IH]; intro H; [reflexivity|].
  cbn [find]. rewrite (H r (or_introl eq_refl)).
  destruct (q r); [reflexivity|]. apply IH. intros x Hx. apply H. now right.
Qed.
















(** ** The leg readings steer nothing but the recorded leg *)

Lemma get_signature_without_legs db id :
  get_signature (without_legs db) id = option_map signature_on_both (get_signature db id).
Proof.
  unfold get_signature. cbn [without_legs appliance_signatures].
  exact (find_through_map signature_on_both _ _).
Qed.

Lemma update_sig_rows_without_legs id (f : Signature -> Signature) (l : list Signature) :
  (forall s, f (signature_on_both s) = signature_on_both (f s)) ->
  update_sig_rows id f (map signature_on_both l) =
  map signature_on_both (update_sig_rows id f l).
Proof.
  intro Hf. unfold update_sig_rows. rewrite !map_map. apply map_ext.
  intro s. cbn [signature_on_both sg_id].
  destruct (sg_id s =? id)%Z; [apply Hf | reflexivity].
Qed.

Lemma update_sig_without_legs db id (f : Signature -> Signature) :
  (forall s, f (signature_on_both s) = signature_on_both (f s)) ->
  update_sig (without_legs db) id f = without_legs (update_sig db id f).
Proof.
  intro Hf. unfold update_sig, set_signatures, without_legs.
  cbn [load_samples load_events appliance_signatures appliance_daily_stats
       seq_events seq_signatures].
  now rewrite update_sig_rows_without_legs.
Qed.

Lemma find_matching_signature_without_legs cfg db pd leg leg' :
  find_matching_signature cfg (without_legs db) pd leg' =
  find_matching_signature cfg db pd leg.
Proof.
  unfold find_matching_signature, signature_rows.
  cbn [without_legs appliance_signatures]. now rewrite map_map.
Qed.

Lemma create_signature_without_legs db pd leg :
  create_signature (without_legs db) pd LegBoth =
  (fst (create_signature db pd leg), without_legs (snd (create_signature db pd leg))).
Proof.
  unfold create_signature, without_legs.
  cbn [fst snd load_samples load_events appliance_signatures appliance_daily_stats
       seq_events seq_signatures].
  now rewrite map_app.
Qed.

Lemma update_signature_without_legs db id pd :
  update_signature (without_legs db) id pd = without_legs (update_signature db id pd).
Proof.
  unfold update_signature. rewrite get_signature_without_legs.
  destruct (get_signature db id) as [row|]; cbn [option_map]; [|reflexivity].
  now apply update_sig_without_legs.
Qed.

Lemma resolve_signature_without_legs cfg db pd leg :
  resolve_signature cfg (without_legs db) pd LegBoth =
  (fst (resolve_signature cfg db pd leg),
   without_legs (snd (resolve_signature cfg db pd leg))).
Proof.
  unfold resolve_signature.
  rewrite (find_matching_signature_without_legs cfg db pd leg LegBoth).
  destruct (find_matching_signature cfg db pd leg) as [id|];
    [|apply create_signature_without_legs].
  destruct (id =? 0)%Z; [apply create_signature_without_legs|].
  cbn [fst snd]. now rewrite update_signature_without_legs.
Qed.

Lemma where_on_both (p : Event -> bool) (l : list Event) :
  (forall e, p (event_on_both e) = p e) ->
  filter p (map event_on_both l) = map event_on_both (filter p l).
Proof.
  intro Hp. induction l as [|e l IH]; [reflexivity|].
  cbn [map filter]. rewrite Hp, IH. destruct (p e); reflexivity.
Qed.

Lemma insert_by_ts_on_both (e : Event) (l : list Event) :
  insert_by_ts (event_on_both e) (map event_on_both l) =
  map event_on_both (insert_by_ts e l).
Proof.
  induction l as [|x l IH]; [reflexivity|].
  cbn [map insert_by_ts event_on_both e_timestamp].
  destruct (e_timestamp e <=? e_timestamp x)%Z; [reflexivity|].
  cbn [map]. f_equal. exact IH.
Qed.

Lemma order_by_ts_on_both (l : list Event) :
  order_by_ts (map event_on_both l) = map event_on_both (order_by_ts l).
Proof.
  induction l as [|e l IH]; [reflexivity|].
  cbn [map order_by_ts]. rewrite IH. apply insert_by_ts_on_both.
Qed.

Lemma join_signature_without_legs db (l : list Event) :
  join_signature (without_legs db) (map event_on_both l) =
  map row_on_both (join_signature db l).
Proof.
  unfold join_signature. induction l as [|e l IH]; [reflexivity|].
  cbn [map flat_map]. rewrite IH, map_app. f_equal.
  cbn [event_on_both e_signature_id]. rewrite get_signature_without_legs.
  destruct (get_signature db (e_signature_id e)); reflexivity.
Qed.

Lemma pairing_candidates_without_legs db cutoff :
  pairing_candidates (without_legs db) cutoff =
  map row_on_both (pairing_candidates db cutoff).
Proof.
  unfold pairing_candidates. cbn [without_legs load_events].
  rewrite where_on_both by reflexivity.
  now rewrite order_by_ts_on_both, join_signature_without_legs.
Qed.

Lemma pair_fold_on_both off_power (rows : list (Event * Signature)) : forall best,
  fold_left (pair_step off_power) (map row_on_both rows) best =
  fold_left (pair_step off_power) rows best.
Proof.
  induction rows as [|[e s] rows IH]; intro best; [reflexivity|].
  cbn [map fold_left]. now rewrite IH.
Qed.

Lemma pairing_choice_without_legs cfg db sid ts pd :
  pairing_choice cfg (without_legs db) sid ts pd = pairing_choice cfg db sid ts pd.
Proof.
  unfold pairing_choice, effective_off_power.
  rewrite get_signature_without_legs, pairing_candidates_without_legs, pair_fold_on_both.
  destruct (get_signature db sid); reflexivity.
Qed.

Lemma set_event_duration_on_both id d (l : list Event) :
  set_event_duration id d (map event_on_both l) =
  map event_on_both (set_event_duration id d l).
Proof.
  unfold set_event_duration. rewrite !map_map. apply map_ext.
  intro e. cbn [event_on_both e_id]. destruct (e_id e =? id)%Z; reflexivity.
Qed.

Lemma update_avg_duration_without_legs db sid d :
  _update_avg_duration (without_legs db) sid d =
  without_legs (_update_avg_duration db sid d).
Proof.
  unfold _update_avg_duration. rewrite get_signature_without_legs.
  destruct (get_signature db sid) as [row|]; cbn [option_map]; [|reflexivity].
  now apply update_sig_without_legs.
Qed.

Lemma pair_on_off_event_without_legs cfg db sid ts pd :
  pair_on_off_event cfg (without_legs db) sid ts pd =
  (fst (pair_on_off_event cfg db sid ts pd),
   without_legs (snd (pair_on_off_event cfg db sid ts pd))).
Proof.
  unfold pair_on_off_event. rewrite pairing_choice_without_legs.
  destruct (pairing_choice cfg db sid ts pd) as [[on_id on_ts]|]; [|reflexivity].
  cbn [fst snd]. f_equal.
  rewrite <- update_avg_duration_without_legs. f_equal.
  unfold set_events, without_legs.
  cbn [load_samples load_events appliance_signatures appliance_daily_stats
       seq_events seq_signatures].
  now rewrite set_event_duration_on_both.
Qed.

Lemma decrement_similar_without_legs cfg pd (rows : list Signature) : forall db,
  decrement_similar cfg pd (map signature_on_both rows) (without_legs db) =
  without_legs (decrement_similar cfg pd rows db).
Proof.
  induction rows as [|o rows IH]; intro db; [reflexivity|].
  cbn [map decrement_similar signature_on_both power_avg active_count sg_id].
  destruct (Qle_bool _ _); [|apply IH].
  destruct (_ <=? 0)%Z; now apply update_sig_without_legs.
Qed.

Lemma where_active_on_both (l : list Signature) :
  filter is_active (map signature_on_both l) = map signature_on_both (filter is_active l).
Proof.
  induction l as [|s l IH]; [reflexivity|].
  cbn [map filter signature_on_both is_active]. rewrite IH.
  destruct (is_active s); reflexivity.
Qed.

Lemma active_state_without_legs cfg db sid ty ts pd :
  _update_signature_active_state cfg (without_legs db) sid ty ts pd =
  without_legs (_update_signature_active_state cfg db sid ty ts pd).
Proof.
  unfold _update_signature_active_state. destruct ty.
  - rewrite get_signature_without_legs.
    destruct (get_signature db sid) as [s|]; cbn [option_map signature_on_both active_count];
      now apply update_sig_without_legs.
  - cbn [without_legs appliance_signatures].
    rewrite (find_through_map signature_on_both).
    cbn [signature_on_both sg_id is_active].
    rewrite (where_active_on_both (appliance_signatures db)).
    fold (without_legs db).
    destruct (find _ (appliance_signatures db)) as [s|];
      cbn [option_map signature_on_both active_count].
    + destruct (0 <? active_count s)%Z.
      * destruct (_ <=? 0)%Z; now apply update_sig_without_legs.
      * destruct (Qltb 0 pd); [apply decrement_similar_without_legs | reflexivity].
    + destruct (Qltb 0 pd); [apply decrement_similar_without_legs | reflexivity].
Qed.

Lemma daily_stats_without_legs clk db sid pd d :
  _update_daily_stats clk (without_legs db) sid pd d =
  without_legs (_update_daily_stats clk db sid pd d).
Proof.
  unfold _update_daily_stats, _update_daily_cycles, stats_of.
  cbn [without_legs set_daily_stats appliance_daily_stats load_samples load_events
       appliance_signatures seq_events seq_signatures].
  destruct (existsb _ _);
    (destruct (avg_cycles _) as [a|]; [|reflexivity];
     destruct (Qeq_bool a 0); [reflexivity|];
     now rewrite <- update_sig_without_legs).
Qed.

Lemma store_event_without_legs cfg clk db ts ty pd leg d sid conf :
  store_event cfg clk (without_legs db) ts ty pd LegBoth d sid conf =
  without_legs (store_event cfg clk db ts ty pd leg d sid conf).
Proof.
  assert (E : mkStore (load_samples (without_legs db))
                (load_events (without_legs db) ++
                   [mkEvent (seq_events (without_legs db) + 1) ts ty pd LegBoth d sid conf])
                (appliance_signatures (without_legs db))
                (appliance_daily_stats (without_legs db))
                (seq_events (without_legs db) + 1) (seq_signatures (without_legs db)) =
              without_legs
                (mkStore (load_samples db)
                   (load_events db ++ [mkEvent (seq_events db + 1) ts ty pd leg d sid conf])
                   (appliance_signatures db) (appliance_daily_stats db)
                   (seq_events db + 1) (seq_signatures db))).
  { unfold without_legs.
    cbn [load_samples load_events appliance_signatures appliance_daily_stats
         seq_events seq_signatures].
    now rewrite map_app. }
  unfold store_event. cbv zeta. rewrite E, active_state_without_legs.
  destruct ty; [reflexivity|]. destruct d as [d0|]; [|reflexivity].
  destruct (d0 =? 0)%Z; [reflexivity | apply daily_stats_without_legs].
Qed.

Lemma classify_leg_none : classify_leg None None = LegBoth.
Proof. reflexivity. Qed.

Lemma record_edge_without_legs cfg clk db delta raw l1 l2 ots :
  record_edge cfg clk (without_legs db) delta raw None None ots =
  (dict_on_both (fst (record_edge cfg clk db delta raw l1 l2 ots)),
   without_legs (snd (record_edge cfg clk db delta raw l1 l2 ots))).
Proof.
  rewrite !record_edge_steps. cbv zeta. rewrite classify_leg_none.
  rewrite (resolve_signature_without_legs cfg db _ (classify_leg l1 l2)).
  cbn [fst snd].
  destruct (Qltb 0 delta); cbn [fst snd].
  - rewrite (store_event_without_legs cfg clk _ _ _ _ (classify_leg l1 l2)).
    unfold dict_on_both, _get_signature_label.
    cbn [ed_event_type ed_power_delta ed_duration ed_signature_id ed_confidence
         ed_label ed_timestamp].
    rewrite get_signature_without_legs.
    destruct (get_signature _ _); reflexivity.
  - rewrite pair_on_off_event_without_legs. cbn [fst snd].
    rewrite (store_event_without_legs cfg clk _ _ _ _ (classify_leg l1 l2)).
    unfold dict_on_both, _get_signature_label.
    cbn [ed_event_type ed_power_delta ed_duration ed_signature_id ed_confidence
         ed_label ed_timestamp].
    rewrite get_signature_without_legs.
    destruct (get_signature _ _); reflexivity.
Qed.

Lemma detect_edge_without_legs cfg clk db m m' s l1 l2 ots :
  mem_agree m m' ->
  let r := detect_edge cfg clk db m s l1 l2 ots in
  let r' := detect_edge cfg clk (without_legs db) m' s None None ots in
  fst (fst r') = option_map dict_on_both (fst (fst r)) /\
  snd (fst r') = without_legs (snd (fst r)) /\
  mem_agree (snd r) (snd r').
Proof.
  intros (Hr & Hl & Ht). cbv zeta. unfold detect_edge, raw_current.
  rewrite Hr, Hl, Ht.
  assert (Hdone : forall v, mem_agree (set_stable_level m v) (set_stable_level m' v))
    by (intro v; repeat split; assumption).
  destruct (stable_level m) as [level|] eqn:El; [|repeat split; apply Hdone].
  destruct (Qltb _ (EDGE_THRESHOLD cfg)); [repeat split; apply Hdone|].
  destruct (Qltb _ (DEBOUNCE_SECONDS cfg)); [repeat split; cbn [snd]; congruence|].
  rewrite (record_edge_without_legs cfg clk db _ _ l1 l2 ots).
  destruct (record_edge cfg clk db _ _ l1 l2 ots) as [ev db'].
  cbn [fst snd option_map]. repeat split.
Qed.

(** *** Replaying the stored samples as a remote history *)

Lemma replay_without_legs cfg clock (samples : list Sample) : forall i db m m' n,
  mem_agree m m' ->
  let local := replay cfg clock i samples db m n in
  let remote :=
    replay_influx cfg clock i
      (map (fun x => (s_timestamp x, s_load_total x)) samples) (without_legs db) m' n in
  fst (fst remote) = fst (fst local) /\
  snd (fst remote) = without_legs (snd (fst local)).
Proof.
  induction samples as [|x rest IH]; intros i db m m' n Hm; cbv zeta.
  - split; reflexivity.
  - cbn [map replay replay_influx].
    set (m1 := mem_append m (s_load_total x) (s_load_l1 x) (s_load_l2 x)).
    set (m1' := mem_append_total m' (s_load_total x)).
    assert (Hm1 : mem_agree m1 m1').
    { destruct Hm as (Hr & Hl & Ht). subst m1 m1'. unfold mem_agree.
      cbn [mem_append mem_append_total recent_loads stable_level last_event_time].
      now rewrite Hr. }
    assert (Hs : _smooth (recent_loads m1') = _smooth (recent_loads m1))
      by (destruct Hm1 as (-> & _); reflexivity).
    rewrite Hs.
    destruct (detect_edge_without_legs cfg (clock i) db m1 m1'
                (_smooth (recent_loads m1)) (Some (s_load_l1 x)) (Some (s_load_l2 x))
                (Some (s_timestamp x)) Hm1) as (He & Hdb & Hm2).
    destruct (detect_edge cfg (clock i) db m1 _ _ _ _) as [[ev db1] m2].
    destruct (detect_edge cfg (clock i) (without_legs db) m1' _ None None _)
      as [[ev' db1'] m2'].
    cbn [fst snd] in He, Hdb, Hm2. subst ev' db1'.
    destruct (IH (S i) db1 m2 m2'
                 (match ev with Some _ => S n | None => n end) Hm2) as (A & B).
    destruct ev; cbn [option_map]; split; assumption.
Qed.

Lemma all_samples_as_history (samples : list Sample) :
  all_samples (as_history samples) = map (fun x => (s_timestamp x, s_load_total x)) samples.
Proof.
  unfold all_samples, as_history. cbn [flat_map]. rewrite !app_nil_r.
  induction samples as [|x rest IH]; [reflexivity|].
  cbn [map flat_map parsed_sample iv_power iv_time app]. now rewrite IH.
Qed.

Lemma restore_without_legs cfg saved (l : list Signature) : forall db,
  fold_left
    (fun db' s =>
       match best_saved cfg saved (power_avg s) with
       | Some c => update_sig db' (sg_id s)
                     (set_display (c_label c) (c_icon c) (c_color c))
       | None => db'
       end) (map signature_on_both l) (without_legs db) =
  without_legs
    (fold_left
       (fun db' s =>
          match best_saved cfg saved (power_avg s) with
          | Some c => update_sig db' (sg_id s)
                        (set_display (c_label c) (c_icon c) (c_color c))
          | None => db'
          end) l db).
Proof.
  induction l as [|s l IH]; intro db; [reflexivity|].
  cbn [map fold_left signature_on_both power_avg sg_id].
  destruct (best_saved cfg saved (power_avg s)) as [c|]; [|apply IH].
  rewrite update_sig_without_legs by reflexivity. apply IH.
Qed.

(** X19.  The leg readings steer nothing but the recorded leg.  Two
    detector calls that differ only in the readings of L1 and L2 return the
    same event and leave the same store, up to the leg written on the new
    event and on a new signature, and the same baseline and last event time.
    Hence replaying the stored samples as a remote history (timestamp and
    total only) reports the counts of the local reanalysis and rebuilds its
    store with every leg recorded as "both". *)
Theorem leg_readings_steer_nothing cfg :
  (forall clk db m s l1 l2 l1' l2' ots,
      let r := detect_edge cfg clk db m s l1 l2 ots in
      let r' := detect_edge cfg clk db m s l1' l2' ots in
      option_map dict_on_both (fst (fst r')) = option_map dict_on_both (fst (fst r)) /\
      without_legs (snd (fst r')) = without_legs (snd (fst r)) /\
      stable_level (snd r') = stable_level (snd r) /\
      last_event_time (snd r') = last_event_time (snd r)) /\
  (forall clock db m,
      load_samples db <> [] ->
      let local := reanalyze cfg clock db m in
      let remote :=
        reanalyze_from_influx cfg clock
          (Some (as_history (samples_in_order (load_samples db)))) db m in
      snd (fst remote) = without_legs (snd (fst local)) /\
      rp_samples (fst (fst remote)) = sm_samples (fst (fst local)) /\
      rp_events (fst (fst remote)) = sm_events (fst (fst local)) /\
      rp_signatures (fst (fst remote)) = sm_signatures (fst (fst local))).
Proof.
  split.
  - intros clk db m s l1 l2 l1' l2' ots. cbv zeta.
    assert (Hm : mem_agree m m) by (repeat split).
    destruct (detect_edge_without_legs cfg clk db m m s l1 l2 ots Hm)
      as (A1 & B1 & _ & C1 & D1).
    destruct (detect_edge_without_legs cfg clk db m m s l1' l2' ots Hm)
      as (A2 & B2 & _ & C2 & D2).
    cbv zeta in *. repeat split; congruence.
  - intros clock db m Hne. cbv zeta.
    unfold reanalyze, reanalyze_from_influx, as_history.
    fold (as_history (samples_in_order (load_samples db))).
    rewrite all_samples_as_history. cbn [load_samples clear_detections].
    destruct (samples_in_order (load_samples db)) as [|x rest] eqn:E.
    { exfalso. apply Hne. pose proof (length_samples_in_order (load_samples db)) as H.
      rewrite E in H. destruct (load_samples db); [reflexivity | discriminate]. }
    cbn [map].
    change ((s_timestamp x, s_load_total x)
              :: map (fun y => (s_timestamp y, s_load_total y)) rest)
      with (map (fun y => (s_timestamp y, s_load_total y)) (x :: rest)).
    destruct (replay_without_legs cfg clock (x :: rest) 0%nat (clear_detections db)
                (initial_mem cfg) (initial_mem cfg) 0%nat) as (Hn & Hdb);
      [repeat split|].
    cbv zeta in Hn, Hdb.
    change (without_legs (clear_detections db)) with (clear_detections db) in Hn, Hdb.
    destruct (replay cfg clock 0 (x :: rest) (clear_detections db) (initial_mem cfg) 0)
      as [[n db2] m2].
    destruct (replay_influx cfg clock 0 _ (clear_detections db) (initial_mem cfg) 0)
      as [[n' db2'] m2'].
    cbn [fst snd] in *. subst n' db2'.
    cbn [sm_samples sm_events sm_signatures rp_samples rp_events rp_signatures].
    split; [|split; [|split]].
    + unfold _restore_user_labels.
      cbn [appliance_signatures set_signatures without_legs].
      rewrite <- (restore_without_legs cfg (_save_user_labels db)).
      rewrite !map_map. f_equal.
      unfold set_signatures, without_legs.
      cbn [load_samples load_events appliance_signatures appliance_daily_stats
           seq_events seq_signatures].
      now rewrite map_map.
    + now rewrite length_map.
    + reflexivity.
    + cbn [appliance_signatures set_signatures without_legs]. now rewrite !length_map.
Qed.

(** ** Instance counting: "on" then "off" *)

Lemma find_active_after_on (sid : Z) (f : Signature -> Signature) (l : list Signature) :
  (forall s, sg_id (f s) = sg_id s) -> (forall s, is_active (f s) = true) ->
  find (fun s => (sg_id s =? sid)%Z && is_active s) (update_sig_rows sid f l) =
  option_map f (find (fun s => (sg_id s =? sid)%Z) l).
Proof.
  intros Hid Hact. induction l as [|s l IH]; [reflexivity|].
  cbn [update_sig_rows map find]. fold (update_sig_rows sid f l).
  destruct (sg_id s =? sid)%Z eqn:E.
  - now rewrite Hid, E, Hact.
  - rewrite E. exact IH.
Qed.

(** X20.  Instances are counted: an "on" event for a stored signature
    raises its active count by one, marks it active and records the time; a
    following "off" event for the same signature takes the count back to what
    it was, and leaves the signature active exactly when that count is still
    positive.  Nothing else of the signature, no other signature and no other
    table changes on the way. *)
Theorem active_count_on_then_off cfg db sid s ts ts' pd pd' :
  get_signature db sid = Some s ->
  (0 <= active_count s)%Z ->
  let db1 := _update_signature_active_state cfg db sid EvOn ts pd in
  let db2 := _update_signature_active_state cfg db1 sid EvOff ts' pd' in
  get_signature db1 sid = Some (set_active_on (active_count s + 1) ts s) /\
  get_signature db2 sid =
    Some (set_active (0 <? active_count s)%Z (active_count s)
                     (set_active_on (active_count s + 1) ts s)) /\
  (forall id, id <> sid -> get_signature db2 id = get_signature db id) /\
  map sig_core (appliance_signatures db2) = map sig_core (appliance_signatures db) /\
  load_events db2 = load_events db /\
  appliance_daily_stats db2 = appliance_daily_stats db.
Proof.
  intros Hs Hc. cbv zeta.
  set (on_row := set_active_on (active_count s + 1) ts).
  assert (Hon : _update_signature_active_state cfg db sid EvOn ts pd =
                update_sig db sid on_row).
  { unfold _update_signature_active_state. now rewrite Hs. }
  rewrite Hon.
  assert (H1 : get_signature (update_sig db sid on_row) sid = Some (on_row s)).
  { unfold get_signature in *. cbn [update_sig set_signatures appliance_signatures].
    rewrite find_update_sig_rows by reflexivity. now rewrite Hs. }
  assert (Hfound : find (fun x => (sg_id x =? sid)%Z && is_active x)
                     (appliance_signatures (update_sig db sid on_row)) = Some (on_row s)).
  { cbn [update_sig set_signatures appliance_signatures].
    rewrite find_active_after_on by reflexivity.
    unfold get_signature in Hs. now rewrite Hs. }
  unfold _update_signature_active_state. rewrite Hfound.
  cbn [on_row set_active_on active_count].
  assert (Hpos : (0 <? active_count s + 1)%Z = true) by (apply Z.ltb_lt; lia).
  rewrite Hpos. replace (active_count s + 1 - 1)%Z with (active_count s) by lia.
  split; [exact H1|].
  assert (Hboth : forall f2 : Signature -> Signature,
            (forall x, sg_id (f2 x) = sg_id x) ->
            (forall x, sig_core (f2 x) = sig_core x) ->
            get_signature (update_sig (update_sig db sid on_row) sid f2) sid =
              Some (f2 (on_row s)) /\
            (forall id, id <> sid ->
               get_signature (update_sig (update_sig db sid on_row) sid f2) id =
               get_signature db id) /\
            map sig_core (appliance_signatures
                            (update_sig (update_sig db sid on_row) sid f2)) =
              map sig_core (appliance_signatures db)).
  { intros f2 Hid Hcore. split; [|split].
    - unfold get_signature in *. cbn [update_sig set_signatures appliance_signatures].
      rewrite find_update_sig_rows by exact Hid.
      cbn [update_sig set_signatures appliance_signatures] in H1. now rewrite H1.
    - intros id Hne. unfold get_signature.
      cbn [update_sig set_signatures appliance_signatures].
      rewrite find_update_sig_rows_other by (exact Hid || exact Hne).
      now apply find_update_sig_rows_other.
    - cbn [update_sig set_signatures appliance_signatures].
      rewrite update_sig_rows_core by exact Hcore.
      now apply update_sig_rows_core. }
  destruct (active_count s <=? 0)%Z eqn:E.
  - assert (Ez : active_count s = 0%Z) by (apply Z.leb_le in E; lia).
    destruct (Hboth (set_active false 0) ltac:(reflexivity) ltac:(reflexivity))
      as (A & B & C).
    rewrite Ez in *. cbn [Z.ltb Z.compare]. repeat split; assumption.
  - assert (Hgt : (0 <? active_count s)%Z = true) by (apply Z.ltb_lt, Z.leb_gt; exact E).
    destruct (Hboth (set_active_count (active_count s)) ltac:(reflexivity)
                ltac:(reflexivity)) as (A & B & C).
    rewrite Hgt. repeat split; assumption.
Qed.

(** The idle 100 W cluster: on at second 5000, off at second 5600. *)
Lemma active_count_on_then_off_witness :
  option_map (fun x => (is_active x, active_count x, last_on_time x))
    (get_signature
       (_update_signature_active_state default_config
          (_update_signature_active_state default_config store_two_clusters 1 EvOn
             5000 100)
          1 EvOff 5600 100) 1)
  = Some (false, 0%Z, Some 5000%Z).
Proof.
  destruct (active_count_on_then_off default_config store_two_clusters 1 cluster_100
              5000 5600 100 100 eq_refl ltac:(cbn; lia)) as (_ & H & _).
  cbv zeta in H. rewrite H. reflexivity.
Defined.

(** ** record_energy: the day's first and last meter readings *)

Lemma energy_of_date date rows r : energy_of date rows = Some r -> en_date r = date.
Proof.
  intro H. apply find_some in H. destruct H as [_ H]. now apply Z.eqb_eq.
Qed.

Lemma record_energy_row rows date totals d :
  energy_of d (record_energy rows date totals) =
  if (date =? d)%Z then
    match energy_of d rows with
    | Some r => Some (mkEnergyRow (en_date r) (en_first r) totals)
    | None => Some (mkEnergyRow d totals totals)
    end
  else energy_of d rows.
Proof.
  unfold record_energy, energy_of.
  destruct (date =? d)%Z eqn:E.
  - apply Z.eqb_eq in E. subst d.
    destruct (find (fun r => (en_date r =? date)%Z) rows) as [r0|] eqn:F.
    + rewrite (find_through_map _ (fun r => (en_date r =? date)%Z)).
      rewrite (find_same_test _ (fun r => (en_date r =? date)%Z)).
      * rewrite F. cbn [option_map].
        apply find_some in F. destruct F as [_ F]. now rewrite F.
      * intros r _. destruct (en_date r =? date)%Z eqn:Er; [|exact Er].
        cbn [en_date]. exact Er.
    + rewrite find_app, F. cbn [find en_date]. now rewrite Z.eqb_refl.
  - apply Z.eqb_neq in E.
    destruct (find (fun r => (en_date r =? date)%Z) rows) as [r0|] eqn:F.
    + rewrite (find_through_map _ (fun r => (en_date r =? d)%Z)).
      rewrite (find_same_test _ (fun r => (en_date r =? d)%Z)).
      * destruct (find (fun r => (en_date r =? d)%Z) rows) as [r1|] eqn:G;
          cbn [option_map]; [|reflexivity].
        apply find_some in G. destruct G as [_ G]. apply Z.eqb_eq in G.
        assert (Er : (en_date r1 =? date)%Z = false) by (apply Z.eqb_neq; lia).
        now rewrite Er.
      * intros r _. destruct (en_date r =? date)%Z; reflexivity.
    + rewrite find_app.
      destruct (find (fun r => (en_date r =? d)%Z) rows); [reflexivity|].
      cbn [find en_date].
      assert (Er : (date =? d)%Z = false) by now apply Z.eqb_neq.
      now rewrite Er.
Qed.

Lemma record_energy_dates rows date totals :
  NoDup (map en_date rows) -> NoDup (map en_date (record_energy rows date totals)).
Proof.
  intro H. unfold record_energy.
  destruct (find _ rows) as [r0|] eqn:F.
  - rewrite map_map. erewrite map_ext; [exact H|].
    intro r. destruct (en_date r =? date)%Z; reflexivity.
  - rewrite map_app. cbn [map en_date].
    apply NoDup_app; [exact H | repeat constructor; intros [] |].
    intros x Hx [<-|[]]. apply in_map_iff in Hx. destruct Hx as (r & Hr & Hin).
    pose proof (find_none _ _ F r Hin) as Hn. cbn in Hn.
    apply Z.eqb_neq in Hn. contradiction.
Qed.

Lemma last_of_cons date x (snapshots : list (Z * Meters)) :
  last_of date (x :: snapshots) =
  match last_of date snapshots with
  | Some l => Some l
  | None => if (fst x =? date)%Z then Some (snd x) else None
  end.
Proof.
  unfold last_of, first_of. cbn [rev]. rewrite find_app.
  destruct (find _ (rev snapshots)); [reflexivity|].
  cbn [find]. destruct (fst x =? date)%Z; reflexivity.
Qed.

Lemma first_of_cons date x (snapshots : list (Z * Meters)) :
  first_of date (x :: snapshots) =
  if (fst x =? date)%Z then Some (snd x) else first_of date snapshots.
Proof.
  unfold first_of. cbn [find]. destruct (fst x =? date)%Z; reflexivity.
Qed.

Lemma record_all_row (snapshots : list (Z * Meters)) : forall rows d,
  energy_of d (record_all snapshots rows) =
  match energy_of d rows with
  | Some r =>
      Some (mkEnergyRow (en_date r) (en_first r)
              (match last_of d snapshots with Some l => l | None => en_last r end))
  | None =>
      match first_of d snapshots, last_of d snapshots with
      | Some f, Some l => Some (mkEnergyRow d f l)
      | _, _ => None
      end
  end.
Proof.
  induction snapshots as [|[dx sx] snapshots IH]; intros rows d.
  - cbn [record_all fold_left]. unfold last_of, first_of. cbn [rev find option_map].
    destruct (energy_of d rows) as [r|]; [|reflexivity]. now destruct r.
  - cbn [record_all fold_left fst snd]. fold (record_all snapshots (record_energy rows dx sx)).
    rewrite IH, record_energy_row, last_of_cons, first_of_cons. cbn [fst snd].
    destruct (dx =? d)%Z, (energy_of d rows) as [r|], (first_of d snapshots),
      (last_of d snapshots); reflexivity.
Qed.

(** X21.  [record_energy] keeps one row per date whose [first] columns are
    written once and whose [last] columns follow the latest snapshot: after
    any run of snapshots on an empty table, the row of a date holds the
    first and the last snapshot that bore the date (so a day's energy,
    [last - first], is the difference between them), a date without
    snapshot has no row, and the dates stay distinct. *)
Theorem record_energy_first_and_last (snapshots : list (Z * Meters)) :
  (forall d,
     energy_of d (record_all snapshots []) =
     match first_of d snapshots, last_of d snapshots with
     | Some f, Some l => Some (mkEnergyRow d f l)
     | _, _ => None
     end) /\
  (forall rows d r,
     energy_of d rows = Some r ->
     exists r', energy_of d (record_all snapshots rows) = Some r' /\
                en_first r' = en_first r) /\
  (forall rows, NoDup (map en_date rows) ->
                NoDup (map en_date (record_all snapshots rows))).
Proof.
  split; [|split].
  - intro d. now rewrite record_all_row.
  - intros rows d r H. rewrite record_all_row, H. eexists. split; reflexivity.
  - induction snapshots as [|[dx sx] snapshots IH]; intros rows H; [exact H|].
    cbn [record_all fold_left fst snd]. apply IH. now apply record_energy_dates.
Qed.

(** ** The signature an event is booked on *)

Lemma find_same_core (id : Z) (l1 : list Signature) : forall l2 row1,
  map sig_core l2 = map sig_core l1 ->
  find (fun s => (sg_id s =? id)%Z) l1 = Some row1 ->
  exists row2, find (fun s => (sg_id s =? id)%Z) l2 = Some row2 /\
               sig_core row2 = sig_core row1.
Proof.
  induction l1 as [|x l1 IH]; intros l2 row1 Hm Hf; [discriminate|].
  destruct l2 as [|y l2]; [discriminate|].
  cbn [map] in Hm.
  assert (Hc : sig_core y = sig_core x)
    by exact (f_equal (fun l => hd (sig_core x) l) Hm).
  assert (Hrest : map sig_core l2 = map sig_core l1)
    by exact (f_equal (@tl _) Hm).
  assert (Hid : sg_id y = sg_id x).
  { unfold sig_core in Hc. inversion Hc. reflexivity. }
  cbn [find] in *. rewrite Hid.
  destruct (sg_id x =? id)%Z.
  - inversion Hf; subst. exists y. split; [reflexivity | exact Hc].
  - now apply IH.
Qed.

Lemma resolve_signature_row cfg db pd leg :
  ids_ok db ->
  let r := resolve_signature cfg db pd leg in
  match get_signature db (fst r) with
  | Some old =>
      Qabs (pd - power_avg old) <= power_avg old * SIGNATURE_TOLERANCE cfg /\
      (forall other, In other (appliance_signatures db) ->
         Qabs (pd - power_avg other) <= power_avg other * SIGNATURE_TOLERANCE cfg ->
         Qabs (pd - power_avg old) <= Qabs (pd - power_avg other)) /\
      get_signature (snd r) (fst r) =
        Some (set_power_stats
                (py_round ((power_avg old * inject_Z (event_count old) + pd)
                           / inject_Z (event_count old + 1)) 1)
                (Qmin (power_min old) pd) (Qmax (power_max old) pd)
                (event_count old + 1) old)
  | None =>
      fst r = (seq_signatures db + 1)%Z /\
      (forall other, In other (appliance_signatures db) ->
         ~ Qabs (pd - power_avg other) <= power_avg other * SIGNATURE_TOLERANCE cfg) /\
      get_signature (snd r) (fst r) =
        Some (mkSignature (seq_signatures db + 1) pd pd pd leg 1 (_suggest_label pd)
                          (_suggest_icon pd) (_suggest_color pd) false 0 None 0 0)
  end.
Proof.
  intro Hok. cbv zeta. pose proof Hok as (H0 & Hb & Hn).
  unfold resolve_signature.
  pose proof (find_matching_signature_nearest cfg pd db leg) as Hnear.
  pose proof (found_positive cfg db pd leg) as Hpos.
  destruct (find_matching_signature cfg db pd leg) as [id|] eqn:E.
  - rewrite (Hpos id Hok eq_refl). cbn [fst snd].
    destruct Hnear as (avg & Hin & Htol & Hmin).
    unfold signature_rows in Hin. apply in_map_iff in Hin.
    destruct Hin as (s0 & Hs0 & Hin0). inversion Hs0; subst.
    destruct (get_signature db (sg_id s0)) as [old|] eqn:G.
    + assert (Hold : old = s0).
      { unfold get_signature in G. apply find_some in G. destruct G as [Gin Gid].
        apply Z.eqb_eq in Gid.
        now apply (same_id_same_row (appliance_signatures db)). }
      subst old. split; [exact Htol|]. split.
      * intros other Ho Ht.
        apply (Hmin (sg_id other) (power_avg other)); [|exact Ht].
        unfold signature_rows. apply in_map_iff. now exists other.
      * now apply update_signature_row.
    + exfalso. apply (proj2 (get_signature_In db (sg_id s0))); [|exact G].
      now apply in_map.
  - assert (Hfresh : get_signature db (seq_signatures db + 1) = None).
    { destruct (get_signature db (seq_signatures db + 1)) eqn:G; [|reflexivity].
      exfalso. assert (Hi : In (seq_signatures db + 1)%Z (map sg_id (appliance_signatures db)))
        by (apply get_signature_In; congruence).
      rewrite Forall_forall in Hb. specialize (Hb _ Hi). lia. }
    unfold create_signature. cbn [fst snd]. rewrite Hfresh.
    split; [reflexivity|]. split.
    + intros other Ho. apply (Hnear (sg_id other) (power_avg other)).
      unfold signature_rows. apply in_map_iff. now exists other.
    + unfold get_signature in *. cbn [appliance_signatures].
      rewrite find_app, Hfresh. cbn [find sg_id]. now rewrite Z.eqb_refl.
Qed.

(** X22.  The signature an event is booked on, in a store whose signature
    ids are distinct and within the counter.  Either the id was stored
    before: then the event's power lies within the tolerance of that
    signature's average, no stored signature within its own tolerance is
    nearer, and the signature now counts one more event, with the running
    average rounded to one decimal and the range widened to the event's
    power.  Or it is new, the next id of the counter: then no stored
    signature was within tolerance, and the new signature has the event's
    power as average, minimum and maximum, one event, and the suggested
    label, icon and colour.  The later bookkeeping of the call leaves these
    columns alone, and the label the event returns is this signature's. *)
Theorem detect_edge_event_signature cfg clk db m s l1 l2 ots ev db' m' :
  ids_ok db ->
  detect_edge cfg clk db m s l1 l2 ots = (Some ev, db', m') ->
  let sid := ed_signature_id ev in
  let pd := ed_power_delta ev in
  exists row,
    get_signature db' sid = Some row /\
    ed_label ev = user_label row /\
    match get_signature db sid with
    | Some old =>
        Qabs (pd - power_avg old) <= power_avg old * SIGNATURE_TOLERANCE cfg /\
        (forall other, In other (appliance_signatures db) ->
           Qabs (pd - power_avg other) <= power_avg other * SIGNATURE_TOLERANCE cfg ->
           Qabs (pd - power_avg old) <= Qabs (pd - power_avg other)) /\
        sig_core row =
          (sid,
           py_round ((power_avg old * inject_Z (event_count old) + pd)
                     / inject_Z (event_count old + 1)) 1,
           Qmin (power_min old) pd, Qmax (power_max old) pd,
           (event_count old + 1)%Z, user_label old, icon old, color old)
    | None =>
        sid = (seq_signatures db + 1)%Z /\
        (forall other, In other (appliance_signatures db) ->
           ~ Qabs (pd - power_avg other) <= power_avg other * SIGNATURE_TOLERANCE cfg) /\
        sig_core row =
          (sid, pd, pd, pd, 1%Z, _suggest_label pd, _suggest_icon pd, _suggest_color pd)
    end.
Proof.
  intros Hok. unfold detect_edge.
  destruct (stable_level m) as [level|]; [|discriminate].
  destruct (Qltb _ (EDGE_THRESHOLD cfg)); [discriminate|].
  destruct (Qltb _ (DEBOUNCE_SECONDS cfg)); [discriminate|].
  set (delta := raw_current m s - level).
  pose proof (record_edge_core cfg clk db delta (raw_current m s) l1 l2 ots) as (Hcore & _).
  pose proof (record_edge_steps cfg clk db delta (raw_current m s) l1 l2 ots) as Hsteps.
  cbv zeta in Hsteps.
  pose proof (resolve_signature_row cfg db (py_round (Qabs delta) 1) (classify_leg l1 l2)
                Hok) as Hrow.
  cbv zeta in Hrow.
  destruct (record_edge cfg clk db delta (raw_current m s) l1 l2 ots) as [ev0 db0].
  intro H. inversion H; subst ev0 db0 m'. clear H. cbv zeta.
  cbn [snd] in Hcore.
  set (r1 := resolve_signature cfg db (py_round (Qabs delta) 1) (classify_leg l1 l2)) in *.
  assert (Hsid : ed_signature_id ev = fst r1) by (inversion Hsteps; reflexivity).
  assert (Hpd : ed_power_delta ev = py_round (Qabs delta) 1)
    by (inversion Hsteps; reflexivity).
  assert (Hlab : ed_label ev = _get_signature_label db' (fst r1)).
  { inversion Hsteps as [[He Hd]]. rewrite <- Hd. reflexivity. }
  rewrite Hsid, Hpd.
  assert (Hfinal : forall row1, get_signature (snd r1) (fst r1) = Some row1 ->
            exists row, get_signature db' (fst r1) = Some row /\
                        ed_label ev = user_label row /\ sig_core row = sig_core row1).
  { intros row1 H1. destruct (find_same_core (fst r1) _ _ row1 Hcore H1) as (row & Hr & Hc).
    exists row. split; [exact Hr|]. split; [|exact Hc].
    rewrite Hlab. unfold _get_signature_label, get_signature. now rewrite Hr. }
  destruct (get_signature db (fst r1)) as [old|] eqn:G.
  - destruct Hrow as (Htol & Hmin & Hget).
    destruct (Hfinal _ Hget) as (row & Hr & Hl & Hc).
    exists row. split; [exact Hr|]. split; [exact Hl|].
    split; [exact Htol|]. split; [exact Hmin|].
    rewrite Hc. unfold sig_core.
    cbn [set_power_stats sg_id power_avg power_min power_max event_count user_label icon color].
    unfold get_signature in G. apply find_some in G. destruct G as [_ G].
    apply Z.eqb_eq in G. now rewrite G.
  - destruct Hrow as (Hnew & Hnone & Hget).
    destruct (Hfinal _ Hget) as (row & Hr & Hl & Hc).
    exists row. split; [exact Hr|]. split; [exact Hl|].
    split; [exact Hnew|]. split; [exact Hnone|].
    rewrite Hc, Hnew. reflexivity.
Qed.

(** A step up of 150 W in the store that knows the fridge: booked on
    signature 1, which keeps its label. *)
Lemma detect_edge_event_signature_witness :
  exists ev db' m' row,
    detect_edge default_config (mkClock 5000 5000) store_fridge_on
      (tracking_mem 100 [100; 250]) 175 None None None = (Some ev, db', m') /\
    ed_signature_id ev = 1%Z /\
    get_signature db' 1 = Some row /\ ed_label ev = user_label row.
Proof.
  destruct (detect_edge default_config (mkClock 5000 5000) store_fridge_on
              (tracking_mem 100 [100; 250]) 175 None None None)
    as [[[ev|] db'] m'] eqn:E.
  - assert (Hsid : ed_signature_id ev = 1%Z) by (vm_compute in E; now inversion E).
    destruct (detect_edge_event_signature default_config (mkClock 5000 5000)
                store_fridge_on (tracking_mem 100 [100; 250]) 175 None None None
                ev db' m') as (row & Hr & Hl & _).
    + split; [cbn; lia|]. split; repeat constructor; cbn; try lia; intros [].
    + exact E.
    + cbv zeta in Hr. rewrite Hsid in Hr. exists ev, db', m', row. auto.
  - vm_compute in E. discriminate.
Defined.

(** ** The running average of cycle durations *)

Lemma one_decimal_seconds (d : Z) : one_decimal (inject_Z d).
Proof.
  unfold one_decimal, py_round.
  change (pow10 1) with (inject_Z 10).
  assert (E : inject_Z d * inject_Z 10 == inject_Z (d * 10))
    by (now rewrite inject_Z_mult).
  rewrite (round_half_even_comp _ _ E), round_half_even_Z.
  rewrite inject_Z_mult. change (inject_Z 10) with 10. field.
Qed.

(** X23.  [_update_avg_duration] weighs a new duration against the stored
    average by the number of cycles it estimates from the event count,
    [max(1, event_count // 2)], and rounds to one decimal.  While the
    signature has fewer than four events the average becomes the new
    duration itself; in general it lies between the old average (a
    one-decimal value) and the new duration.  Nothing else of the signature
    changes. *)
Theorem update_avg_duration_between db sid d row :
  get_signature db sid = Some row ->
  let db' := _update_avg_duration db sid d in
  let cycles := Z.max 1 (event_count row / 2) in
  exists row',
    get_signature db' sid = Some row' /\
    row' = set_avg_duration (avg_duration row') row /\
    avg_duration row' =
      py_round ((avg_duration row * inject_Z (cycles - 1) + inject_Z d)
                / inject_Z cycles) 1 /\
    one_decimal (avg_duration row') /\
    ((event_count row < 4)%Z -> avg_duration row' == inject_Z d) /\
    (one_decimal (avg_duration row) ->
     Qmin (avg_duration row) (inject_Z d) <= avg_duration row' /\
     avg_duration row' <= Qmax (avg_duration row) (inject_Z d)).
Proof.
  intro Hs. cbv zeta. unfold _update_avg_duration. rewrite Hs.
  set (k := Z.max 1 (event_count row / 2)).
  set (mean := (avg_duration row * inject_Z (k - 1) + inject_Z d) / inject_Z k).
  exists (set_avg_duration (py_round mean 1) row).
  split.
  { unfold get_signature in *. cbn [update_sig set_signatures appliance_signatures].
    rewrite find_update_sig_rows by reflexivity. now rewrite Hs. }
  split; [reflexivity|]. split; [reflexivity|].
  cbn [set_avg_duration avg_duration].
  split; [apply py_round_idem|]. split.
  - intro Hlt.
    assert (Hk : k = 1%Z).
    { subst k. assert (event_count row / 2 < 2)%Z
        by (apply Z.div_lt_upper_bound; lia). lia. }
    assert (E : mean == inject_Z d).
    { subst mean. rewrite Hk. change (inject_Z (1 - 1)) with 0.
      change (inject_Z 1) with 1. field. }
    rewrite (py_round_comp _ _ 1 E). apply one_decimal_seconds.
  - intro Hone.
    assert (Hk : (0 <= k - 1)%Z) by (subst k; lia).
    destruct (running_average_between (avg_duration row) (inject_Z d)
                (Qmin (avg_duration row) (inject_Z d))
                (Qmax (avg_duration row) (inject_Z d)) (k - 1) Hk
                (Q.le_min_l _ _) (Q.le_min_r _ _) (Q.le_max_l _ _) (Q.le_max_r _ _))
      as (Hlo & Hhi).
    replace (k - 1 + 1)%Z with k in Hlo, Hhi by lia. fold mean in Hlo, Hhi.
    pose proof (one_decimal_min _ _ Hone (one_decimal_seconds d)) as Emin.
    pose proof (one_decimal_max _ _ Hone (one_decimal_seconds d)) as Emax.
    unfold one_decimal in Emin, Emax. split.
    + rewrite <- Emin. now apply py_round_mono.
    + rewrite <- Emax. now apply py_round_mono.
Qed.

(** The 140 W cluster (two events, average 600 s) and a new cycle of 300 s:
    the estimate is one cycle, so the average becomes 300. *)
Lemma update_avg_duration_between_witness :
  exists row',
    get_signature (_update_avg_duration store_two_clusters 2 300) 2 = Some row' /\
    avg_duration row' == 300.
Proof.
  destruct (update_avg_duration_between store_two_clusters 2 300 cluster_140 eq_refl)
    as (row' & H1 & _ & _ & _ & H5 & _).
  exists row'. split; [exact H1|]. apply H5. cbn. lia.
Defined.
